(** * hwasung-parking: event store, provider session client, status
      resolver and single-flight scheduler

    A shallow embedding of [src/database.js], [src/crawler.js],
    [src/scheduler.js], [src/cpm-database.js] and the dashboard handler of
    [src/server.js], followed by the properties of the design document
    that were checked against it.

    Conventions.
    - JavaScript strings are modelled as byte strings (UTF-8), so the Korean
      literals of the source appear as they are written there.  Substring
      search on UTF-8 bytes agrees with substring search on code points.
    - Module-level [let] variables of the source ([cookies], [client],
      [isRunning], the SQLite handle) become fields of an explicit state.
    - Everything the process cannot control (the provider's HTTP server,
      storage faults, the product-status database) is an explicit oracle
      argument, so every statement quantifies over all environments. *)

From Stdlib Require Import String Ascii List ZArith Lia Bool DecimalString.
From Stdlib Require Import Sorting.Sorted Sorting.Permutation.
From stdpp Require Import gmap strings list fin_maps.

Open Scope string_scope.

(* ===================================================================== *)
(** * Part I: the program                                                 *)
(* ===================================================================== *)

(** ** JavaScript values and primitives used by the source *)

(** Scalar values a provider record field or a bound SQL parameter can
    hold.  Numbers are integers: the only numeric values the source
    anticipates are the direction codes 0 and 1. *)
Inductive jsval : Type :=
| JUndefined
| JNull
| JNum (n : Z)
| JStr (s : string).

(** Truthiness, as used by [!x], [x || y], [x && y] and [if (x)]. *)
Definition truthy (v : jsval) : bool :=
  match v with
  | JUndefined | JNull => false
  | JNum n => negb (n =? 0)%Z
  | JStr s => negb (s =? "")
  end.

(** [a || b] *)
Definition js_or (a b : jsval) : jsval := if truthy a then a else b.

(** [String(v)]; integers print in decimal. *)
Definition ToString (v : jsval) : string :=
  match v with
  | JUndefined => "undefined"
  | JNull => "null"
  | JNum n => NilZero.string_of_int (Z.to_int n)
  | JStr s => s
  end.

(** [s.includes(sub)] *)
Fixpoint includes (s sub : string) : bool :=
  String.prefix sub s ||
  match s with
  | EmptyString => false
  | String _ s' => includes s' sub
  end.

Definition lower_ascii (c : ascii) : ascii :=
  let n := nat_of_ascii c in
  if (65 <=? n)%nat && (n <=? 90)%nat then ascii_of_nat (n + 32) else c.

(** [s.toLowerCase()].  Only A-Z are folded.  The source searches the
    result for ["in"] and ["out"] only, and no character outside A-Z
    lower-cases to a text in which one of these begins or continues. *)
Fixpoint toLowerCase (s : string) : string :=
  match s with
  | EmptyString => EmptyString
  | String c s' => String (lower_ascii c) (toLowerCase s')
  end.

(** [s.split(sep)[0]] for a one-character separator. *)
Fixpoint split_head (sep : ascii) (s : string) : string :=
  match s with
  | EmptyString => EmptyString
  | String c s' => if Ascii.eqb c sep then EmptyString else String c (split_head sep s')
  end.

(** [xs.join(sep)] *)
Fixpoint join (sep : string) (xs : list string) : string :=
  match xs with
  | [] => ""
  | [x] => x
  | x :: rest => x ++ sep ++ join sep rest
  end.

(** A function either returns or throws an [Error] with a message. *)
Inductive outcome (A : Type) : Type :=
| Returns (a : A)
| Throws (msg : string).
Arguments Returns {A} a.
Arguments Throws {A} msg.

(** ** Status taxonomy ([src/cpm-database.js]) *)

(** [RESTORATION_STATUS]: the status codes of both generations with their
    labels. *)
Definition RESTORATION_STATUS : list (string * string) :=
  [ ("RECEPTION_COMPLETED", "접수완료");
    ("INBOUND_PENDING", "입고대기");
    ("INBOUND_COMPLETED", "입고완료");
    ("INBOUND_INSPECTION_PENDING", "입고검수대기");
    ("INBOUND_INSPECTION_COMPLETED", "입고검수완료");
    ("WORK_PENDING", "작업대기");
    ("WORKING", "작업중");
    ("WORK_COMPLETED", "작업완료");
    ("OUTBOUND_INSPECTION_COMPLETED", "출고검수완료");
    ("OUTBOUND_IDLE", "출고요청");
    ("OUTBOUND_PENDING", "출고대기");
    ("OUTBOUND_COMPLETED", "출고완료");
    ("SERVICE_COMPLETED", "서비스완료");
    ("INPUT", "신청접수");
    ("PICKUPING", "픽업중");
    ("PICKUPOK", "픽업완료");
    ("IN", "입고");
    ("CHECK", "검수완료");
    ("COMPLETE", "작업완료");
    ("OUTREADY", "출고대기");
    ("HOMESERVICE", "홈서비스");
    ("UNPAY", "미결제");
    ("FINISH", "종료") ].

(** Property lookup [TABLE[key]] on an object literal. *)
Fixpoint table_get (t : list (string * string)) (k : string) : option string :=
  match t with
  | [] => None
  | (k', v) :: t' => if k' =? k then Some v else table_get t' k
  end.

(** [[...].includes(x)] on an array literal of strings. *)
Definition array_includes (xs : list string) (x : string) : bool :=
  existsb (String.eqb x) xs.

(** [categorizeStatus(statusCode)].  The argument is a status column read
    from the product-status store: a string or [null]. *)
Definition categorizeStatus (statusCode : option string) : string :=
  match statusCode with
  | None => "none"
  | Some code =>
    if code =? "" then "none"
    else if array_includes ["WORKING"; "WORK_PENDING"] code then "working"
    else if array_includes ["WORK_COMPLETED"; "OUTBOUND_INSPECTION_COMPLETED"; "COMPLETE"] code
      then "completed"
    else if array_includes ["OUTBOUND_IDLE"; "OUTBOUND_PENDING"; "OUTREADY"; "HOMESERVICE"; "UNPAY"] code
      then "outbound_waiting"
    else if array_includes ["OUTBOUND_COMPLETED"; "SERVICE_COMPLETED"; "FINISH"] code
      then "done"
    else if array_includes
              ["RECEPTION_COMPLETED"; "INBOUND_PENDING"; "INBOUND_COMPLETED";
               "INBOUND_INSPECTION_PENDING"; "INBOUND_INSPECTION_COMPLETED";
               "INPUT"; "PICKUPING"; "PICKUPOK"; "IN"; "CHECK"] code
      then "pending"
    else "other"
  end.

Definition CATEGORY_TEXT : list (string * string) :=
  [ ("pending", "입고/대기");
    ("working", "작업중");
    ("completed", "작업완료");
    ("outbound_waiting", "출고대기");
    ("done", "출고완료");
    ("none", "전산 미등록");
    ("other", "기타") ].

(** [RESTORATION_STATUS[code] || code || '알 수 없음'] *)
Definition getStatusText (statusCode : option string) : string :=
  match statusCode with
  | None => "알 수 없음"
  | Some code =>
    match table_get RESTORATION_STATUS code with
    | Some label => label
    | None => if code =? "" then "알 수 없음" else code
    end
  end.

(** The six reporting buckets of the design document. *)
Definition buckets : list string :=
  ["pending"; "working"; "completed"; "outbound_waiting"; "done"; "other"].

(** A status code is known when [RESTORATION_STATUS] lists it. *)
Definition known_code (code : string) : bool :=
  existsb (fun kv => fst kv =? code) RESTORATION_STATUS.

(** ** Provider records and parsed movements ([src/crawler.js]) *)

(** One element of the provider's response: a JSON object whose fields are
    scalars.  A missing field reads as [undefined]. *)
Definition item : Type := list (string * jsval).

Fixpoint getField (o : item) (k : string) : jsval :=
  match o with
  | [] => JUndefined
  | (k', v) :: o' => if k' =? k then v else getField o' k
  end.

(** The object built by [parseMovements] for each record. *)
Record movement : Type := {
  plateNumber : jsval;
  movementType : jsval;
  movementTime : string;
  location : jsval;
  cardType : jsval;
  rawData : item
}.

Definition ENTRY : string := "입차".
Definition EXIT : string := "출차".
Definition UNKNOWN : string := "알수없음".

(** [parseMovementType(status)] *)
Definition parseMovementType (status : jsval) : jsval :=
  let statusStr := ToString status in
  if statusStr =? "0" then JStr ENTRY
  else if statusStr =? "1" then JStr EXIT
  else if includes statusStr "입" || includes (toLowerCase statusStr) "in" then JStr ENTRY
  else if includes statusStr "출" || includes (toLowerCase statusStr) "out" then JStr EXIT
  else js_or status (JStr UNKNOWN).

(** The body of the [for (const item of items)] loop of [parseMovements]:
    [Some m] when a movement is pushed, [None] when the record is dropped
    (missing plate or timestamp) or the inner [try] caught a [TypeError]
    (a truthy non-string [dtTrnsDate] has no [includes] method). *)
Definition parseItem (it : item) : option movement :=
  match js_or (getField it "dtTrnsDate") (JStr "") with
  | JStr t =>
    let movementTime := if negb (t =? "") && includes t "." then split_head "." t else t in
    let m := {| plateNumber := js_or (getField it "acPlate") (JStr "");
                movementType := parseMovementType (getField it "iInOutStatus");
                movementTime := movementTime;
                location := js_or (getField it "acEqpmName") (JStr "");
                cardType := js_or (getField it "iCardTypeNm") (JStr "");
                rawData := it |} in
    if truthy (plateNumber m) && negb (movementTime =? "") then Some m else None
  | _ => None
  end.

(** A property of the response object that may hold the records. *)
Inductive pvalue : Type :=
| VScalar (v : jsval)
| VItems (items : list item)
| VItem (it : item).

(** [response.data] as axios delivers it: a scalar (an unparsed body is a
    string, an empty one [null]), a JSON array of records, or a JSON
    object. *)
Inductive payload : Type :=
| PScalar (v : jsval)
| PArray (items : list item)
| PObject (fields : list (string * pvalue)).

Fixpoint getProp (fields : list (string * pvalue)) (k : string) : pvalue :=
  match fields with
  | [] => VScalar JUndefined
  | (k', v) :: rest => if k' =? k then v else getProp rest k
  end.

Definition pvalue_truthy (v : pvalue) : bool :=
  match v with
  | VScalar s => truthy s
  | VItems _ | VItem _ => true
  end.

(** What [for (const item of x)] iterates over: the elements of an array,
    the characters of a string (primitives, every field [undefined]), and
    a [TypeError] for anything else. *)
Definition iterate (v : pvalue) : outcome (list item) :=
  match v with
  | VItems items => Returns items
  | VScalar (JStr s) => Returns (map (fun _ => []) (list_ascii_of_string s))
  | _ => Throws "items is not iterable"
  end.

(** The shape detection at the head of [parseMovements]. *)
Definition payloadItems (data : payload) : outcome (list item) :=
  match data with
  | PArray items => Returns items
  | PScalar _ => Returns []
  | PObject fields =>
    if pvalue_truthy (getProp fields "rows") then iterate (getProp fields "rows")
    else if pvalue_truthy (getProp fields "list") then iterate (getProp fields "list")
    else if pvalue_truthy (getProp fields "data") then
      match getProp fields "data" with
      | VItems items => Returns items
      | VItem it => Returns [it]
      | VScalar _ => Returns [[]]
      end
    else Returns []
  end.

(** [flat_map] over options: the pushes of the loop, in order. *)
Fixpoint keep_some {A B} (f : A -> option B) (l : list A) : list B :=
  match l with
  | [] => []
  | x :: l' => match f x with Some y => y :: keep_some f l' | None => keep_some f l' end
  end.

(** [parseMovements(data)] *)
Definition parseMovements (data : payload) : outcome (list movement) :=
  match payloadItems data with
  | Returns items => Returns (keep_some parseItem items)
  | Throws e => Throws e
  end.

(** ** Provider session client ([src/crawler.js]) *)

(** What the client sends.  The credentials of the login form are
    constants of the source and are not recorded. *)
Record request : Type := {
  method : string;
  url : string;
  cookieHeader : string;
  params : list (string * string)
}.

Record response : Type := {
  set_cookie : option (list string);   (* [response.headers['set-cookie']] *)
  data : payload
}.

(** The provider: given the requests sent so far (newest first, the
    current one at the head) it answers or the connection fails. *)
Definition provider : Type := list request -> outcome response.

(** The module state of [crawler.js], with the requests sent and the lines
    written to the console. *)
Record session : Type := {
  cookies : string;
  client : bool;                       (* [false] is [null] *)
  sent : list request;
  console : list string
}.

Definition set_cookies (c : string) (s : session) : session :=
  {| cookies := c; client := client s; sent := sent s; console := console s |}.
Definition set_client (b : bool) (s : session) : session :=
  {| cookies := cookies s; client := b; sent := sent s; console := console s |}.
Definition log (line : string) (s : session) : session :=
  {| cookies := cookies s; client := client s; sent := sent s;
     console := (console s ++ [line])%list |}.

(** [await client.get/post(...)]: the request is recorded and the provider
    answers. *)
Definition send (srv : provider) (rq : request) (s : session)
  : outcome response * session :=
  let s' := {| cookies := cookies s; client := client s;
               sent := rq :: sent s; console := console s |} in
  (srv (sent s'), s').

(** [parseCookies(response)] *)
Definition parseCookies (r : response) (s : session) : session :=
  match set_cookie r with
  | Some setCookies =>
    let newCookies := join "; " (map (split_head ";") setCookies) in
    if negb (cookies s =? "") then set_cookies (cookies s ++ "; " ++ newCookies) s
    else set_cookies newCookies s
  | None => s
  end.

(** [loginResponse.data && loginResponse.data.errorCode] *)
Definition hasErrorCode (d : payload) : bool :=
  match d with
  | PObject fields => pvalue_truthy (getProp fields "errorCode")
  | _ => false
  end.

(** [login()].  The provider's [errorMsg], printed after the failure line,
    is not modelled. *)
Definition login (srv : provider) (s : session) : bool * session :=
  let s := set_client true (set_cookies "" s) in
  match send srv {| method := "GET"; url := "/login"; cookieHeader := ""; params := [] |} s with
  | (Throws msg, s) => (false, log ("로그인 실패: " ++ msg) s)
  | (Returns initResponse, s) =>
    let s := parseCookies initResponse s in
    match send srv {| method := "POST"; url := "/login";
                      cookieHeader := cookies s; params := [] |} s with
    | (Throws msg, s) => (false, log ("로그인 실패: " ++ msg) s)
    | (Returns loginResponse, s) =>
      let s := parseCookies loginResponse s in
      if hasErrorCode (data loginResponse) then (false, log "로그인 실패:" s)
      else (true, log "로그인 성공" s)
    end
  end.

Definition SEARCH_URL : string := "/search/lprtrns/doListGrid".

Definition searchRequest (startDate endDate : string) (s : session) : request :=
  {| method := "POST"; url := SEARCH_URL; cookieHeader := cookies s;
     params := [ ("searchStartDt", startDate ++ " 00:00:00");
                 ("searchEndDt", endDate ++ " 23:59:59");
                 ("iInOutStatus", ""); ("iCardType", ""); ("acPlate", "");
                 ("rowcount", "50000") ] |}.

(** [!response.data || typeof response.data === 'string'] *)
Definition notStructured (d : payload) : bool :=
  match d with
  | PScalar (JStr _) => true
  | PScalar v => negb (truthy v)
  | _ => false
  end.

(** [typeof response.data === 'string' && response.data.includes('login')] *)
Definition looksExpired (d : payload) : bool :=
  match d with
  | PScalar (JStr s) => includes s "login"
  | _ => false
  end.

(** The head of [fetchMovements]: [if (!client || !cookies)] log in; the
    flag says whether the call may go on. *)
Definition ensureLogin (srv : provider) (s : session) : bool * session :=
  if negb (client s) || (cookies s =? "") then login srv s else (true, s).

(** The branch taken on a detected expiry, up to the recursive call:
    [cookies = ''; client = null; await login()], the result of [login]
    being dropped. *)
Definition reauthenticate (srv : provider) (s : session) : session :=
  let s := log "세션 만료, 재로그인 시도..." s in
  let s := set_client false (set_cookies "" s) in
  snd (login srv s).

(** [fetchMovements(startDate, endDate)].  The function calls itself after
    a detected expiry, so the model takes fuel: [None] means the fuel did
    not suffice, [Some] is the settled promise and the state it leaves.
    The recursive call is returned without [await], so its rejection does
    not pass through the [catch] of the calling level. *)
Fixpoint fetchMovements (fuel : nat) (srv : provider) (startDate endDate : string)
    (s : session) : option (outcome (list movement) * session) :=
  match fuel with
  | O => None
  | S fuel' =>
    let '(loggedIn, s) := ensureLogin srv s in
    if negb loggedIn then Some (Throws "로그인 실패", s)
    else
      match send srv (searchRequest startDate endDate s) s with
      | (Throws msg, s) => Some (Throws msg, log ("데이터 조회 실패: " ++ msg) s)
      | (Returns resp, s) =>
        if notStructured (data resp) then
          if looksExpired (data resp) then
            fetchMovements fuel' srv startDate endDate (reauthenticate srv s)
          else Some (Returns [], s)
        else
          match parseMovements (data resp) with
          | Returns ms => Some (Returns ms, s)
          | Throws msg => Some (Throws msg, log ("데이터 조회 실패: " ++ msg) s)
          end
      end
  end.

(** The search requests among the requests sent. *)
Definition searches (s : session) : nat :=
  List.length (List.filter (fun rq => url rq =? SEARCH_URL) (sent s)).

(** The login form submissions among the requests sent. *)
Definition logins (s : session) : nat :=
  List.length (List.filter (fun rq => (url rq =? "/login") && (method rq =? "POST")) (sent s)).

(** ** Event store ([src/database.js]) *)

(** A row of [vehicle_movements].  [id] is the position in the table;
    [created_at] (the insertion clock) is read by no modelled query.
    [raw_data] holds the record itself in place of its JSON text.
    Timestamps are the texts ["YYYY-MM-DD HH:MM:SS"] written by
    [parseMovements]; they are no numeric literals, so the DATETIME column
    keeps them as TEXT and SQLite compares them bytewise. *)
Record row : Type := {
  plate_number : string;
  movement_type : string;
  movement_time : string;
  row_location : option string;
  card_type : option string;
  raw_data : option item
}.

(** How better-sqlite3 binds a JavaScript value to a parameter of a TEXT
    column: strings as they are, numbers converted to their decimal text by
    the column affinity (32-bit integers are bound as INTEGER), [null] as
    NULL, and a [TypeError] for anything else. *)
Inductive bound : Type :=
| BText (s : string)
| BNull
| BError.

Definition bindText (v : jsval) : bound :=
  match v with
  | JStr s => BText s
  | JNum n => BText (ToString (JNum n))
  | JNull => BNull
  | JUndefined => BError
  end.

(** [v || null] *)
Definition or_null (v : jsval) : jsval := js_or v JNull.

Definition bound_opt (b : bound) : option string :=
  match b with BText s => Some s | _ => None end.

(** The [UNIQUE(plate_number, movement_time, movement_type)] constraint. *)
Definition same_triple (p ty t : string) (r : row) : bool :=
  (plate_number r =? p) && (movement_time r =? t) && (movement_type r =? ty).

Definition BIND_ERROR : string :=
  "SQLite3 can only bind numbers, strings, bigints, buffers, and null".
Definition STORAGE_ERROR : string := "SqliteError".

(** One [insert.run(...)] of the prepared [INSERT OR IGNORE]: the new table
    and [result.changes], or the exception.  [fault] says whether the
    storage engine fails on this statement. *)
Definition insert_run (fault : bool) (db : list row) (m : movement)
  : outcome nat * list row :=
  match bindText (plateNumber m), bindText (movementType m),
        bindText (or_null (location m)), bindText (or_null (cardType m)) with
  | BError, _, _, _ | _, BError, _, _ | _, _, BError, _ | _, _, _, BError =>
    (Throws BIND_ERROR, db)
  | bp, bt, bl, bc =>
    if fault then (Throws STORAGE_ERROR, db)
    else
      match bp, bt with
      | BText p, BText ty =>
        if existsb (same_triple p ty (movementTime m)) db then (Returns 0%nat, db)
        else (Returns 1%nat,
              (db ++ [{| plate_number := p; movement_type := ty;
                         movement_time := movementTime m;
                         row_location := bound_opt bl; card_type := bound_opt bc;
                         raw_data := Some (rawData m) |}])%list)
      | _, _ => (Returns 0%nat, db)   (* NOT NULL violated: the row is ignored *)
      end
  end.

(** The loop inside [insertMany]; [k] numbers the statements of the call. *)
Fixpoint insertLoop (fault : nat -> bool) (k : nat) (items : list movement)
    (inserted : nat) (db : list row) : outcome nat * list row :=
  match items with
  | [] => (Returns inserted, db)
  | m :: rest =>
    match insert_run (fault k) db m with
    | (Throws e, db') => (Throws e, db')
    | (Returns changes, db') =>
      insertLoop fault (S k) rest (if (0 <? changes)%nat then S inserted else inserted) db'
    end
  end.

(** [db.transaction(fn)]: run [fn], commit when it returns, roll back to
    the state at BEGIN and rethrow when it throws. *)
Definition transaction {A B} (fn : A -> list row -> outcome B * list row)
  : A -> list row -> outcome B * list row :=
  fun a db =>
    match fn a db with
    | (Returns b, db') => (Returns b, db')
    | (Throws e, _) => (Throws e, db)
    end.

(** [insertMovements(movements)] *)
Definition insertMovements (fault : nat -> bool) (movements : list movement)
    (db : list row) : outcome nat * list row :=
  transaction (fun items => insertLoop fault 0 items 0) movements db.

(** [MAX(movement_time)] over a group. *)
Definition str_max (a b : string) : string := if String.leb a b then b else a.

Definition max_time (ts : list string) : string := fold_right str_max "" ts.

(** The subquery [latest]: per plate, the greatest ENTRY timestamp. *)
Definition latest (db : list row) : list (string * string) :=
  let entries := List.filter (fun r => movement_type r =? ENTRY) db in
  map (fun p =>
         (p, max_time (map movement_time
                           (List.filter (fun r => plate_number r =? p) entries))))
      (nodup string_dec (map plate_number entries)).

(** The [NOT EXISTS] subquery: an EXIT of the same plate strictly later. *)
Definition exit_after (db : list row) (v : row) : bool :=
  existsb (fun v2 => (plate_number v2 =? plate_number v)
                     && (movement_type v2 =? EXIT)
                     && String.ltb (movement_time v) (movement_time v2)) db.

(** [FROM vehicle_movements v INNER JOIN latest ON ... WHERE ...], the part
    shared by [getParkedVehicles], [getParkingCountByLocation] and the
    parked count of [getStats]. *)
Definition parkedRows (db : list row) : list row :=
  flat_map (fun v =>
    flat_map (fun l =>
      if (plate_number v =? fst l) && (movement_time v =? snd l)
         && (movement_type v =? ENTRY) && negb (exit_after db v)
      then [v] else []) (latest db)) db.

(** [ORDER BY]: a stable insertion sort; [before x y] says that [y] must
    come before [x]. *)
Fixpoint insert_sorted {A} (before : A -> A -> bool) (x : A) (l : list A) : list A :=
  match l with
  | [] => [x]
  | y :: l' => if before x y then y :: insert_sorted before x l' else x :: l
  end.

Definition order_by {A} (before : A -> A -> bool) (l : list A) : list A :=
  fold_right (insert_sorted before) [] l.

(** [getParkedVehicles()].  A result row is the movement row ([entry_time]
    is its [movement_time]); [parking_hours], which depends on the clock,
    is left out. *)
Definition getParkedVehicles (db : list row) : list row :=
  order_by (fun x y => String.ltb (movement_time x) (movement_time y)) (parkedRows db).

(** [getParkingCountByLocation()]: [GROUP BY v.location] with
    [COALESCE(v.location, '미지정')], most populated first. *)
Definition getParkingCountByLocation (db : list row) : list (string * nat) :=
  let rows := parkedRows db in
  let groups := nodup (fun a b : option string => decide (a = b)) (map row_location rows) in
  order_by (fun x y => (snd x <? snd y)%nat)
    (map (fun g => (match g with Some l => l | None => "미지정" end,
                    List.length
                      (List.filter (fun r => bool_decide (row_location r = g)) rows)))
         groups).

Record stats : Type := {
  totalMovements : nat;
  currentlyParked : nat;
  todayMovements : nat
}.

(** [getStats()]; [today] is [DATE('now', 'localtime')], and [DATE(t)] of a
    timestamp text is its first ten characters. *)
Definition getStats (today : string) (db : list row) : stats :=
  {| totalMovements := List.length db;
     currentlyParked := List.length (parkedRows db);
     todayMovements :=
       List.length (List.filter (fun r => substring 0 10 (movement_time r) =? today) db) |}.

(** ** Ingestion job ([src/scheduler.js]) *)

(** Everything outside the process during one run. *)
Record env : Type := {
  server : provider;
  today : string;                      (* [getTodayString()] *)
  insertFault : nat -> bool;           (* storage faults of the batch insert *)
  statsFault : bool;                   (* [getStats()] fails *)
  SLACK_WEBHOOK_URL : option string;
  slackFault : option string           (* the webhook POST fails *)
}.

(** The state shared by all calls: the flag [isRunning], the crawler
    module, the table, the console of the scheduler and the webhook
    messages posted with their [isError] flag. *)
Record world : Type := {
  isRunning : bool;
  crawler : session;
  table : list row;
  out : list string;
  posted : list (string * bool)
}.

Definition set_running (b : bool) (w : world) : world :=
  {| isRunning := b; crawler := crawler w; table := table w; out := out w;
     posted := posted w |}.
Definition set_crawler (s : session) (w : world) : world :=
  {| isRunning := isRunning w; crawler := s; table := table w; out := out w;
     posted := posted w |}.
Definition set_table (t : list row) (w : world) : world :=
  {| isRunning := isRunning w; crawler := crawler w; table := t; out := out w;
     posted := posted w |}.
Definition say (line : string) (w : world) : world :=
  {| isRunning := isRunning w; crawler := crawler w; table := table w;
     out := (out w ++ [line])%list; posted := posted w |}.

Definition show_nat (n : nat) : string := NilZero.string_of_uint (Nat.to_uint n).

(** The line feed of the message templates. *)
Definition LF : string := String (ascii_of_nat 10) EmptyString.

(** [sendSlackNotification(message, isError)]: it catches its own errors. *)
Definition sendSlackNotification (e : env) (message : string) (isError : bool)
    (w : world) : world :=
  match SLACK_WEBHOOK_URL e with
  | None => say "Slack 웹훅 URL이 설정되지 않았습니다." w
  | Some _ =>
    match slackFault e with
    | Some msg => say ("Slack 알림 전송 실패: " ++ msg) w
    | None =>
      {| isRunning := isRunning w; crawler := crawler w; table := table w;
         out := out w; posted := (posted w ++ [(message, isError)])%list |}
    end
  end.

(** The [try] block of [runCrawlJob]. *)
Definition crawlBody (e : env) (fuel : nat) (w : world) : option (outcome unit * world) :=
  match fetchMovements fuel (server e) (today e) (today e) (crawler w) with
  | None => None
  | Some (Throws msg, s) => Some (Throws msg, set_crawler s w)
  | Some (Returns movements, s) =>
    let w := say ("수집된 데이터: " ++ show_nat (List.length movements) ++ "건")
                 (set_crawler s w) in
    let '(r, w) :=
      if (0 <? List.length movements)%nat then
        match insertMovements (insertFault e) movements (table w) with
        | (Returns n, t) => (Returns n, say ("새로 저장된 데이터: " ++ show_nat n ++ "건")
                                            (set_table t w))
        | (Throws msg, t) => (Throws msg, set_table t w)
        end
      else (Returns 0%nat, w) in
    match r with
    | Throws msg => Some (Throws msg, w)
    | Returns inserted =>
      if statsFault e then Some (Throws STORAGE_ERROR, w)
      else
        let st := getStats (today e) (table w) in
        let w := say ("현재 상태 - 전체: " ++ show_nat (totalMovements st)
                      ++ "건, 입차중: " ++ show_nat (currentlyParked st)
                      ++ "대, 오늘: " ++ show_nat (todayMovements st) ++ "건") w in
        if (0 <? inserted)%nat then
          Some (Returns tt,
                sendSlackNotification e
                  ("크롤링 성공" ++ LF
                   ++ "• 수집: " ++ show_nat (List.length movements) ++ "건" ++ LF
                   ++ "• 신규 저장: " ++ show_nat inserted ++ "건" ++ LF
                   ++ "• 현재 입차중: " ++ show_nat (currentlyParked st) ++ "대")
                  false w)
        else Some (Returns tt, w)
    end
  end.

(** [runCrawlJob()]: the guard, then [try { ... } catch { ... } finally
    { isRunning = false }].  [None] when the fetch does not settle within
    the fuel.  The wall-clock prefix of the start line is left out. *)
Definition runCrawlJob (e : env) (fuel : nat) (w : world) : option (outcome unit * world) :=
  if isRunning w then Some (Returns tt, say "이미 크롤링 작업이 실행 중입니다." w)
  else
    let w := set_running true w in
    let w := say ("크롤링 시작: " ++ today e) w in
    match crawlBody e fuel w with
    | None => None
    | Some (Returns _, w) => Some (Returns tt, set_running false w)
    | Some (Throws msg, w) =>
      let w := say ("크롤링 실패: " ++ msg) w in
      let w := sendSlackNotification e ("크롤링 실패" ++ LF ++ "• 에러: " ++ msg) true w in
      Some (Returns tt, set_running false w)
    end.

(** ** Status resolver ([src/cpm-database.js]) *)

(** The tables of the product-status store the resolver reads.  String
    comparison in its queries is taken to be exact. *)
Record car : Type := {
  c_no : Z;
  c_carnum : string;
  c_del_yn : string
}.

Record restoration : Type := {
  r_no : Z;
  r_c_no : Z;
  r_status_cd : option string
}.

Record restoration_task : Type := {
  rt_no : Z;
  rt_r_no : Z;
  rt_status_cd : option string;
  outboundInspectionResult : option string;
  rt_cash_cd : option string;
  rt_wp_no : option Z;
  rt_wg_no : option Z;
  rt_w_no : option Z
}.

Record cpm : Type := {
  car_table : list car;
  restoration_table : list restoration;
  restoration_task_table : list restoration_task;
  basic_work_part : list (Z * option string);    (* wp_no, wp_title *)
  basic_work_group : list (Z * option string);   (* wg_no, wg_title *)
  basic_work : list (Z * option string)          (* w_no, w_title *)
}.

(** [pool.execute] number [k] of a call rejects with [msg] when
    [qfault k = Some msg]. *)
Definition faults : Type := nat -> option string.

Definition maximum (l : list Z) : option Z :=
  match l with
  | [] => None
  | x :: xs => Some (fold_right Z.max x xs)
  end.

(** [SELECT MAX(val) FROM rows GROUP BY key] *)
Definition group_max {A} (key : A -> string) (val : A -> Z) (rows : list A) : list Z :=
  keep_some (fun k => maximum (map val (List.filter (fun r => key r =? k) rows)))
            (nodup string_dec (map key rows)).

Definition group_max_Z {A} (key : A -> Z) (val : A -> Z) (rows : list A) : list Z :=
  keep_some (fun k => maximum (map val (List.filter (fun r => (key r =? k)%Z) rows)))
            (nodup Z.eq_dec (map key rows)).

Definition inZ (x : Z) (l : list Z) : bool := existsb (Z.eqb x) l.

(** The first query: the newest non-deleted car of each plate. *)
Definition selectCars (db : cpm) (carNums : list string) : list car :=
  let live := List.filter (fun c => array_includes carNums (c_carnum c) && (c_del_yn c =? "N"))
                          (car_table db) in
  List.filter (fun c => inZ (c_no c) (group_max c_carnum c_no live)) live.

(** The second query: the newest restoration of each car. *)
Definition selectRestorations (db : cpm) (carNos : list Z) : list restoration :=
  let mine := List.filter (fun r => inZ (r_c_no r) carNos) (restoration_table db) in
  List.filter (fun r => inZ (r_no r) (group_max_Z r_c_no r_no mine)) mine.

(** [rt_cash_cd IS NULL OR rt_cash_cd != 'DELETE'] *)
Definition notDeleted (t : restoration_task) : bool :=
  match rt_cash_cd t with
  | None => true
  | Some c => negb (c =? "DELETE")
  end.

(** The third query: [SELECT DISTINCT rt_r_no] of the tasks flagged FAIL. *)
Definition selectFailed (db : cpm) (rNos : list Z) : list Z :=
  nodup Z.eq_dec
    (map rt_r_no
       (List.filter (fun t => inZ (rt_r_no t) rNos
                              && bool_decide (outboundInspectionResult t = Some "FAIL")
                              && notDeleted t)
                    (restoration_task_table db))).

Record statusEntry : Type := {
  statusCode : option string;
  statusText : string;
  category : string;
  categoryText : string;
  hasFail : bool
}.

(** The entry for a car without restoration. *)
Definition noRecordEntry : statusEntry :=
  {| statusCode := None; statusText := "상품화 정보 없음"; category := "none";
     categoryText := "상품화 정보 없음"; hasFail := false |}.

(** [if (carNum)] on the result of [carNoToCarNum.get(...)] *)
Definition carNumOf (carNoToCarNum : gmap Z string) (cno : Z) : option string :=
  match carNoToCarNum !! cno with
  | Some carNum => if carNum =? "" then None else Some carNum
  | None => None
  end.

Definition entryOf (failedRNos : gset Z) (r : restoration) : statusEntry :=
  let hasFail := bool_decide (r_no r ∈ failedRNos) in
  let category := categorizeStatus (r_status_cd r) in
  {| statusCode := r_status_cd r;
     statusText := getStatusText (r_status_cd r);
     category := category;
     categoryText := if hasFail then "검수 NG"
                     else match table_get CATEGORY_TEXT category with
                          | Some t => t
                          | None => "기타"
                          end;
     hasFail := hasFail |}.

(** The state of a resolver call: the map under construction and the
    console. *)
Definition try_catch {S A} (body : S -> outcome A * S)
    (handler : string -> S -> outcome A * S) (s : S) : outcome A * S :=
  match body s with
  | (Returns a, s') => (Returns a, s')
  | (Throws msg, s') => handler msg s'
  end.

(** [pool.execute(...)] number [k]. *)
Definition execute {R} (qfault : faults) (k : nat) (rows : R) : outcome R :=
  match qfault k with
  | Some msg => Throws msg
  | None => Returns rows
  end.

(** [carNoToCarNum], filled by the loop over [cars]. *)
Definition indexCars (cars : list car) : gmap Z string :=
  fold_left (fun m c => <[c_no c := c_carnum c]> m) cars ∅.

(** [rNos], pushed by the loop over [restorations]. *)
Definition resolvedRNos (carNoToCarNum : gmap Z string) (restorations : list restoration)
  : list Z :=
  keep_some (fun r => match carNumOf carNoToCarNum (r_c_no r) with
                      | Some _ => Some (r_no r)
                      | None => None
                      end) restorations.

(** The loop that sets the entry of every restoration found. *)
Definition fillStatus (carNoToCarNum : gmap Z string) (failedRNos : gset Z)
    (restorations : list restoration) (resultMap : gmap string statusEntry)
  : gmap string statusEntry :=
  fold_left (fun (m : gmap string statusEntry) r =>
               match carNumOf carNoToCarNum (r_c_no r) with
               | Some carNum => <[carNum := entryOf failedRNos r]> m
               | None => m
               end) restorations resultMap.

(** The loop over [cars] for those without an entry yet. *)
Definition fillMissing (cars : list car) (resultMap : gmap string statusEntry)
  : gmap string statusEntry :=
  fold_left (fun (m : gmap string statusEntry) c =>
               match m !! c_carnum c with
               | Some _ => m
               | None => <[c_carnum c := noRecordEntry]> m
               end) cars resultMap.

(** The [try] block of [getRestorationStatusForVehicles]. *)
Definition statusBody (db : cpm) (qfault : faults) (carNums : list string)
    (st : gmap string statusEntry * list string)
  : outcome unit * (gmap string statusEntry * list string) :=
  match execute qfault 0 (selectCars db carNums) with
  | Throws msg => (Throws msg, st)
  | Returns cars =>
    if (List.length cars =? 0)%nat then (Returns tt, st)
    else
      let carNoToCarNum := indexCars cars in
      let carNos := map c_no cars in
      match execute qfault 1 (selectRestorations db carNos) with
      | Throws msg => (Throws msg, st)
      | Returns restorations =>
        let rNos := resolvedRNos carNoToCarNum restorations in
        match (if (0 <? List.length rNos)%nat
               then execute qfault 2 (selectFailed db rNos)
               else Returns []) with
        | Throws msg => (Throws msg, st)
        | Returns failedTasks =>
          let failedRNos : gset Z := list_to_set failedTasks in
          (Returns tt,
           (fillMissing cars (fillStatus carNoToCarNum failedRNos restorations (fst st)),
            snd st))
        end
      end
  end.

(** [getRestorationStatusForVehicles(carNums)]: the map it resolves to, or
    the rejection, and the console lines it wrote. *)
Definition getRestorationStatusForVehicles (db : cpm) (qfault : faults)
    (carNums : list string) : outcome (gmap string statusEntry) * list string :=
  if (List.length carNums =? 0)%nat then (Returns ∅, [])
  else
    match try_catch (statusBody db qfault carNums)
                    (fun msg st => (Returns tt,
                                    (fst st, app (snd st) ["다중 차량 상품화 조회 오류: " ++ msg])))
                    (∅, []) with
    | (Returns _, st) => (Returns (fst st), snd st)
    | (Throws msg, st) => (Throws msg, snd st)
    end.

(** [LEFT JOIN tbl ON key = tbl.no], projected on the title: one row per
    match, a NULL title when nothing matches. *)
Definition left_join (tbl : list (Z * option string)) (key : option Z)
  : list (option string) :=
  match key with
  | None => [None]
  | Some k =>
    match List.filter (fun e => (fst e =? k)%Z) tbl with
    | [] => [None]
    | hits => map snd hits
    end
  end.

(** [rt_status_cd IN ('TASKING', 'ON_QUEUE', 'DOING', 'WAIT')], not deleted. *)
Definition activeTask (t : restoration_task) : bool :=
  match rt_status_cd t with
  | Some c => array_includes ["TASKING"; "ON_QUEUE"; "DOING"; "WAIT"] c
  | None => false
  end && notDeleted t.

Record taskSummary : Type := {
  workPart : option string;
  workGroup : option string;
  workName : option string
}.

(** The task query of [getCurrentTasksForVehicles]: [rt_r_no] with the
    three joined titles. *)
Definition selectActiveTasks (db : cpm) (rNos : list Z) : list (Z * taskSummary) :=
  flat_map (fun t =>
    flat_map (fun wp =>
      flat_map (fun wg =>
        map (fun w => (rt_r_no t, {| workPart := wp; workGroup := wg; workName := w |}))
            (left_join (basic_work db) (rt_w_no t)))
        (left_join (basic_work_group db) (rt_wg_no t)))
      (left_join (basic_work_part db) (rt_wp_no t)))
    (List.filter (fun t => inZ (rt_r_no t) rNos && activeTask t)
                 (restoration_task_table db)).

(** An [IN ()] with no placeholder is rejected by the server. *)
Definition SYNTAX_ERROR : string := "You have an error in your SQL syntax".

(** The [try] block of [getCurrentTasksForVehicles]. *)
Definition tasksBody (db : cpm) (qfault : faults) (carNums : list string)
    (st : gmap string (list taskSummary) * list string)
  : outcome unit * (gmap string (list taskSummary) * list string) :=
  match execute qfault 0 (selectCars db carNums) with
  | Throws msg => (Throws msg, st)
  | Returns cars =>
    if (List.length cars =? 0)%nat then (Returns tt, st)
    else
      let carNoToCarNum := indexCars cars in
      match execute qfault 1 (selectRestorations db (map c_no cars)) with
      | Throws msg => (Throws msg, st)
      | Returns restorations =>
        if (List.length restorations =? 0)%nat then (Returns tt, st)
        else
          let rNoToCarNum : gmap Z string :=
            fold_left (fun m r => match carNumOf carNoToCarNum (r_c_no r) with
                                  | Some carNum => <[r_no r := carNum]> m
                                  | None => m
                                  end) restorations ∅ in
          let rNos := resolvedRNos carNoToCarNum restorations in
          match (if (List.length rNos =? 0)%nat then Throws SYNTAX_ERROR
                 else execute qfault 2 (selectActiveTasks db rNos)) with
          | Throws msg => (Throws msg, st)
          | Returns tasks =>
            (Returns tt,
             (fold_left (fun (m : gmap string (list taskSummary)) t =>
                           match carNumOf rNoToCarNum (fst t) with
                           | Some carNum =>
                             <[carNum := (default [] (m !! carNum) ++ [snd t])%list]> m
                           | None => m
                           end) tasks (fst st),
              snd st))
          end
      end
  end.

(** [getCurrentTasksForVehicles(carNums)] *)
Definition getCurrentTasksForVehicles (db : cpm) (qfault : faults)
    (carNums : list string) : outcome (gmap string (list taskSummary)) * list string :=
  if (List.length carNums =? 0)%nat then (Returns ∅, [])
  else
    match try_catch (tasksBody db qfault carNums)
                    (fun msg st => (Returns tt,
                                    (fst st, app (snd st) ["작업중 작업 조회 오류: " ++ msg])))
                    (∅, []) with
    | (Returns _, st) => (Returns (fst st), snd st)
    | (Throws msg, st) => (Throws msg, snd st)
    end.



(** ** Dashboard aggregation ([src/server.js], handler of [/]) *)

(** The counters kept per location. *)
Record locStat : Type := {
  total : nat;
  working : nat;
  completed : nat;
  outbound_waiting : nat;
  pending : nat;
  done : nat;
  fail : nat
}.

Definition zeroStat : locStat :=
  {| total := 0; working := 0; completed := 0; outbound_waiting := 0;
     pending := 0; done := 0; fail := 0 |}.

(** [if (stat[category] !== undefined) stat[category]++] *)
Definition bump (key : string) (s : locStat) : locStat :=
  if key =? "total" then
    {| total := S (total s); working := working s; completed := completed s;
       outbound_waiting := outbound_waiting s; pending := pending s;
       done := done s; fail := fail s |}
  else if key =? "working" then
    {| total := total s; working := S (working s); completed := completed s;
       outbound_waiting := outbound_waiting s; pending := pending s;
       done := done s; fail := fail s |}
  else if key =? "completed" then
    {| total := total s; working := working s; completed := S (completed s);
       outbound_waiting := outbound_waiting s; pending := pending s;
       done := done s; fail := fail s |}
  else if key =? "outbound_waiting" then
    {| total := total s; working := working s; completed := completed s;
       outbound_waiting := S (outbound_waiting s); pending := pending s;
       done := done s; fail := fail s |}
  else if key =? "pending" then
    {| total := total s; working := working s; completed := completed s;
       outbound_waiting := outbound_waiting s; pending := S (pending s);
       done := done s; fail := fail s |}
  else if key =? "done" then
    {| total := total s; working := working s; completed := completed s;
       outbound_waiting := outbound_waiting s; pending := pending s;
       done := S (done s); fail := fail s |}
  else if key =? "fail" then
    {| total := total s; working := working s; completed := completed s;
       outbound_waiting := outbound_waiting s; pending := pending s;
       done := done s; fail := S (fail s) |}
  else s.

(** [restoration && restoration.statusCode !== null]: the vehicles the
    dashboard keeps. *)
Definition registered (restorationMap : gmap string statusEntry) (v : row) : bool :=
  match restorationMap !! plate_number v with
  | Some restoration => bool_decide (statusCode restoration <> None)
  | None => false
  end.

(** [v.location || '미지정'] *)
Definition locationName (v : row) : string :=
  match row_location v with
  | Some l => if l =? "" then "미지정" else l
  | None => "미지정"
  end.

(** One iteration of the loop that fills [locationStats].  The object is a
    map from location names (equipment names of the provider) to
    counters. *)
Definition countVehicle (restorationMap : gmap string statusEntry)
    (locationStats : gmap string locStat) (vehicle : row) : gmap string locStat :=
  let loc := locationName vehicle in
  let stat := bump "total" (default zeroStat (locationStats !! loc)) in
  let stat :=
    match restorationMap !! plate_number vehicle with
    | Some restoration =>
      if hasFail restoration then bump "fail" stat
      else bump (categorizeStatus (statusCode restoration)) stat
    | None => stat
    end in
  <[loc := stat]> locationStats.

(** [locationStats] after the loop over [parkedVehicles]. *)
Definition locationStats (restorationMap : gmap string statusEntry)
    (parkedVehicles : list row) : gmap string locStat :=
  fold_left (countVehicle restorationMap) parkedVehicles ∅.

(** [parkedVehicles] of the handler: the registered ones among all parked
    vehicles. *)
Definition registeredVehicles (restorationMap : gmap string statusEntry)
    (allParkedVehicles : list row) : list row :=
  List.filter (registered restorationMap) allParkedVehicles.

(** One iteration of the loop over [Object.values(locationStats)];
    [total] is not summed there. *)
Definition addStat (acc loc : locStat) : locStat :=
  {| total := total acc;
     working := working acc + working loc;
     completed := completed acc + completed loc;
     outbound_waiting := outbound_waiting acc + outbound_waiting loc;
     pending := pending acc + pending loc;
     done := done acc + done loc;
     fail := fail acc + fail loc |}.

(** [totalRestorationStats] *)
Definition totalRestorationStats (locationStats : gmap string locStat) : locStat :=
  map_fold (fun _ loc acc => addStat acc loc) zeroStat locationStats.


(** ** Vocabulary of the design document *)

(** The ENTRY events of a plate. *)
Definition entriesOf (db : list row) (p : string) : list row :=
  List.filter (fun r => plate_number r =? p)
              (List.filter (fun r => movement_type r =? ENTRY) db).

(** The derivation of the design document, in its words. *)
Definition lastEntryOf (db : list row) (P : string) (e : row) : Prop :=
  In e db /\ plate_number e = P /\ movement_type e = ENTRY
  /\ forall e', In e' db -> plate_number e' = P -> movement_type e' = ENTRY ->
                String.leb (movement_time e') (movement_time e) = true.




(** The key of the uniqueness constraint. *)
Definition triple (r : row) : string * string * string :=
  (plate_number r, movement_time r, movement_type r).

(** No two stored events share the same triple. *)
Definition uniqueTriples (db : list row) : Prop := NoDup (map triple db).

(** Some [insert.run] of the batch cannot be carried out: the storage
    engine fails on statement [k], or a parameter of the movement cannot be
    bound. *)
Definition unbindable (m : movement) : bool :=
  match bindText (plateNumber m), bindText (movementType m),
        bindText (or_null (location m)), bindText (or_null (cardType m)) with
  | BError, _, _, _ | _, BError, _, _ | _, _, BError, _ | _, _, _, BError => true
  | _, _, _, _ => false
  end.

Fixpoint storeFails (fault : nat -> bool) (k : nat) (items : list movement) : bool :=
  match items with
  | [] => false
  | m :: rest => unbindable m || fault k || storeFails fault (S k) rest
  end.

(** The row an [insert.run] writes for a movement whose parameters bind. *)
Definition rowOf (m : movement) : row :=
  {| plate_number := default "" (bound_opt (bindText (plateNumber m)));
     movement_type := default "" (bound_opt (bindText (movementType m)));
     movement_time := movementTime m;
     row_location := bound_opt (bindText (or_null (location m)));
     card_type := bound_opt (bindText (or_null (cardType m)));
     raw_data := Some (rawData m) |}.

(** The table ignores the movement: a NOT NULL column would be NULL, or a
    stored row has the same triple. *)
Definition absorbed (db : list row) (m : movement) : bool :=
  match bindText (plateNumber m), bindText (movementType m) with
  | BText p, BText ty => existsb (same_triple p ty (movementTime m)) db
  | _, _ => true
  end.

(** A provider for the scenarios below: it sets a session cookie on the
    login page, accepts the credentials, and answers the first [k] search
    requests with the login page (the session has expired) and every later
    one with [items]. *)
Definition expiringProvider (k : nat) (items : list item) : provider :=
  fun history =>
    match history with
    | [] => Throws "no request"
    | rq :: _ =>
      if url rq =? SEARCH_URL then
        if Nat.leb (List.length (List.filter (fun r => url r =? SEARCH_URL) history)) k
        then Returns {| set_cookie := None;
                        data := PScalar (JStr "<html><form action='/login'></form></html>") |}
        else Returns {| set_cookie := None; data := PArray items |}
      else if method rq =? "GET" then
        Returns {| set_cookie := Some ["JSESSIONID=0A1B2C; Path=/; HttpOnly"];
                   data := PScalar (JStr "<html><form action='/login'></form></html>") |}
      else Returns {| set_cookie := None; data := PObject [] |}
    end.

(** The state of a freshly loaded [crawler.js]. *)
Definition freshSession : session :=
  {| cookies := ""; client := false; sent := []; console := [] |}.

Definition sampleItem : item :=
  [ ("acPlate", JStr "12A3456"); ("iInOutStatus", JStr "0");
    ("dtTrnsDate", JStr "2024-01-01 09:00:00.0"); ("acEqpmName", JStr "RF IN LPR") ].

(** The state of a process that has just started. *)
Definition idle : world :=
  {| isRunning := false; crawler := freshSession; table := []; out := []; posted := [] |}.

(** A non-deleted car row of a plate, and the newest of them: the vehicle
    identity the plate resolves to. *)
Definition liveCar (db : cpm) (P : string) (c : car) : Prop :=
  In c (car_table db) /\ c_carnum c = P /\ c_del_yn c = "N".

Definition vehicleIdentity (db : cpm) (P : string) (c : car) : Prop :=
  liveCar db P c /\ forall c', liveCar db P c' -> (c_no c' <= c_no c)%Z.

(** A small product-status store: two registered cars, one of them with a
    restoration that has a task flagged FAIL, and a deleted car. *)
Definition sampleCpm : cpm :=
  {| car_table :=
       [ {| c_no := 1; c_carnum := "12A3456"; c_del_yn := "N" |};
         {| c_no := 2; c_carnum := "34B5678"; c_del_yn := "N" |};
         {| c_no := 3; c_carnum := "99Z9999"; c_del_yn := "Y" |} ];
     restoration_table :=
       [ {| r_no := 10; r_c_no := 2; r_status_cd := Some "WORKING" |} ];
     restoration_task_table :=
       [ {| rt_no := 100; rt_r_no := 10; rt_status_cd := Some "TASKING";
            outboundInspectionResult := Some "FAIL"; rt_cash_cd := None;
            rt_wp_no := Some 7%Z; rt_wg_no := None; rt_w_no := None |} ];
     basic_work_part := [ (7%Z, Some "도장") ];
     basic_work_group := [];
     basic_work := [] |}.

Definition samplePlates : list string :=
  ["12A3456"; "34B5678"; "99Z9999"; "00X0000"].

(** What the dashboard knows of a parked vehicle: whether a task of its
    restoration is flagged FAIL, and its nominal status category. *)
Definition failedInspection (restorationMap : gmap string statusEntry) (v : row) : bool :=
  match restorationMap !! plate_number v with
  | Some restoration => hasFail restoration
  | None => false
  end.

Definition nominalCategory (restorationMap : gmap string statusEntry) (v : row) : string :=
  match restorationMap !! plate_number v with
  | Some restoration => categorizeStatus (statusCode restoration)
  | None => "none"
  end.









(** [sampleCpm] with the status code of the restoration left NULL. *)
Definition nullStatusCpm : cpm :=
  {| car_table := car_table sampleCpm;
     restoration_table := [ {| r_no := 10; r_c_no := 2; r_status_cd := None |} ];
     restoration_task_table := restoration_task_table sampleCpm;
     basic_work_part := basic_work_part sampleCpm;
     basic_work_group := basic_work_group sampleCpm;
     basic_work := basic_work sampleCpm |}.

(** A parked vehicle of plate 34B5678. *)
Definition parkedSample : row :=
  {| plate_number := "34B5678"; movement_type := ENTRY;
     movement_time := "2024-01-01 09:00:00"; row_location := Some "RF IN LPR";
     card_type := None; raw_data := None |}.

(** The movements of the end-to-end scenario of the design document. *)
Definition entryAt9 : movement :=
  {| plateNumber := JStr "12A3456"; movementType := JStr ENTRY;
     movementTime := "2024-01-01 09:00:00"; location := JStr "";
     cardType := JStr ""; rawData := [] |}.

Definition exitAt18 : movement :=
  {| plateNumber := JStr "12A3456"; movementType := JStr EXIT;
     movementTime := "2024-01-01 18:00:00"; location := JStr "";
     cardType := JStr ""; rawData := [] |}.

Definition entryAt20 : movement :=
  {| plateNumber := JStr "12A3456"; movementType := JStr ENTRY;
     movementTime := "2024-01-01 20:00:00"; location := JStr "";
     cardType := JStr ""; rawData := [] |}.

(* ===================================================================== *)
(** * Part I, continued: the rest of the modelled code                    *)
(* ===================================================================== *)

(** ** Event store, the other queries ([src/database.js]) *)

(** [insertMovement(movement)]: one [stmt.run] of the same statement,
    outside any transaction; the result is [info.changes]. *)
Definition insertMovement (fault : bool) (movement : movement) (db : list row)
  : outcome nat * list row :=
  insert_run fault db movement.





(** [POST /api/crawl] ([src/server.js]), for an authenticated request: the
    JSON body it answers with. *)
Record crawlAnswer : Type := {
  success : bool;
  message : string
}.

Definition apiCrawl (e : env) (fuel : nat) (w : world) : option (crawlAnswer * world) :=
  match runCrawlJob e fuel w with
  | None => None
  | Some (Returns _, w') => Some ({| success := true; message := "크롤링 완료" |}, w')
  | Some (Throws msg, w') => Some ({| success := false; message := msg |}, w')
  end.

(** ** Single lookups of the status resolver ([src/cpm-database.js]) *)


(** [getCarByNumber(carNum)]: [WHERE c_carnum = ? AND c_del_yn = 'N' ORDER
    BY c_no DESC LIMIT 1].  The columns of the joined name tables are left
    out; a LEFT JOIN keeps every car row.  The function catches the
    rejection of its query. *)
Definition getCarByNumber (db : cpm) (fault : option string) (carNum : string)
  : option car * list string :=
  match fault with
  | Some msg => (None, ["차량 조회 오류: " ++ msg])
  | None =>
    (head (order_by (fun x y => (c_no x <? c_no y)%Z)
             (List.filter (fun c => (c_carnum c =? carNum) && (c_del_yn c =? "N"))
                          (car_table db))), [])
  end.

(** [getRestorationByCarNo(carNo)]: [WHERE r_c_no = ? ORDER BY r_no DESC
    LIMIT 1]. *)
Definition getRestorationByCarNo (db : cpm) (fault : option string) (carNo : Z)
  : option restoration * list string :=
  match fault with
  | Some msg => (None, ["상품화 정보 조회 오류: " ++ msg])
  | None =>
    (head (order_by (fun x y => (r_no x <? r_no y)%Z)
             (List.filter (fun r => (r_c_no r =? carNo)%Z) (restoration_table db))), [])
  end.

(** [SELECT COUNT( * ) FROM restoration_task WHERE rt_r_no = ? AND
    outboundInspectionResult = 'FAIL' AND (rt_cash_cd IS NULL OR rt_cash_cd
    != 'DELETE')] *)
Definition countFailed (db : cpm) (rNo : Z) : nat :=
  List.length
    (List.filter (fun t => (rt_r_no t =? rNo)%Z
                           && bool_decide (outboundInspectionResult t = Some "FAIL")
                           && notDeleted t)
                 (restoration_task_table db)).

Module ByCarNum.
(** The object [getRestorationStatusByCarNum] returns. *)
Record result : Type := {
  found : bool;
  car : option car;
  restoration : option restoration;
  statusCode : option string;
  statusText : string;
  hasFail : bool
}.
End ByCarNum.

(** [getRestorationStatusByCarNum(carNum)]: its three queries are the
    [pool.execute] calls number 0, 1 and 2; each rejection is caught where
    it happens. *)
Definition getRestorationStatusByCarNum (db : cpm) (qfault : faults) (carNum : string)
  : ByCarNum.result * list string :=
  let '(car, log0) := getCarByNumber db (qfault 0%nat) carNum in
  match car with
  | None =>
    ({| ByCarNum.found := false; ByCarNum.car := None; ByCarNum.restoration := None;
        ByCarNum.statusCode := None; ByCarNum.statusText := "없음";
        ByCarNum.hasFail := false |}, log0)
  | Some c =>
    let '(restoration, log1) := getRestorationByCarNo db (qfault 1%nat) (c_no c) in
    match restoration with
    | None =>
      ({| ByCarNum.found := true; ByCarNum.car := Some c; ByCarNum.restoration := None;
          ByCarNum.statusCode := None; ByCarNum.statusText := "상품화 정보 없음";
          ByCarNum.hasFail := false |}, (log0 ++ log1)%list)
    | Some r =>
      let '(hasFail, log2) :=
        match execute qfault 2 (countFailed db (r_no r)) with
        | Returns count => ((0 <? count)%nat, [])
        | Throws msg => (false, ["NG 조회 오류: " ++ msg])
        end in
      ({| ByCarNum.found := true; ByCarNum.car := Some c;
          ByCarNum.restoration := Some r;
          ByCarNum.statusCode := r_status_cd r;
          ByCarNum.statusText := getStatusText (r_status_cd r);
          ByCarNum.hasFail := hasFail |}, (log0 ++ log1 ++ log2)%list)
    end
  end.

(** [getRestorationNosForVehicles(carNums)]: the two queries of the batch
    lookup, projected on [r_no]; one [try] around both. *)
Definition getRestorationNosForVehicles (db : cpm) (qfault : faults)
    (carNums : list string) : list Z * list string :=
  if (List.length carNums =? 0)%nat then ([], [])
  else
    match execute qfault 0 (selectCars db carNums) with
    | Throws msg => ([], ["restoration r_no 조회 오류: " ++ msg])
    | Returns cars =>
      if (List.length cars =? 0)%nat then ([], [])
      else
        match execute qfault 1 (selectRestorations db (map c_no cars)) with
        | Throws msg => ([], ["restoration r_no 조회 오류: " ++ msg])
        | Returns restorations => (map r_no restorations, [])
        end
    end.

(** ** More of the pages ([src/server.js]) *)

(** [!restoration || restoration.statusCode === null]: the vehicles listed
    as not registered. *)
Definition unregistered (restorationMap : gmap string statusEntry) (v : row) : bool :=
  match restorationMap !! plate_number v with
  | Some restoration => bool_decide (statusCode restoration = None)
  | None => true
  end.

Definition unregisteredVehicles (restorationMap : gmap string statusEntry)
    (allParkedVehicles : list row) : list row :=
  List.filter (unregistered restorationMap) allParkedVehicles.



(** The vehicles three of the pages list, each with the map its handler
    awaits: the dashboard [/] (and [/parked]), [/location/:name] and
    [/status/:category]. *)
Definition dashboardVehicles (db : cpm) (qfault : faults) (table : list row)
  : outcome (list row) :=
  let allParkedVehicles := getParkedVehicles table in
  match fst (getRestorationStatusForVehicles db qfault
               (map plate_number allParkedVehicles)) with
  | Throws msg => Throws msg
  | Returns restorationMap => Returns (registeredVehicles restorationMap allParkedVehicles)
  end.

Definition locationVehicles (db : cpm) (qfault : faults) (table : list row)
    (name : string) : outcome (list row) :=
  let allParkedVehicles := getParkedVehicles table in
  let allVehiclesAtLocation :=
    List.filter (fun v => locationName v =? name) allParkedVehicles in
  match fst (getRestorationStatusForVehicles db qfault
               (map plate_number allVehiclesAtLocation)) with
  | Throws msg => Throws msg
  | Returns restorationMap =>
    Returns (registeredVehicles restorationMap allVehiclesAtLocation)
  end.



(** ** Session store ([src/server.js], class [SQLiteStore]) *)

Module SQLiteStore.

(** A session as the store sees it: the [maxAge] its cookie reports, if
    any, and the data [JSON.stringify] writes and [JSON.parse] reads
    back. *)
Record sess : Type := {
  maxAge : option Z;
  data : string
}.

(** The table [sessions] is a map: [sid] is its primary key, a row holds
    the serialised session and the instant [expired], in milliseconds. *)

(** [sess.cookie?.maxAge || 86400000] *)
Definition lifetime (s : sess) : Z :=
  match maxAge s with
  | Some age => if (age =? 0)%Z then 86400000%Z else age
  | None => 86400000%Z
  end.

(** [get(sid, callback)] at the instant [now]: the argument the callback
    receives, or the error it is called with. *)
Definition get (db : gmap string (sess * Z)) (fault : option string) (sid : string) (now : Z)
  : outcome (option sess) :=
  match fault with
  | Some msg => Throws msg
  | None =>
    Returns match db !! sid with
            | Some (s, expired) => if (now <? expired)%Z then Some s else None
            | None => None
            end
  end.

(** [set(sid, sess, callback)]: [INSERT OR REPLACE]. *)
Definition set (db : gmap string (sess * Z)) (fault : option string) (sid : string) (s : sess)
    (now : Z) : outcome unit * gmap string (sess * Z) :=
  match fault with
  | Some msg => (Throws msg, db)
  | None => (Returns tt, <[sid := (s, (now + lifetime s)%Z)]> db)
  end.

(** [destroy(sid, callback)] *)
Definition destroy (db : gmap string (sess * Z)) (fault : option string) (sid : string)
  : outcome unit * gmap string (sess * Z) :=
  match fault with
  | Some msg => (Throws msg, db)
  | None => (Returns tt, delete sid db)
  end.

(** [clearExpired()]: [DELETE FROM sessions WHERE expired <= now]; it
    catches its own errors and writes them to the console. *)
Definition clearExpired (db : gmap string (sess * Z)) (fault : option string) (now : Z)
  : gmap string (sess * Z) * list string :=
  match fault with
  | Some msg => (db, ["세션 정리 오류: " ++ msg])
  | None => (filter (fun kv : string * (sess * Z) => (now < snd (snd kv))%Z) db, [])
  end.

End SQLiteStore.

(** ** Vocabulary of the properties of the other code *)

(** The sum of a column of counts. *)
Fixpoint sum_of (counts : list nat) : nat :=
  match counts with
  | [] => 0
  | n :: rest => n + sum_of rest
  end.


(** An environment for the scenarios of the ingestion job: the provider
    delivers [sampleItem] at once, nothing fails, and the webhook is
    configured. *)
Definition calmEnv : env :=
  {| server := expiringProvider 0 [sampleItem]; today := "2024-01-01";
     insertFault := fun _ => false; statsFault := false;
     SLACK_WEBHOOK_URL := Some "https://hooks.example/T000"; slackFault := None |}.

(** The world a run leaves, or the world itself when the run does not
    settle. *)
Definition after (e : env) (fuel : nat) (w : world) : world :=
  match runCrawlJob e fuel w with
  | Some (_, w') => w'
  | None => w
  end.

(** Whether a notification reaches the webhook. *)
Definition delivers (e : env) : bool :=
  match SLACK_WEBHOOK_URL e, slackFault e with
  | Some _, None => true
  | _, _ => false
  end.

(** A task of the restoration flagged FAIL and not deleted. *)
Definition failedTaskOf (db : cpm) (r : restoration) (t : restoration_task) : Prop :=
  In t (restoration_task_table db) /\ rt_r_no t = r_no r
  /\ outboundInspectionResult t = Some "FAIL" /\ notDeleted t = true.

(** The newest restoration of a car. *)
Definition newestRestoration (db : cpm) (c : car) (r : restoration) : Prop :=
  In r (restoration_table db) /\ r_c_no r = c_no c
  /\ forall r', In r' (restoration_table db) -> r_c_no r' = c_no c ->
                (r_no r' <= r_no r)%Z.

(** Every query succeeds. *)
Definition noFault : faults := fun _ => None.

(** Query number [k] is rejected with [msg], every other query succeeds. *)
Definition failing (k : nat) (msg : string) : faults :=
  fun i => if (i =? k)%nat then Some msg else None.

(** The store with one of its tables emptied. *)
Definition without_cars (db : cpm) : cpm :=
  {| car_table := []; restoration_table := restoration_table db;
     restoration_task_table := restoration_task_table db;
     basic_work_part := basic_work_part db; basic_work_group := basic_work_group db;
     basic_work := basic_work db |}.

Definition without_restorations (db : cpm) : cpm :=
  {| car_table := car_table db; restoration_table := [];
     restoration_task_table := restoration_task_table db;
     basic_work_part := basic_work_part db; basic_work_group := basic_work_group db;
     basic_work := basic_work db |}.

Definition without_tasks (db : cpm) : cpm :=
  {| car_table := car_table db; restoration_table := restoration_table db;
     restoration_task_table := [];
     basic_work_part := basic_work_part db; basic_work_group := basic_work_group db;
     basic_work := basic_work db |}.

(** What the single lookups find for a plate, as an entry of the batch
    map. *)
Definition entryByPlate (db : cpm) (P : string) : option statusEntry :=
  match fst (getCarByNumber db None P) with
  | None => None
  | Some c =>
    match fst (getRestorationByCarNo db None (c_no c)) with
    | None => Some noRecordEntry
    | Some r =>
      Some (entryOf (if (0 <? countFailed db (r_no r))%nat then {[r_no r]} else ∅) r)
    end
  end.

(* ===================================================================== *)
(** * Part II: properties                                                 *)
(* ===================================================================== *)

(** ** Status taxonomy *)

Lemma categorizeStatus_known (code : string) :
  known_code code = true -> In (categorizeStatus (Some code)) buckets.
Proof.
  unfold known_code. rewrite existsb_exists.
  intros [[k v] [Hin Hk]]. simpl in Hk. apply String.eqb_eq in Hk. subst code.
  simpl in Hin.
  repeat (destruct Hin as [Hin | Hin];
          [ injection Hin as <- _; vm_compute; tauto | ]).
  contradiction.
Qed.

Lemma categorizeStatus_unknown (code : string) :
  code <> "" -> known_code code = false -> categorizeStatus (Some code) = "other".
Proof.
  intros Hne Hk.
  unfold known_code in Hk. cbn [existsb RESTORATION_STATUS fst] in Hk.
  repeat (apply orb_false_iff in Hk; destruct Hk as [?H Hk]).
  unfold categorizeStatus, array_includes. cbn [existsb].
  apply String.eqb_neq in Hne. rewrite Hne.
  repeat match goal with
         | H : (?k =? code) = false |- _ =>
           rewrite (String.eqb_sym code k), H; clear H
         end.
  reflexivity.
Qed.

(** C4 (as amended).  [categorizeStatus] is a function of its argument
    alone: [null] and the empty code give [none]; each of the 23 codes of
    [RESTORATION_STATUS], of either generation, falls into one of the
    buckets pending, working, completed, outbound_waiting, done; every
    other non-empty code gives [other]. *)
Theorem categorizeStatus_classifies (statusCode : option string) :
  match statusCode with
  | None => categorizeStatus statusCode = "none"
  | Some code =>
    if code =? "" then categorizeStatus statusCode = "none"
    else if known_code code
         then In (categorizeStatus statusCode) buckets
              /\ categorizeStatus statusCode <> "other"
         else categorizeStatus statusCode = "other"
  end.
Proof.
  destruct statusCode as [code|]; [|reflexivity].
  destruct (code =? "") eqn:He.
  - apply String.eqb_eq in He. subst. reflexivity.
  - destruct (known_code code) eqn:Hk.
    + split; [apply categorizeStatus_known; exact Hk|].
      unfold known_code in Hk. apply existsb_exists in Hk.
      destruct Hk as [[k v] [Hin Hk]]. cbn [fst] in Hk.
      apply String.eqb_eq in Hk. subst code. cbn [RESTORATION_STATUS In] in Hin.
      repeat (destruct Hin as [Hin | Hin];
              [ injection Hin as <- _; vm_compute; discriminate | ]).
      contradiction.
    + apply categorizeStatus_unknown; [|exact Hk].
      apply String.eqb_neq. exact He.
Qed.

(** C4 (as stated) fails: a status code the table does not list is
    classified [other], not [none]. *)
Lemma categorizeStatus_unknown_is_not_none :
  known_code "SCRAPPED" = false
  /\ categorizeStatus (Some "SCRAPPED") = "other"
  /\ categorizeStatus (Some "SCRAPPED") <> "none".
Proof. repeat split; vm_compute; discriminate. Qed.

(** ** Order on timestamps *)

Lemma ascii_compare_refl (c : ascii) : Ascii.compare c c = Eq.
Proof. unfold Ascii.compare. apply N.compare_refl. Qed.

Lemma string_compare_refl (s : string) : String.compare s s = Eq.
Proof. induction s as [|c s IH]; simpl; [reflexivity|]. rewrite ascii_compare_refl. exact IH. Qed.

Lemma string_compare_lt_trans (a b c : string) :
  String.compare a b = Lt -> String.compare b c = Lt -> String.compare a c = Lt.
Proof.
  revert b c. induction a as [|x a IH]; intros [|y b] [|z c]; simpl; try congruence.
  unfold Ascii.compare.
  destruct (N.compare_spec (N_of_ascii x) (N_of_ascii y)) as [Hxy|Hxy|Hxy];
    destruct (N.compare_spec (N_of_ascii y) (N_of_ascii z)) as [Hyz|Hyz|Hyz];
    try congruence; intros H1 H2.
  - rewrite Hxy, Hyz, N.compare_refl. eauto.
  - rewrite Hxy. apply N.compare_lt_iff in Hyz. rewrite Hyz. reflexivity.
  - rewrite <- Hyz. apply N.compare_lt_iff in Hxy. rewrite Hxy. reflexivity.
  - assert (H : (N_of_ascii x < N_of_ascii z)%N) by lia.
    apply N.compare_lt_iff in H. rewrite H. reflexivity.
Qed.


Lemma leb_refl (a : string) : String.leb a a = true.
Proof. unfold String.leb. rewrite string_compare_refl. reflexivity. Qed.

Lemma leb_trans (a b c : string) :
  String.leb a b = true -> String.leb b c = true -> String.leb a c = true.
Proof.
  unfold String.leb.
  destruct (String.compare a b) eqn:Hab; try discriminate;
    destruct (String.compare b c) eqn:Hbc; try discriminate; intros _ _.
  - apply String.compare_eq_iff in Hab, Hbc. subst. rewrite string_compare_refl. reflexivity.
  - apply String.compare_eq_iff in Hab. subst. rewrite Hbc. reflexivity.
  - apply String.compare_eq_iff in Hbc. subst. rewrite Hab. reflexivity.
  - rewrite (string_compare_lt_trans _ _ _ Hab Hbc). reflexivity.
Qed.

Lemma leb_empty (a : string) : String.leb "" a = true.
Proof. destruct a; reflexivity. Qed.

(** ** [MAX] over a group *)

Lemma str_max_ub_l (a b : string) : String.leb a (str_max a b) = true.
Proof. unfold str_max. destruct (String.leb a b) eqn:H; [exact H | apply leb_refl]. Qed.

Lemma str_max_ub_r (a b : string) : String.leb b (str_max a b) = true.
Proof.
  unfold str_max. destruct (String.leb a b) eqn:H; [apply leb_refl|].
  destruct (String.leb_total a b) as [H'|H']; congruence.
Qed.

Lemma max_time_ub (ts : list string) (t : string) :
  In t ts -> String.leb t (max_time ts) = true.
Proof.
  induction ts as [|a ts IH]; simpl; [tauto|].
  intros [<-|Hin]; [apply str_max_ub_l|].
  eapply leb_trans; [apply IH, Hin | apply str_max_ub_r].
Qed.

Lemma max_time_in (ts : list string) : ts <> [] -> In (max_time ts) ts.
Proof.
  induction ts as [|a ts IH]; [congruence|]. intros _. simpl.
  unfold str_max. destruct (String.leb a (max_time ts)) eqn:H; [|left; reflexivity].
  destruct ts as [|b ts]; [|right; apply IH; congruence].
  left. simpl in *. apply String.leb_antisym; [exact H | apply leb_empty].
Qed.

(** ** [ORDER BY] *)

Section OrderBy.
Context {A : Type} (before : A -> A -> bool) (R : A -> A -> Prop).
Hypothesis before_true : forall x y, before x y = true -> R y x.
Hypothesis before_false : forall x y, before x y = false -> R x y.
Hypothesis R_trans : forall x y z, R x y -> R y z -> R x z.

Lemma insert_sorted_perm (x : A) (l : list A) :
  Permutation (insert_sorted before x l) (x :: l).
Proof using Type.
  induction l as [|y l IH]; simpl; [reflexivity|].
  destruct (before x y); [|reflexivity].
  rewrite IH. apply perm_swap.
Qed.

Lemma order_by_perm (l : list A) : Permutation (order_by before l) l.
Proof using Type.
  induction l as [|x l IH]; simpl; [reflexivity|].
  rewrite insert_sorted_perm. apply perm_skip, IH.
Qed.

Lemma order_by_In (l : list A) (x : A) : In x (order_by before l) <-> In x l.
Proof using Type.
  split; apply Permutation_in; [|symmetry]; apply order_by_perm.
Qed.

Lemma insert_sorted_sorted (x : A) (l : list A) :
  StronglySorted R l -> StronglySorted R (insert_sorted before x l).
Proof using before_true before_false R_trans.
  induction 1 as [|y l Hs IH Hy]; simpl.
  - constructor; constructor.
  - destruct (before x y) eqn:Hb.
    + constructor; [exact IH|].
      rewrite List.Forall_forall. intros z Hz.
      apply (Permutation_in _ (insert_sorted_perm x l)) in Hz.
      destruct Hz as [<-|Hz]; [apply before_true, Hb|].
      rewrite List.Forall_forall in Hy. apply Hy, Hz.
    + constructor; [constructor; assumption|].
      constructor; [apply before_false, Hb|].
      rewrite List.Forall_forall in *. intros z Hz.
      eapply R_trans; [apply before_false, Hb | apply Hy, Hz].
Qed.

Lemma order_by_sorted (l : list A) : StronglySorted R (order_by before l).
Proof using before_true before_false R_trans.
  induction l as [|x l IH]; simpl; [constructor|].
  apply insert_sorted_sorted, IH.
Qed.
End OrderBy.

(** ** The derivation query *)

Lemma entriesOf_In (db : list row) (p : string) (r : row) :
  In r (entriesOf db p) <->
  In r db /\ movement_type r = ENTRY /\ plate_number r = p.
Proof.
  unfold entriesOf. rewrite !filter_In, !String.eqb_eq. tauto.
Qed.

Lemma latest_In (db : list row) (p t : string) :
  In (p, t) (latest db) <->
  (exists r, In r (entriesOf db p)) /\ t = max_time (map movement_time (entriesOf db p)).
Proof.
  unfold latest. rewrite in_map_iff. split.
  - intros [p' [Heq Hin]]. injection Heq as -> <-.
    apply nodup_In, in_map_iff in Hin. destruct Hin as [r [Hp Hr]].
    split; [|reflexivity]. exists r. apply entriesOf_In.
    apply filter_In in Hr. rewrite String.eqb_eq in Hr. tauto.
  - intros [[r Hr] ->]. exists p. split; [reflexivity|].
    apply nodup_In, in_map_iff. exists r.
    apply entriesOf_In in Hr. rewrite filter_In, String.eqb_eq. tauto.
Qed.

Lemma exit_after_false (db : list row) (v : row) :
  exit_after db v = false <->
  forall x, In x db -> plate_number x = plate_number v -> movement_type x = EXIT ->
            String.ltb (movement_time v) (movement_time x) = false.
Proof.
  unfold exit_after. split.
  - intros H x Hin Hp Ht.
    destruct (String.ltb (movement_time v) (movement_time x)) eqn:Hlt; [|reflexivity].
    assert (Hex : existsb (fun v2 => (plate_number v2 =? plate_number v)
                     && (movement_type v2 =? EXIT)
                     && String.ltb (movement_time v) (movement_time v2)) db = true).
    { apply existsb_exists. exists x. split; [exact Hin|].
      rewrite Hp, Ht, !String.eqb_refl, Hlt. reflexivity. }
    congruence.
  - intros H. apply not_true_is_false. intros Hex.
    apply existsb_exists in Hex. destruct Hex as [x [Hin Hx]].
    apply andb_true_iff in Hx. destruct Hx as [Hx Hlt].
    apply andb_true_iff in Hx. destruct Hx as [Hp Ht].
    apply String.eqb_eq in Hp, Ht. rewrite (H x Hin Hp Ht) in Hlt. discriminate.
Qed.

Lemma parkedRows_In (db : list row) (v : row) :
  In v (parkedRows db) <->
  In v db /\ movement_type v = ENTRY
  /\ movement_time v = max_time (map movement_time (entriesOf db (plate_number v)))
  /\ exit_after db v = false.
Proof.
  unfold parkedRows. rewrite in_flat_map. split.
  - intros [v' [Hv' Hin]]. apply in_flat_map in Hin. destruct Hin as [[p t] [Hl Hin]].
    cbn [fst snd] in Hin.
    destruct ((plate_number v' =? p) && (movement_time v' =? t)
              && (movement_type v' =? ENTRY) && negb (exit_after db v')) eqn:Hc;
      [|contradiction].
    destruct Hin as [<-|[]].
    repeat (apply andb_true_iff in Hc; destruct Hc as [Hc ?H]).
    apply String.eqb_eq in Hc, H1, H0. apply negb_true_iff in H. subst p t.
    apply latest_In in Hl. destruct Hl as [_ Hl]. tauto.
  - intros (Hin & Hty & Hmax & Hex). exists v. split; [exact Hin|].
    apply in_flat_map.
    exists (plate_number v, max_time (map movement_time (entriesOf db (plate_number v)))).
    split.
    + apply latest_In. split; [|reflexivity]. exists v. apply entriesOf_In. tauto.
    + cbn [fst snd]. rewrite <- Hmax, Hty, Hex, !String.eqb_refl. left. reflexivity.
Qed.

Lemma max_time_lastEntry (db : list row) (v : row) :
  In v db -> movement_type v = ENTRY ->
  (movement_time v = max_time (map movement_time (entriesOf db (plate_number v)))
   <-> lastEntryOf db (plate_number v) v).
Proof.
  intros Hin Hty. unfold lastEntryOf. split.
  - intros Hmax. repeat split; try assumption.
    intros e' He' Hp Ht. rewrite Hmax. apply max_time_ub, in_map.
    apply entriesOf_In. tauto.
  - intros (_ & _ & _ & Hub).
    set (ts := map movement_time (entriesOf db (plate_number v))).
    assert (Hv : In (movement_time v) ts).
    { apply in_map, entriesOf_In. tauto. }
    assert (Hm : In (max_time ts) ts).
    { apply max_time_in. intros Hnil. rewrite Hnil in Hv. contradiction. }
    apply in_map_iff in Hm. destruct Hm as [e' [Heq He']].
    apply entriesOf_In in He'. destruct He' as (He' & Ht & Hp).
    apply String.leb_antisym; [apply max_time_ub, Hv|].
    rewrite <- Heq. apply Hub; assumption.
Qed.

Lemma getParkedVehicles_In (db : list row) (v : row) :
  In v (getParkedVehicles db) <->
  lastEntryOf db (plate_number v) v
  /\ forall x, In x db -> plate_number x = plate_number v -> movement_type x = EXIT ->
               String.ltb (movement_time v) (movement_time x) = false.
Proof.
  unfold getParkedVehicles. rewrite order_by_In, parkedRows_In, exit_after_false.
  split.
  - intros (Hin & Hty & Hmax & Hex). split; [|exact Hex].
    apply max_time_lastEntry; assumption.
  - intros [Hl Hex]. pose proof Hl as (Hin & _ & Hty & _).
    repeat split; try assumption. apply max_time_lastEntry; assumption.
Qed.


(** The scenario of the design document: after the ENTRY the plate is
    parked, at the unspecified location; after the EXIT it is not; after a
    further ENTRY it is parked again, since the later entry. *)
Example derivation_scenario :
  let no := fun _ : nat => false in
  let db1 := snd (insertMovements no [entryAt9] []) in
  let db2 := snd (insertMovements no [exitAt18] db1) in
  let db3 := snd (insertMovements no [entryAt20] db2) in
  getParkedVehicles db1 = [rowOf entryAt9]
  /\ getParkingCountByLocation db1 = [("미지정", 1%nat)]
  /\ getParkedVehicles db2 = []
  /\ getParkedVehicles db3 = [rowOf entryAt20].
Proof. vm_compute. auto. Qed.

(** ** Batch insert *)

Lemma same_triple_In (p ty t : string) (db : list row) :
  existsb (same_triple p ty t) db = true <-> In (p, t, ty) (map triple db).
Proof.
  rewrite existsb_exists, in_map_iff. unfold same_triple, triple.
  split; intros [r H]; exists r.
  - destruct H as [Hin H]. rewrite !andb_true_iff, !String.eqb_eq in H.
    destruct H as [[-> ->] ->]. tauto.
  - destruct H as [H Hin]. injection H as -> -> ->.
    rewrite !String.eqb_refl. tauto.
Qed.

(** [insert.run] in four cases. *)
Lemma insert_run_eq (fault : bool) (db : list row) (m : movement) :
  insert_run fault db m =
  if unbindable m then (Throws BIND_ERROR, db)
  else if fault then (Throws STORAGE_ERROR, db)
  else if absorbed db m then (Returns 0%nat, db)
  else (Returns 1%nat, (db ++ [rowOf m])%list).
Proof.
  unfold insert_run, unbindable, absorbed, rowOf.
  destruct (bindText (plateNumber m)), (bindText (movementType m)),
    (bindText (or_null (location m))), (bindText (or_null (cardType m)));
    try reflexivity; destruct fault; try reflexivity;
    destruct (existsb _ db); reflexivity.
Qed.

Lemma absorbed_incl (db db2 : list row) (m : movement) :
  incl db db2 -> absorbed db m = true -> absorbed db2 m = true.
Proof.
  unfold absorbed. intros Hincl.
  destruct (bindText (plateNumber m)); try reflexivity.
  destruct (bindText (movementType m)); try reflexivity.
  rewrite !existsb_exists. intros [r [Hin H]]. exists r. split; [apply Hincl, Hin | exact H].
Qed.

Lemma absorbed_rowOf (db : list row) (m : movement) :
  absorbed (db ++ [rowOf m]) m = true.
Proof.
  unfold absorbed.
  destruct (bindText (plateNumber m)) eqn:Hp; try reflexivity.
  destruct (bindText (movementType m)) eqn:Ht; try reflexivity.
  rewrite existsb_app. apply orb_true_iff. right.
  unfold rowOf, same_triple. cbn. rewrite Hp, Ht. cbn.
  rewrite !String.eqb_refl. reflexivity.
Qed.

Lemma fresh_rowOf (db : list row) (m : movement) :
  absorbed db m = false -> ~ In (triple (rowOf m)) (map triple db).
Proof.
  unfold absorbed, rowOf, triple. cbn.
  destruct (bindText (plateNumber m)); try discriminate.
  destruct (bindText (movementType m)); try discriminate. cbn.
  intros H Hin. apply same_triple_In in Hin. congruence.
Qed.

Lemma uniqueTriples_snoc (db : list row) (r : row) :
  uniqueTriples db -> ~ In (triple r) (map triple db) -> uniqueTriples (db ++ [r]).
Proof.
  unfold uniqueTriples. intros Hu Hn. rewrite map_app. cbn.
  apply NoDup_app. repeat split; [exact Hu | | apply NoDup_singleton].
  intros x Hx Hx'. apply list_elem_of_In in Hx. apply list_elem_of_In in Hx'.
  destruct Hx' as [<-|[]]. contradiction.
Qed.

Lemma storeFails_false_cons (fault : nat -> bool) (k : nat) (m : movement)
    (rest : list movement) :
  storeFails fault k (m :: rest) = false <->
  unbindable m = false /\ fault k = false /\ storeFails fault (S k) rest = false.
Proof. cbn [storeFails]. rewrite !orb_false_iff. tauto. Qed.

Ltac nothing_new :=
  exists []; cbn; rewrite app_nil_r;
  split; [reflexivity|]; split; [auto|]; split; [intros ? []|];
  split; [apply NoDup_nil_2|].

(** The loop of the transaction: it throws exactly when some statement
    cannot be carried out; when it returns, the table has grown at its end
    by as many rows as were counted, the uniqueness of triples is kept,
    and every movement of the batch is now ignored by the table. *)
Lemma insertLoop_spec (fault : nat -> bool) (items : list movement) :
  forall (k inserted : nat) (db : list row),
  exists new : list row,
    snd (insertLoop fault k items inserted db) = (db ++ new)%list
    /\ (uniqueTriples db -> uniqueTriples (db ++ new))
    /\ (forall r, In r new ->
                  ~ In (triple r) (map triple db) /\ exists m, In m items /\ r = rowOf m)
    /\ uniqueTriples new
    /\ if storeFails fault k items
       then exists e, fst (insertLoop fault k items inserted db) = Throws e
       else fst (insertLoop fault k items inserted db)
              = Returns (inserted + List.length new)%nat
            /\ Forall (fun m => absorbed (db ++ new) m = true) items.
Proof.
  induction items as [|m rest IH]; intros k inserted db.
  - nothing_new. rewrite Nat.add_0_r. auto.
  - cbn [insertLoop storeFails]. rewrite insert_run_eq.
    destruct (unbindable m) eqn:Hu.
    { nothing_new. eauto. }
    destruct (fault k) eqn:Hf.
    { nothing_new. eauto. }
    cbn [orb]. destruct (absorbed db m) eqn:Ha.
    + destruct (IH (S k) inserted db) as (new & Hdb & Hun & Hfresh & Hnew & Hres).
      exists new. cbn [Nat.ltb Nat.leb]. repeat split; try assumption.
      * apply Hfresh, H.
      * destruct (Hfresh r H) as [_ [m' [Hm' ->]]]. exists m'. split; [right|]; tauto.
      * destruct (storeFails fault (S k) rest); [exact Hres|].
        destruct Hres as [Hres Hall]. split; [exact Hres|].
        constructor; [|exact Hall].
        eapply absorbed_incl; [|exact Ha]. apply incl_appl, incl_refl.
    + destruct (IH (S k) (S inserted) (db ++ [rowOf m])%list)
        as (new & Hdb & Hun & Hfresh & Hnew & Hres).
      exists (rowOf m :: new). cbn [Nat.ltb Nat.leb].
      replace (db ++ rowOf m :: new)%list with ((db ++ [rowOf m]) ++ new)%list
        by (rewrite <- app_assoc; reflexivity).
      split; [exact Hdb|]. split; [|split; [|split]].
      * intros Hdbu. apply Hun, uniqueTriples_snoc; [exact Hdbu|].
        apply fresh_rowOf, Ha.
      * intros r [<-|Hr].
        { split; [apply fresh_rowOf, Ha|]. exists m. split; [left|]; reflexivity. }
        destruct (Hfresh r Hr) as [Hn [m' [Hm' ->]]]. split.
        -- intros Hin. apply Hn. rewrite map_app, in_app_iff. left. exact Hin.
        -- exists m'. split; [right|]; tauto.
      * unfold uniqueTriples in *. cbn [map]. apply NoDup_cons_2; [|exact Hnew].
        intros Hin. apply list_elem_of_In, in_map_iff in Hin.
        destruct Hin as [r [Heq Hr]]. destruct (Hfresh r Hr) as [Hn _].
        apply Hn. rewrite map_app, in_app_iff. right. left. symmetry. exact Heq.
      * destruct (storeFails fault (S k) rest); [exact Hres|].
        destruct Hres as [Hres Hall]. split.
        -- rewrite Hres. f_equal. cbn [List.length]. lia.
        -- constructor; [|exact Hall].
           eapply absorbed_incl; [|apply (absorbed_rowOf db m)].
           apply incl_appl, incl_refl.
Qed.

(** Once every movement of a batch is ignored by the table, the loop
    leaves the table alone and counts nothing. *)
Lemma insertLoop_absorbed (fault : nat -> bool) (items : list movement) :
  forall (k inserted : nat) (db : list row),
    Forall (fun m => absorbed db m = true) items ->
    Forall (fun m => unbindable m = false) items ->
    insertLoop fault k items inserted db =
    (if storeFails fault k items then Throws STORAGE_ERROR else Returns inserted, db).
Proof.
  induction items as [|m rest IH]; intros k inserted db Ha Hu; [reflexivity|].
  inversion Ha as [|? ? Ham Har]; subst. inversion Hu as [|? ? Hum Hur]; subst.
  cbn [insertLoop storeFails]. rewrite insert_run_eq, Hum, Ham.
  destruct (fault k); [reflexivity|]. cbn [orb Nat.ltb Nat.leb].
  apply IH; assumption.
Qed.

Lemma storeFails_unbindable (fault : nat -> bool) (items : list movement) :
  forall k, storeFails fault k items = false ->
            Forall (fun m => unbindable m = false) items.
Proof.
  induction items as [|m rest IH]; intros k H; [constructor|].
  apply storeFails_false_cons in H. destruct H as (Hu & _ & Hr).
  constructor; [exact Hu | eapply IH, Hr].
Qed.

Lemma insertMovements_eq (fault : nat -> bool) (movements : list movement)
    (db : list row) :
  insertMovements fault movements db =
  match insertLoop fault 0 movements 0 db with
  | (Returns n, db') => (Returns n, db')
  | (Throws e, _) => (Throws e, db)
  end.
Proof. reflexivity. Qed.


(** The uniqueness of triples is an invariant of the batch insert,
    whatever its outcome. *)
Lemma insertMovements_uniqueTriples (fault : nat -> bool) (movements : list movement)
    (db : list row) :
  uniqueTriples db -> uniqueTriples (snd (insertMovements fault movements db)).
Proof.
  intros Hu. rewrite insertMovements_eq.
  destruct (insertLoop_spec fault movements 0 0 db) as (new & Hdb & Hun & _).
  destruct (insertLoop fault 0 movements 0 db) as [[n|e] db']; cbn [snd] in *;
    [subst; auto | exact Hu].
Qed.

(** A rollback is not a no-op: the second statement fails after the first
    has written its row, and the table is restored. *)
Example insertMovements_rolls_back :
  let m1 := {| plateNumber := JStr "12A3456"; movementType := JStr ENTRY;
               movementTime := "2024-01-01 09:00:00"; location := JStr "";
               cardType := JStr ""; rawData := [] |} in
  let m2 := {| plateNumber := JStr "34B5678"; movementType := JStr ENTRY;
               movementTime := "2024-01-01 09:05:00"; location := JStr "";
               cardType := JStr ""; rawData := [] |} in
  let fault := fun k => Nat.eqb k 1 in
  insertLoop fault 0 [m1; m2] 0 [] = (Throws STORAGE_ERROR, [rowOf m1])
  /\ insertMovements fault [m1; m2] [] = (Throws STORAGE_ERROR, []).
Proof. split; reflexivity. Qed.

(** C2.  After a batch has been appended, appending the same batch again
    stores nothing: without a storage fault the second call returns 0, and
    under any faults it returns 0 or fails; either way the table, and with
    it the result of [getParkedVehicles], is unchanged.  The first call
    keeps every stored row where it was (nothing is overwritten) and keeps
    the triples of the table pairwise distinct. *)
Theorem insertMovements_idempotent (fault fault2 : nat -> bool)
    (movements : list movement) (db db1 : list row) (n : nat) :
  insertMovements fault movements db = (Returns n, db1) ->
  insertMovements (fun _ => false) movements db1 = (Returns 0%nat, db1)
  /\ (insertMovements fault2 movements db1 = (Returns 0%nat, db1)
      \/ insertMovements fault2 movements db1 = (Throws STORAGE_ERROR, db1))
  /\ getParkedVehicles (snd (insertMovements fault2 movements db1)) = getParkedVehicles db1
  /\ (exists new, db1 = (db ++ new)%list)
  /\ (uniqueTriples db -> uniqueTriples db1).
Proof.
  intros H1. rewrite insertMovements_eq in H1.
  destruct (insertLoop_spec fault movements 0 0 db) as (new & Hdb & Hun & _ & _ & Hres).
  destruct (insertLoop fault 0 movements 0 db) as [[n'|e] db'] eqn:Hloop;
    [|discriminate].
  injection H1 as -> ->. cbn [fst snd] in *. subst db1.
  destruct (storeFails fault 0 movements) eqn:Hsf; [destruct Hres; discriminate|].
  destruct Hres as [_ Hall].
  pose proof (storeFails_unbindable _ _ _ Hsf) as Hub.
  assert (Hsecond : forall f, insertMovements f movements (db ++ new)%list
                    = (if storeFails f 0 movements then Throws STORAGE_ERROR
                       else Returns 0%nat, (db ++ new)%list)).
  { intros f. rewrite insertMovements_eq, (insertLoop_absorbed f movements 0 0 _ Hall Hub).
    destruct (storeFails f 0 movements); reflexivity. }
  assert (Hnone : storeFails (fun _ => false) 0 movements = false).
  { clear -Hub. generalize 0%nat. induction Hub as [|m l Hm Hl IH]; intros k; [reflexivity|].
    cbn. rewrite Hm. apply IH. }
  split; [rewrite Hsecond, Hnone; reflexivity|].
  split; [rewrite Hsecond; destruct (storeFails fault2 0 movements); auto|].
  split; [rewrite Hsecond; reflexivity|].
  split; [exists new; reflexivity | exact Hun].
Qed.

(** C2 on a concrete instance. *)
Lemma insertMovements_idempotent_witness :
  let m1 := {| plateNumber := JStr "12A3456"; movementType := JStr ENTRY;
               movementTime := "2024-01-01 09:00:00"; location := JStr "";
               cardType := JStr ""; rawData := [] |} in
  let m2 := {| plateNumber := JStr "12A3456"; movementType := JStr EXIT;
               movementTime := "2024-01-01 18:00:00"; location := JStr "RF OUT LPR";
               cardType := JStr ""; rawData := [] |} in
  let db1 := [rowOf m1; rowOf m2] in
  insertMovements (fun _ => false) [m1; m2; m1] db1 = (Returns 0%nat, db1)
  /\ (insertMovements (fun k => Nat.eqb k 1) [m1; m2; m1] db1 = (Returns 0%nat, db1)
      \/ insertMovements (fun k => Nat.eqb k 1) [m1; m2; m1] db1 = (Throws STORAGE_ERROR, db1))
  /\ getParkedVehicles (snd (insertMovements (fun k => Nat.eqb k 1) [m1; m2; m1] db1))
     = getParkedVehicles db1
  /\ (exists new, db1 = ([] ++ new)%list)
  /\ (uniqueTriples [] -> uniqueTriples db1).
Proof.
  intros m1 m2 db1.
  apply (insertMovements_idempotent (fun _ => false) (fun k => Nat.eqb k 1)
           [m1; m2; m1] [] db1 2).
  reflexivity.
Defined.

(** ** Records with an unrecognised direction code *)










(** ** Session expiry *)

Lemma sent_parseCookies (r : response) (s : session) : sent (parseCookies r s) = sent s.
Proof.
  unfold parseCookies. destruct (set_cookie r); [|reflexivity].
  destruct (negb (cookies s =? "")); reflexivity.
Qed.

(** [login] sends the login page request and, if that is answered, the
    login form: no search request and at most one form. *)
Lemma login_sent (srv : provider) (s : session) :
  searches (snd (login srv s)) = searches s
  /\ (logins (snd (login srv s)) <= S (logins s))%nat.
Proof.
  unfold login, send, searches, logins. cbn [sent set_client set_cookies].
  destruct (srv _) as [initResponse|msg]; cbn [snd sent log];
    [|cbn; split; [reflexivity | lia]].
  rewrite sent_parseCookies. cbn [sent].
  destruct (srv _) as [loginResponse|msg]; cbn [snd sent log].
  - destruct (hasErrorCode (data loginResponse)); cbn [snd sent log];
      rewrite sent_parseCookies; cbn; split; (reflexivity || lia).
  - cbn. split; (reflexivity || lia).
Qed.

Lemma looksExpired_notStructured (d : payload) :
  looksExpired d = true -> notStructured d = true.
Proof. destruct d as [[| |n|s]| |]; cbn; congruence. Qed.

Lemma fetchMovements_expired_step (fuel : nat) (srv : provider)
    (startDate endDate : string) (s s0 s1 : session) (resp : response) :
  ensureLogin srv s = (true, s0) ->
  send srv (searchRequest startDate endDate s0) s0 = (Returns resp, s1) ->
  looksExpired (data resp) = true ->
  fetchMovements (S fuel) srv startDate endDate s
  = fetchMovements fuel srv startDate endDate (reauthenticate srv s1).
Proof.
  intros Hlogin Hsend Hexp.
  cbn [fetchMovements]. rewrite Hlogin. cbn [negb]. rewrite Hsend.
  rewrite (looksExpired_notStructured _ Hexp), Hexp. reflexivity.
Qed.

Lemma reauthenticate_sent (srv : provider) (startDate endDate : string)
    (s0 s1 : session) (r : outcome response) :
  send srv (searchRequest startDate endDate s0) s0 = (r, s1) ->
  searches (reauthenticate srv s1) = S (searches s0)
  /\ (logins (reauthenticate srv s1) <= S (logins s0))%nat.
Proof.
  intros Hsend. unfold send in Hsend. injection Hsend as _ <-.
  unfold reauthenticate. split.
  - rewrite (proj1 (login_sent srv _)).
    unfold searches. cbn [sent log set_client set_cookies searchRequest url List.filter].
    rewrite String.eqb_refl. reflexivity.
  - etransitivity; [apply (proj2 (login_sent srv _))|].
    unfold logins. cbn [sent log set_client set_cookies searchRequest url method List.filter].
    cbn. lia.
Qed.

(** C3 (as amended).  When the answer to the search request is a page that
    contains the login marker, [fetchMovements] empties [cookies], drops
    [client], logs in once, and then is the same fetch again on the state
    that login left, with the same dates: one more search request has been
    sent, at most one more login form, and nothing counts the retries. *)
Theorem fetchMovements_expiry_retries (fuel : nat) (srv : provider)
    (startDate endDate : string) (s s0 s1 : session) (resp : response) :
  ensureLogin srv s = (true, s0) ->
  send srv (searchRequest startDate endDate s0) s0 = (Returns resp, s1) ->
  looksExpired (data resp) = true ->
  fetchMovements (S fuel) srv startDate endDate s
  = fetchMovements fuel srv startDate endDate (reauthenticate srv s1)
  /\ (exists cleared, reauthenticate srv s1 = snd (login srv cleared)
                      /\ cookies cleared = "" /\ client cleared = false
                      /\ sent cleared = sent s1)
  /\ searches (reauthenticate srv s1) = S (searches s0)
  /\ (logins (reauthenticate srv s1) <= S (logins s0))%nat.
Proof.
  intros Hlogin Hsend Hexp.
  split; [eapply fetchMovements_expired_step; eassumption|].
  split; [|eapply reauthenticate_sent; eassumption].
  eexists. split; [reflexivity|]. cbn. auto.
Qed.

(** C3 on a concrete instance. *)
Lemma fetchMovements_expiry_retries_witness :
  let srv := expiringProvider 1 [sampleItem] in
  let s0 := snd (ensureLogin srv freshSession) in
  let s1 := snd (send srv (searchRequest "2024-01-01" "2024-01-01" s0) s0) in
  fetchMovements 2 srv "2024-01-01" "2024-01-01" freshSession
  = fetchMovements 1 srv "2024-01-01" "2024-01-01" (reauthenticate srv s1)
  /\ searches (reauthenticate srv s1) = 1%nat.
Proof.
  intros srv s0 s1.
  pose proof (fetchMovements_expiry_retries 1 srv "2024-01-01" "2024-01-01"
                freshSession s0 s1 _ eq_refl eq_refl eq_refl) as H.
  split; [exact (proj1 H) | exact (proj1 (proj2 (proj2 H)))].
Defined.

(** C3 (as stated) fails: the provider answers two search requests in a
    row with the login page and the third with data; the call does not
    fail at the second expiry but retries again and returns the data after
    three search requests and three logins. *)
Lemma fetchMovements_retries_after_second_expiry :
  match fetchMovements 3 (expiringProvider 2 [sampleItem])
                       "2024-01-01" "2024-01-01" freshSession with
  | Some (Returns ms, s) =>
    List.length ms = 1%nat /\ searches s = 3%nat /\ logins s = 3%nat
  | _ => False
  end.
Proof. vm_compute. auto. Qed.

(** The retries are not bounded: for every [k] there is a provider whose
    session expires [k] times in a row, and the call then returns the data
    after [k] retries. *)
Lemma ensureLogin_expiringProvider (k : nat) (items : list item) (s : session) :
  exists s0, ensureLogin (expiringProvider k items) s = (true, s0)
             /\ searches s0 = searches s.
Proof.
  unfold ensureLogin. destruct (negb (client s) || (cookies s =? "")).
  - eexists. split; [reflexivity|]. reflexivity.
  - eexists. split; reflexivity.
Qed.

Lemma fetchMovements_after_k_expiries (k : nat) (items : list item)
    (startDate endDate : string) :
  forall (j : nat) (s : session),
    (searches s + j = k)%nat ->
    exists s', fetchMovements (S j) (expiringProvider k items) startDate endDate s
               = Some (Returns (keep_some parseItem items), s')
               /\ searches s' = S k.
Proof.
  induction j as [|j IH]; intros s Hk.
  - destruct (ensureLogin_expiringProvider k items s) as (s0 & Hlogin & Hs0).
    cbn [fetchMovements]. rewrite Hlogin. cbn [negb].
    unfold send, expiringProvider.
    cbn [sent searchRequest url List.filter]. rewrite String.eqb_refl.
    cbn [List.length]. fold (searches s0).
    assert (Hgt : Nat.leb (S (searches s0)) k = false) by (apply Nat.leb_gt; lia).
    rewrite Hgt. cbn [data notStructured parseMovements payloadItems].
    eexists. split; [reflexivity|]. unfold searches. cbn [sent List.filter url].
    rewrite String.eqb_refl. cbn [List.length]. fold (searches s0). lia.
  - destruct (ensureLogin_expiringProvider k items s) as (s0 & Hlogin & Hs0).
    destruct (send (expiringProvider k items) (searchRequest startDate endDate s0) s0)
      as [r s1] eqn:Hsend.
    assert (Hr : exists resp, r = Returns resp /\ looksExpired (data resp) = true).
    { unfold send, expiringProvider in Hsend.
      cbn [sent searchRequest url List.filter] in Hsend.
      rewrite String.eqb_refl in Hsend. cbn [List.length] in Hsend.
      fold (searches s0) in Hsend.
      assert (Hle : Nat.leb (S (searches s0)) k = true) by (apply Nat.leb_le; lia).
      rewrite Hle in Hsend. injection Hsend as <- _. eexists. split; reflexivity. }
    destruct Hr as (resp & -> & Hexp).
    rewrite (fetchMovements_expired_step (S j) _ _ _ _ _ _ _ Hlogin Hsend Hexp).
    apply IH. rewrite (proj1 (reauthenticate_sent _ _ _ _ _ _ Hsend)). lia.
Qed.

(** ** Single-flight ingestion *)

Lemma isRunning_sendSlackNotification (e : env) (message : string) (isError : bool)
    (w : world) :
  isRunning (sendSlackNotification e message isError w) = isRunning w.
Proof.
  unfold sendSlackNotification.
  destruct (SLACK_WEBHOOK_URL e); [destruct (slackFault e)|]; reflexivity.
Qed.

(** The [try] block never touches the flag: it is held from the guard to
    the [finally]. *)
Lemma crawlBody_isRunning (e : env) (fuel : nat) (w w' : world) (r : outcome unit) :
  crawlBody e fuel w = Some (r, w') -> isRunning w' = isRunning w.
Proof.
  unfold crawlBody.
  destruct (fetchMovements fuel (server e) (today e) (today e) (crawler w))
    as [[[movements|msg] s]|]; [| |discriminate].
  - destruct (0 <? List.length movements)%nat.
    + destruct (insertMovements (insertFault e) movements _) as [[n|msg] t].
      * destruct (statsFault e); [intros [= <- <-]; reflexivity|].
        destruct (0 <? n)%nat; intros [= <- <-];
          [rewrite isRunning_sendSlackNotification|]; reflexivity.
      * intros [= <- <-]. reflexivity.
    + destruct (statsFault e); intros [= <- <-]; reflexivity.
  - intros [= <- <-]. reflexivity.
Qed.

Lemma crawlBody_settles (e : env) (fuel : nat) (w : world) :
  crawlBody e fuel w = None <->
  fetchMovements fuel (server e) (today e) (today e) (crawler w) = None.
Proof.
  unfold crawlBody.
  destruct (fetchMovements fuel (server e) (today e) (today e) (crawler w))
    as [[[movements|msg] s]|]; [| |tauto]; split; try discriminate.
  destruct (0 <? List.length movements)%nat.
  - destruct (insertMovements (insertFault e) movements _) as [[n|msg] t];
      [|discriminate].
    destruct (statsFault e); [discriminate|]. destruct (0 <? n)%nat; discriminate.
  - destruct (statsFault e); discriminate.
Qed.


(** Both exits of the [try] block occur.  With a provider that refuses the
    connection the body throws, the failure is posted and the flag is
    released; with one that delivers a record the body returns, the record
    is stored and the flag is released. *)
Example runCrawlJob_failed_run :
  let e := {| server := fun _ => Throws "ECONNREFUSED"; today := "2024-01-01";
              insertFault := fun _ => false; statsFault := false;
              SLACK_WEBHOOK_URL := Some "https://hooks.example/T000";
              slackFault := None |} in
  exists w', runCrawlJob e 1 idle = Some (Returns tt, w')
             /\ isRunning w' = false /\ table w' = []
             /\ posted w' = [("크롤링 실패" ++ LF ++ "• 에러: 로그인 실패", true)].
Proof. eexists. split; [vm_compute; reflexivity|]. cbn. auto. Qed.

Example runCrawlJob_successful_run :
  let e := {| server := expiringProvider 0 [sampleItem]; today := "2024-01-01";
              insertFault := fun _ => false; statsFault := false;
              SLACK_WEBHOOK_URL := None; slackFault := None |} in
  exists w', runCrawlJob e 1 idle = Some (Returns tt, w')
             /\ isRunning w' = false /\ List.length (table w') = 1%nat.
Proof. eexists. split; [vm_compute; reflexivity|]. cbn. auto. Qed.

(** ** Status resolution *)

Lemma keep_some_In {A B} (f : A -> option B) (l : list A) (y : B) :
  In y (keep_some f l) <-> exists x, In x l /\ f x = Some y.
Proof.
  induction l as [|a l IH]; cbn.
  - split; [tauto | intros [x [[] _]]].
  - destruct (f a) eqn:Hfa; cbn; rewrite IH; split.
    + intros [<-|[x [Hx Hf]]]; eauto.
    + intros [x [[<-|Hx] Hf]]; [left; congruence | right; eauto].
    + intros [x [Hx Hf]]; eauto.
    + intros [x [[<-|Hx] Hf]]; [congruence | eauto].
Qed.

Lemma maximum_spec (l : list Z) (z : Z) :
  maximum l = Some z -> In z l /\ forall x, In x l -> (x <= z)%Z.
Proof.
  destruct l as [|a l]; [discriminate|]. cbn [maximum]. intros [= <-].
  induction l as [|b l IH]; cbn [fold_right].
  - split; [left; reflexivity | intros x [<-|[]]; lia].
  - destruct IH as [Hin Hub]. split.
    + destruct (Z.max_spec b (fold_right Z.max a l)) as [[_ ->]|[_ ->]].
      * destruct Hin as [<-|Hin]; [left; reflexivity | right; right; exact Hin].
      * right; left; reflexivity.
    + intros x [<-|[<-|Hx]].
      * specialize (Hub a (or_introl eq_refl)). lia.
      * lia.
      * specialize (Hub x (or_intror Hx)). lia.
Qed.

Lemma inZ_In (x : Z) (l : list Z) : inZ x l = true <-> In x l.
Proof.
  unfold inZ. rewrite existsb_exists. split.
  - intros [y [Hy Heq]]. apply Z.eqb_eq in Heq. congruence.
  - intros H. exists x. split; [exact H | apply Z.eqb_refl].
Qed.

Lemma array_includes_In (xs : list string) (x : string) :
  array_includes xs x = true <-> In x xs.
Proof.
  unfold array_includes. rewrite existsb_exists. split.
  - intros [y [Hy Heq]]. apply String.eqb_eq in Heq. congruence.
  - intros H. exists x. split; [exact H | apply String.eqb_refl].
Qed.

(** The values of [SELECT MAX(val) ... GROUP BY key]: the greatest [val]
    of each group. *)
Lemma group_max_In {A} (key : A -> string) (val : A -> Z) (rows : list A) (z : Z) :
  In z (group_max key val rows) <->
  exists x, In x rows /\ val x = z
            /\ forall y, In y rows -> key y = key x -> (val y <= z)%Z.
Proof.
  unfold group_max. rewrite keep_some_In. split.
  - intros [k [Hk Hmax]]. apply maximum_spec in Hmax. destruct Hmax as [Hin Hub].
    apply in_map_iff in Hin. destruct Hin as [x [Hx Hxin]].
    apply filter_In in Hxin. destruct Hxin as [Hxin Hkx]. apply String.eqb_eq in Hkx.
    exists x. repeat split; try assumption.
    intros y Hy Hky. apply Hub, in_map, filter_In. split; [exact Hy|].
    apply String.eqb_eq. congruence.
  - intros [x [Hx [Hv Hub]]]. exists (key x). split.
    + apply nodup_In, in_map, Hx.
    + destruct (maximum (map val (List.filter (fun r => key r =? key x) rows))) as [z'|] eqn:Hm.
      * apply maximum_spec in Hm. destruct Hm as [Hin Hub'].
        f_equal. apply Z.le_antisymm.
        -- apply in_map_iff in Hin. destruct Hin as [y [<- Hy]].
           apply filter_In in Hy. destruct Hy as [Hy Hk]. apply String.eqb_eq in Hk.
           apply Hub; assumption.
        -- rewrite <- Hv. apply Hub', in_map, filter_In. split; [exact Hx|].
           apply String.eqb_refl.
      * exfalso. assert (Hin : In (val x) (map val (List.filter (fun r => key r =? key x) rows))).
        { apply in_map, filter_In. split; [exact Hx | apply String.eqb_refl]. }
        destruct (map val _); [contradiction | discriminate].
Qed.

(** The first query returns the non-deleted cars of the requested plates
    whose number is the greatest of some plate's group. *)
Lemma selectCars_In (db : cpm) (carNums : list string) (c : car) :
  In c (selectCars db carNums) <->
  liveCar db (c_carnum c) c /\ In (c_carnum c) carNums
  /\ exists x, liveCar db (c_carnum x) x /\ In (c_carnum x) carNums
               /\ c_no x = c_no c
               /\ forall y, liveCar db (c_carnum x) y -> (c_no y <= c_no c)%Z.
Proof.
  unfold selectCars, liveCar. rewrite filter_In, inZ_In, group_max_In, filter_In.
  rewrite andb_true_iff, array_includes_In, String.eqb_eq.
  split.
  - intros [[Hin [Hnum Hdel]] [x [Hx [Hv Hub]]]].
    apply filter_In in Hx. rewrite andb_true_iff, array_includes_In, String.eqb_eq in Hx.
    repeat split; try tauto. exists x. repeat split; try tauto.
    intros y (Hy & Hky & Hdy). apply Hub; [|exact Hky].
    apply filter_In. rewrite andb_true_iff, array_includes_In, String.eqb_eq.
    rewrite Hky. tauto.
  - intros [(Hin & _ & Hdel) [Hnum [x [(Hx & _ & Hdx) [Hxn [Hv Hub]]]]]].
    split; [tauto|]. exists x. split; [|split; [exact Hv|]].
    + apply filter_In. rewrite andb_true_iff, array_includes_In, String.eqb_eq. tauto.
    + intros y Hy Hky. apply filter_In in Hy.
      rewrite andb_true_iff, array_includes_In, String.eqb_eq in Hy.
      apply Hub. tauto.
Qed.

Lemma indexCars_lookup (cars : list car) (k : Z) (v : string) :
  indexCars cars !! k = Some v -> exists c, In c cars /\ c_no c = k /\ c_carnum c = v.
Proof.
  unfold indexCars.
  assert (H : forall (m : gmap Z string),
             fold_left (fun m c => <[c_no c := c_carnum c]> m) cars m !! k = Some v ->
             m !! k = Some v \/ exists c, In c cars /\ c_no c = k /\ c_carnum c = v).
  { induction cars as [|c cars IH]; intros m; cbn [fold_left]; [auto|].
    intros Hl. apply IH in Hl. destruct Hl as [Hl|[c' [Hc' Hkv]]].
    - destruct (decide (c_no c = k)) as [Heq|Hne].
      + rewrite Heq, lookup_insert_eq in Hl. injection Hl as <-.
        right. exists c. cbn. auto.
      + rewrite lookup_insert_ne in Hl by exact Hne. auto.
    - right. exists c'. cbn. tauto. }
  intros Hl. apply H in Hl. destruct Hl as [Hl|Hl]; [|exact Hl].
  rewrite lookup_empty in Hl. discriminate.
Qed.

Lemma carNumOf_Some (idx : gmap Z string) (k : Z) (v : string) :
  carNumOf idx k = Some v -> idx !! k = Some v.
Proof.
  unfold carNumOf. destruct (idx !! k) as [w|]; [|discriminate].
  destruct (w =? ""); [discriminate|]. congruence.
Qed.

Lemma fillStatus_None (idx : gmap Z string) (failed : gset Z)
    (rs : list restoration) (P : string) :
  forall m : gmap string statusEntry,
    m !! P = None ->
    (forall r, In r rs -> carNumOf idx (r_c_no r) <> Some P) ->
    fillStatus idx failed rs m !! P = None.
Proof.
  unfold fillStatus. induction rs as [|r rs IH]; intros m Hm Hrs; [exact Hm|].
  cbn [fold_left]. apply IH; [|intros r' Hr'; apply Hrs; right; exact Hr'].
  destruct (carNumOf idx (r_c_no r)) as [carNum|] eqn:Hc; [|exact Hm].
  rewrite lookup_insert_ne; [exact Hm|].
  intros ->. apply (Hrs r (or_introl eq_refl)). exact Hc.
Qed.

Lemma fillMissing_lookup (cars : list car) (P : string) :
  forall m : gmap string statusEntry,
    fillMissing cars m !! P =
    match m !! P with
    | Some e => Some e
    | None => if existsb (fun c => c_carnum c =? P) cars then Some noRecordEntry else None
    end.
Proof.
  unfold fillMissing. induction cars as [|c cars IH]; intros m; cbn [fold_left existsb].
  - destruct (m !! P); reflexivity.
  - rewrite IH. destruct (m !! c_carnum c) as [e|] eqn:Hc.
    + destruct (m !! P) as [e'|] eqn:HP; [reflexivity|].
      destruct (c_carnum c =? P) eqn:Heq; [|reflexivity].
      apply String.eqb_eq in Heq. congruence.
    + destruct (c_carnum c =? P) eqn:Heq.
      * apply String.eqb_eq in Heq. subst P. rewrite lookup_insert_eq, Hc. reflexivity.
      * apply String.eqb_neq in Heq. rewrite lookup_insert_ne by exact Heq.
        destruct (m !! P); reflexivity.
Qed.

Lemma NoDup_map_inj {A B} (f : A -> B) (l : list A) (x y : A) :
  List.NoDup (map f l) -> In x l -> In y l -> f x = f y -> x = y.
Proof.
  induction l as [|a l IH]; cbn; [tauto|].
  intros Hnd. inversion Hnd as [|? ? Hna Hnd']; subst.
  intros [<-|Hx] [<-|Hy] Heq; try reflexivity.
  - exfalso. apply Hna. rewrite Heq. apply in_map, Hy.
  - exfalso. apply Hna. rewrite <- Heq. apply in_map, Hx.
  - apply IH; assumption.
Qed.

(** The four ways the status lookup ends. *)
Lemma getRestorationStatusForVehicles_cases (db : cpm) (qfault : faults)
    (carNums : list string) :
  let cars := selectCars db carNums in
  let restorations := selectRestorations db (map c_no cars) in
  (carNums = [] /\ getRestorationStatusForVehicles db qfault carNums = (Returns ∅, []))
  \/ (exists msg, getRestorationStatusForVehicles db qfault carNums
                  = (Returns ∅, ["다중 차량 상품화 조회 오류: " ++ msg]))
  \/ (cars = [] /\ getRestorationStatusForVehicles db qfault carNums = (Returns ∅, []))
  \/ (exists failedRNos,
         getRestorationStatusForVehicles db qfault carNums
         = (Returns (fillMissing cars
                       (fillStatus (indexCars cars) failedRNos restorations ∅)), [])).
Proof.
  intros cars restorations.
  unfold getRestorationStatusForVehicles, try_catch, statusBody, execute.
  destruct carNums as [|p carNums]; [left; split; reflexivity|].
  cbn [List.length Nat.eqb]. fold cars.
  destruct (qfault 0%nat); [right; left; eauto|].
  destruct cars as [|c cars'] eqn:Hcars; [right; right; left; split; reflexivity|].
  cbn [List.length Nat.eqb]. fold restorations.
  destruct (qfault 1%nat); [right; left; eauto|].
  destruct (0 <? List.length _)%nat.
  - destruct (qfault 2%nat); [right; left; eauto|].
    right; right; right. eexists. reflexivity.
  - right; right; right. eexists. reflexivity.
Qed.

Lemma existsb_carnum (cars : list car) (P : string) :
  existsb (fun c => c_carnum c =? P) cars = true <-> exists c, In c cars /\ c_carnum c = P.
Proof.
  rewrite existsb_exists. split; intros [c [Hc H]]; exists c;
    (split; [exact Hc|]); apply String.eqb_eq; exact H.
Qed.

(** C7.  In the map returned by [getRestorationStatusForVehicles], a plate
    without any non-deleted car is absent; and when no lookup failed, a
    requested plate whose vehicle identity (its newest non-deleted car, car
    numbers being unique) has no restoration is mapped to the explicit
    no-record entry: status code [null], category [none], no failed
    inspection. *)
Theorem getRestorationStatusForVehicles_absence (db : cpm) (qfault : faults)
    (carNums : list string) (P : string) :
  exists m log,
    getRestorationStatusForVehicles db qfault carNums = (Returns m, log)
    /\ ((forall c, ~ liveCar db P c) -> m !! P = None)
    /\ (forall c,
           log = [] -> In P carNums -> List.NoDup (map c_no (car_table db)) ->
           vehicleIdentity db P c ->
           (forall r, In r (restoration_table db) -> r_c_no r <> c_no c) ->
           m !! P = Some noRecordEntry
           /\ statusCode noRecordEntry = None /\ category noRecordEntry = "none"
           /\ hasFail noRecordEntry = false).
Proof.
  destruct (getRestorationStatusForVehicles_cases db qfault carNums)
    as [[Hnil ->]|[[msg ->]|[[Hcars ->]|[failed ->]]]].
  - exists ∅, []. split; [reflexivity|]. split; [intros _; apply lookup_empty|].
    intros c _ HP. subst carNums. destruct HP.
  - eexists _, _. split; [reflexivity|]. split; [intros _; apply lookup_empty|].
    intros c Hlog. discriminate.
  - exists ∅, []. split; [reflexivity|]. split; [intros _; apply lookup_empty|].
    intros c _ HP Hnd [Hlive Hnewest] _. exfalso.
    assert (Hc : In c (selectCars db carNums)).
    { apply selectCars_In. pose proof Hlive as (_ & Hnum & _). rewrite Hnum.
      split; [exact Hlive|]. split; [exact HP|]. exists c. rewrite Hnum. auto. }
    rewrite Hcars in Hc. destruct Hc.
  - eexists _, _. split; [reflexivity|]. split.
    + intros Hnone. rewrite fillMissing_lookup, fillStatus_None.
      * destruct (existsb _ _) eqn:Hex; [|reflexivity].
        apply existsb_carnum in Hex. destruct Hex as [c [Hc HcP]].
        apply selectCars_In in Hc. destruct Hc as [Hlive _]. rewrite HcP in Hlive.
        destruct (Hnone c Hlive).
      * apply lookup_empty.
      * intros r _ Hr. apply carNumOf_Some, indexCars_lookup in Hr.
        destruct Hr as [c [Hc [_ HcP]]].
        apply selectCars_In in Hc. destruct Hc as [Hlive _]. rewrite HcP in Hlive.
        destruct (Hnone c Hlive).
    + intros c _ HP Hnd [Hlive Hnewest] Hnor.
      split; [|repeat split].
      pose proof Hlive as (Hcin & Hnum & Hdel).
      assert (Hc : In c (selectCars db carNums)).
      { apply selectCars_In. rewrite Hnum.
        split; [exact Hlive|]. split; [exact HP|]. exists c. rewrite Hnum. auto. }
      rewrite fillMissing_lookup, fillStatus_None.
      * assert (Hex : existsb (fun c0 => c_carnum c0 =? P) (selectCars db carNums) = true).
        { apply existsb_carnum. exists c. auto. }
        rewrite Hex. reflexivity.
      * apply lookup_empty.
      * intros r Hr Hcn. apply carNumOf_Some, indexCars_lookup in Hcn.
        destruct Hcn as [c' [Hc' [Hno HcP]]].
        apply selectCars_In in Hc'.
        destruct Hc' as (Hlive' & _ & x & Hxlive & _ & Hxno & Hxub).
        rewrite HcP in Hlive'.
        assert (Hxc : x = c').
        { eapply (NoDup_map_inj c_no); [exact Hnd | apply Hxlive | apply Hlive' | exact Hxno]. }
        subst x. rewrite HcP in Hxub.
        assert (Heq : c_no c' = c_no c).
        { apply Z.le_antisymm; [apply Hnewest, Hlive' | apply Hxub, Hlive]. }
        unfold selectRestorations in Hr. apply filter_In in Hr. destruct Hr as [Hr _].
        apply filter_In in Hr. destruct Hr as [Hr _].
        apply (Hnor r Hr). congruence.
Qed.

(** C7 on a concrete instance. *)
Lemma getRestorationStatusForVehicles_absence_witness :
  exists m,
    fst (getRestorationStatusForVehicles sampleCpm (fun _ => None) samplePlates) = Returns m
    /\ m !! "00X0000" = None
    /\ m !! "12A3456" = Some noRecordEntry.
Proof.
  destruct (getRestorationStatusForVehicles_absence sampleCpm (fun _ => None)
              samplePlates "00X0000") as (m & log & Heq & Habsent & _).
  destruct (getRestorationStatusForVehicles_absence sampleCpm (fun _ => None)
              samplePlates "12A3456") as (m' & log' & Heq' & _ & Hnorec).
  rewrite Heq in Heq'. injection Heq' as <- <-.
  exists m. split; [rewrite Heq; reflexivity|]. split.
  - apply Habsent. intros c (Hin & Hnum & Hdel). cbn in Hin.
    destruct Hin as [<-|[<-|[<-|[]]]]; discriminate.
  - refine (proj1 (Hnorec {| c_no := 1; c_carnum := "12A3456"; c_del_yn := "N" |}
                     _ _ _ _ _)).
    + apply (f_equal snd) in Heq. vm_compute in Heq. symmetry. exact Heq.
    + cbn. auto.
    + cbn. repeat constructor; cbn; intuition discriminate.
    + split; [unfold liveCar; cbn; tauto|].
      intros c' (Hin & Hnum & Hdel). cbn in Hin.
      destruct Hin as [<-|[<-|[<-|[]]]]; cbn in *; try discriminate; lia.
    + intros r Hin. cbn in Hin. destruct Hin as [<-|[]]. cbn. discriminate.
Defined.

(** ** Lookup failures stay inside the resolver *)






(** A failing query is logged: here the first one. *)
Lemma getRestorationStatusForVehicles_first_query_fails (db : cpm) (qfault : faults)
    (carNums : list string) (msg : string) :
  carNums <> [] -> qfault 0%nat = Some msg ->
  getRestorationStatusForVehicles db qfault carNums
  = (Returns ∅, ["다중 차량 상품화 조회 오류: " ++ msg]).
Proof.
  intros Hne Hq. unfold getRestorationStatusForVehicles, try_catch, statusBody, execute.
  destruct carNums; [congruence|]. cbn [List.length Nat.eqb]. rewrite Hq. reflexivity.
Qed.

(** ** Dashboard totals *)
















(** The scenario of the design document: a parked vehicle whose status is
    WORKING and whose restoration has a task flagged FAIL. *)
Example working_vehicle_with_FAIL_task :
  match getRestorationStatusForVehicles sampleCpm (fun _ => None) ["34B5678"] with
  | (Returns m, _) =>
    nominalCategory m parkedSample = "working"
    /\ fail (totalRestorationStats (locationStats m [parkedSample])) = 1%nat
    /\ working (totalRestorationStats (locationStats m [parkedSample])) = 0%nat
  | _ => False
  end.
Proof. vm_compute. auto. Qed.

(** The handler aggregates registered vehicles only: a vehicle whose
    restoration has a NULL status code is taken for unregistered before
    the aggregation and so appears in no bucket, whatever its tasks. *)
Example null_status_is_not_aggregated :
  match getRestorationStatusForVehicles nullStatusCpm (fun _ => None) ["34B5678"] with
  | (Returns m, _) =>
    failedInspection m parkedSample = true
    /\ registeredVehicles m [parkedSample] = []
    /\ fail (totalRestorationStats (locationStats m [parkedSample])) = 1%nat
  | _ => False
  end.
Proof. vm_compute. auto. Qed.

(** ** Event store: the other queries *)

(** A filter keeps the order of pair-wise distinct keys. *)
Lemma NoDup_map_filter {A B} (f : A -> B) (p : A -> bool) (l : list A) :
  List.NoDup (map f l) -> List.NoDup (map f (List.filter p l)).
Proof.
  induction l as [|a l IH]; cbn; [auto|]. intros Hnd.
  inversion Hnd as [|? ? Hna Hnd']; subst.
  destruct (p a); cbn; [|auto]. constructor; [|auto].
  intros Hin. apply Hna. apply in_map_iff in Hin. destruct Hin as [x [Hx Hin]].
  apply filter_In in Hin. rewrite <- Hx. apply in_map. tauto.
Qed.

(** Two parked rows of the same plate are the same row, once triples are
    unique: both are ENTRY rows at the greatest entry time of the plate. *)
Lemma parkedRows_same_plate (db : list row) (v w : row) :
  In v (parkedRows db) -> In w (parkedRows db) ->
  plate_number v = plate_number w -> triple v = triple w.
Proof.
  intros Hv Hw Hp. apply parkedRows_In in Hv, Hw.
  destruct Hv as (_ & Htv & Hmv & _). destruct Hw as (_ & Htw & Hmw & _).
  unfold triple. rewrite Hp, Htv, Htw, Hmv, Hmw, Hp. reflexivity.
Qed.

Lemma NoDup_map_coarser {A B C} (f : A -> B) (g : A -> C) (l : list A) :
  (forall x y, In x l -> In y l -> g x = g y -> f x = f y) ->
  List.NoDup (map f l) -> List.NoDup (map g l).
Proof.
  induction l as [|a l IH]; cbn; intros Hfg Hnd; [constructor|].
  inversion Hnd as [|? ? Hna Hnd']; subst. constructor.
  - intros Hin. apply Hna. apply in_map_iff in Hin. destruct Hin as [x [Hx Hin]].
    apply in_map_iff. exists x. split; [|exact Hin]. apply Hfg; auto.
  - apply IH; [|exact Hnd']. intros x y Hx Hy. apply Hfg; auto.
Qed.

(** The join with [latest] yields a row at most once: [latest] has one
    line per plate. *)
Lemma latest_keys_NoDup (db : list row) : List.NoDup (map fst (latest db)).
Proof.
  unfold latest. rewrite map_map. cbn [fst]. rewrite map_id. apply NoDup_nodup.
Qed.

Lemma join_once (v : row) (c : bool) (ls : list (string * string)) :
  List.NoDup (map fst ls) ->
  flat_map (fun l => if (plate_number v =? fst l) && (movement_time v =? snd l) && c
                     then [v] else []) ls
  = if existsb (fun l => (plate_number v =? fst l) && (movement_time v =? snd l)) ls && c
    then [v] else [].
Proof.
  induction ls as [|l ls IH]; cbn [flat_map existsb map]; intros Hnd; [reflexivity|].
  inversion Hnd as [|? ? Hnl Hnd']; subst. rewrite (IH Hnd').
  destruct (plate_number v =? fst l) eqn:Hp; cbn [andb orb]; [|reflexivity].
  destruct (movement_time v =? snd l) eqn:Ht; cbn [andb orb].
  - destruct c; [|rewrite andb_false_r; reflexivity]. cbn [app].
    assert (Hex : existsb (fun l0 => (plate_number v =? fst l0)
                                     && (movement_time v =? snd l0)) ls = false).
    { apply not_true_is_false. intros Hex. apply existsb_exists in Hex.
      destruct Hex as [l0 [Hl0 Hm]]. apply andb_true_iff in Hm. destruct Hm as [Hm _].
      apply String.eqb_eq in Hp, Hm. apply Hnl. rewrite <- Hp, Hm. apply in_map, Hl0. }
    rewrite Hex. reflexivity.
  - reflexivity.
Qed.

(** The derivation as a filter of the table. *)
Lemma parkedRows_filter (db : list row) :
  parkedRows db
  = List.filter (fun v => existsb (fun l => (plate_number v =? fst l)
                                            && (movement_time v =? snd l)) (latest db)
                          && ((movement_type v =? ENTRY) && negb (exit_after db v))) db.
Proof.
  unfold parkedRows. pose proof (latest_keys_NoDup db) as Hnd.
  set (ls := latest db) in *.
  assert (H : forall rows,
    flat_map (fun v =>
      flat_map (fun l =>
        if (plate_number v =? fst l) && (movement_time v =? snd l)
           && (movement_type v =? ENTRY) && negb (exit_after db v)
        then [v] else []) ls) rows
    = List.filter (fun v => existsb (fun l => (plate_number v =? fst l)
                                              && (movement_time v =? snd l)) ls
                            && ((movement_type v =? ENTRY) && negb (exit_after db v)))
                  rows).
  { induction rows as [|v rows IH]; [reflexivity|]. cbn [flat_map List.filter].
    rewrite IH.
    rewrite (flat_map_ext _ (fun l => if (plate_number v =? fst l)
                                         && (movement_time v =? snd l)
                                         && ((movement_type v =? ENTRY)
                                             && negb (exit_after db v))
                                      then [v] else []))
      by (intros l; rewrite !andb_assoc; reflexivity).
    rewrite (join_once v _ ls Hnd).
    destruct (existsb _ ls && _); reflexivity. }
  apply H.
Qed.

Lemma parkedRows_plates_NoDup (db : list row) :
  uniqueTriples db -> List.NoDup (map plate_number (parkedRows db)).
Proof.
  intros Hu. apply NoDup_ListNoDup in Hu.
  apply (NoDup_map_coarser triple).
  - intros x y Hx Hy. apply (parkedRows_same_plate db); assumption.
  - rewrite parkedRows_filter. apply NoDup_map_filter, Hu.
Qed.

(** X1.  In a table whose triples are pairwise distinct (the UNIQUE
    constraint), [getParkedVehicles] lists every plate at most once, so
    the number of rows is the number of parked plates. *)
Theorem getParkedVehicles_one_row_per_plate (db : list row) :
  uniqueTriples db ->
  List.NoDup (map plate_number (getParkedVehicles db))
  /\ forall v w, In v (getParkedVehicles db) -> In w (getParkedVehicles db) ->
                 plate_number v = plate_number w -> v = w.
Proof.
  intros Hu.
  assert (Hnd : List.NoDup (map plate_number (getParkedVehicles db))).
  { unfold getParkedVehicles.
    eapply Permutation_NoDup; [|apply (parkedRows_plates_NoDup db Hu)].
    apply Permutation_map. symmetry. apply order_by_perm. }
  split; [exact Hnd|].
  intros v w Hv Hw Hp. eapply (NoDup_map_inj plate_number); eassumption.
Qed.

(** X1 on the table of the end-to-end scenario. *)
Lemma getParkedVehicles_one_row_per_plate_witness :
  List.NoDup (map plate_number
                  (getParkedVehicles
                     (snd (insertMovements (fun _ => false)
                                           [entryAt9; exitAt18; entryAt20] [])))).
Proof.
  apply (getParkedVehicles_one_row_per_plate
           (snd (insertMovements (fun _ => false) [entryAt9; exitAt18; entryAt20] []))).
  apply NoDup_ListNoDup. vm_compute. repeat constructor; cbn; intuition discriminate.
Defined.


(** ** Counts per location *)

Lemma indicator_sum {K} `{EqDecision K} (k0 : K) (ks : list K) :
  List.NoDup ks -> In k0 ks ->
  sum_of (map (fun k => if bool_decide (k0 = k) then 1 else 0)%nat ks) = 1%nat.
Proof.
  induction ks as [|k ks IH]; cbn [map sum_of In]; [tauto|].
  intros Hnd Hin. inversion Hnd as [|? ? Hnk Hnd']; subst.
  assert (Hzero : forall l, ~ In k0 l ->
            sum_of (map (fun k => if bool_decide (k0 = k) then 1 else 0)%nat l) = 0%nat).
  { induction l as [|a l IHl]; cbn [map sum_of In]; intros Hn; [reflexivity|].
    rewrite bool_decide_eq_false_2 by (intros ->; apply Hn; left; reflexivity).
    rewrite IHl by tauto. reflexivity. }
  destruct (decide (k0 = k)) as [->|Hne].
  - rewrite bool_decide_eq_true_2 by reflexivity. rewrite Hzero by exact Hnk. reflexivity.
  - rewrite bool_decide_eq_false_2 by exact Hne.
    rewrite IH; [reflexivity | exact Hnd' |]. destruct Hin; [congruence | assumption].
Qed.

(** The sizes of the groups of a [GROUP BY] add up to the number of
    rows. *)
Lemma group_sizes_sum {A K} `{EqDecision K} (key : A -> K) (ks : list K) (rows : list A) :
  List.NoDup ks -> (forall r, In r rows -> In (key r) ks) ->
  sum_of (map (fun k => List.length (List.filter (fun r => bool_decide (key r = k)) rows)) ks)
  = List.length rows.
Proof.
  intros Hnd. induction rows as [|r rows IH]; intros Hin.
  - cbn [List.filter List.length]. clear.
    induction ks as [|k ks IHk]; [reflexivity|]. cbn. exact IHk.
  - rewrite (map_ext _ (fun k => Nat.add (if bool_decide (key r = k) then 1 else 0)
                                         (List.length
                                            (List.filter (fun r0 => bool_decide (key r0 = k))
                                                         rows)))).
    2:{ intros k. cbn [List.filter]. destruct (bool_decide (key r = k)); reflexivity. }
    assert (Hsplit : forall (f g : K -> nat) l,
               sum_of (map (fun k => Nat.add (f k) (g k)) l)
               = Nat.add (sum_of (map f l)) (sum_of (map g l))).
    { intros f g l. induction l as [|a l IHl]; cbn; [reflexivity|]. rewrite IHl. lia. }
    rewrite Hsplit, IH by (intros r' Hr'; apply Hin; right; exact Hr').
    rewrite (indicator_sum (key r) ks Hnd (Hin r (or_introl eq_refl))). reflexivity.
Qed.

Lemma sum_of_perm (l l' : list nat) : Permutation l l' -> sum_of l = sum_of l'.
Proof. induction 1; cbn; lia. Qed.

Lemma sum_of_map_perm {A} (f : A -> nat) (l l' : list A) :
  Permutation l l' -> sum_of (map f l) = sum_of (map f l').
Proof. intros H. apply sum_of_perm, Permutation_map, H. Qed.

(** X3.  The counts of [getParkingCountByLocation] add up to the number
    of parked vehicles, which is also the parked count of [getStats]; the
    lines come with the largest count first, and no line has count 0. *)
Theorem getParkingCountByLocation_total (today : string) (db : list row) :
  sum_of (map snd (getParkingCountByLocation db)) = List.length (getParkedVehicles db)
  /\ sum_of (map snd (getParkingCountByLocation db)) = currentlyParked (getStats today db)
  /\ StronglySorted (fun a b => snd b <= snd a)%nat (getParkingCountByLocation db)
  /\ Forall (fun line => 0 < snd line)%nat (getParkingCountByLocation db).
Proof.
  assert (Hlen : List.length (getParkedVehicles db) = List.length (parkedRows db)).
  { unfold getParkedVehicles. apply Permutation_length, order_by_perm. }
  assert (Hsum : sum_of (map snd (getParkingCountByLocation db))
                 = List.length (parkedRows db)).
  { unfold getParkingCountByLocation.
    rewrite (sum_of_map_perm snd _ _ (order_by_perm _ _)).
    rewrite map_map. cbn [snd].
    apply (group_sizes_sum row_location).
    - apply NoDup_nodup.
    - intros r Hr. apply nodup_In, in_map, Hr. }
  split; [rewrite Hsum, Hlen; reflexivity|].
  split; [rewrite Hsum; reflexivity|].
  split.
  - unfold getParkingCountByLocation.
    apply order_by_sorted.
    + intros x y H. apply Nat.ltb_lt in H. lia.
    + intros x y H. apply Nat.ltb_ge in H. exact H.
    + intros x y z Hxy Hyz. lia.
  - apply List.Forall_forall. intros line Hline.
    unfold getParkingCountByLocation in Hline.
    apply order_by_In, in_map_iff in Hline. destruct Hline as [g [<- Hg]]. cbn [snd].
    apply nodup_In, in_map_iff in Hg. destruct Hg as [r [Hr Hin]].
    assert (Hf : In r (List.filter (fun r0 => bool_decide (row_location r0 = g))
                                   (parkedRows db))).
    { apply filter_In. split; [exact Hin|]. apply bool_decide_eq_true_2, Hr. }
    destruct (List.filter _ (parkedRows db)); [destruct Hf | cbn; lia].
Qed.

(** ** History of a plate and search by date *)











(** Storing one movement on its own is the batch of that movement: outside
    a transaction a failed statement has written nothing either. *)
Lemma insertMovement_batch_of_one (fault : bool) (m : movement) (db : list row) :
  insertMovement fault m db = insertMovements (fun _ => fault) [m] db.
Proof.
  unfold insertMovement. rewrite insertMovements_eq. cbn [insertLoop].
  rewrite insert_run_eq.
  destruct (unbindable m); [reflexivity|]. destruct fault; [reflexivity|].
  destruct (absorbed db m); reflexivity.
Qed.

(** ** What the parser hands to the store *)



(** X8.  Parsing a movement type again changes nothing: a stored type,
    read back as a direction code, is classified as itself. *)
Theorem parseMovementType_idempotent (status : jsval) :
  parseMovementType (parseMovementType status) = parseMovementType status.
Proof.
  unfold parseMovementType at 2 3. cbn zeta.
  destruct (ToString status =? "0") eqn:H0; [reflexivity|].
  destruct (ToString status =? "1") eqn:H1; [reflexivity|].
  destruct (includes (ToString status) "입" || includes (toLowerCase (ToString status)) "in")
    eqn:Hin; [reflexivity|].
  destruct (includes (ToString status) "출" || includes (toLowerCase (ToString status)) "out")
    eqn:Hout; [reflexivity|].
  unfold js_or. destruct (truthy status) eqn:Ht; [|reflexivity].
  unfold parseMovementType. cbn zeta. rewrite H0, H1, Hin, Hout.
  unfold js_or. rewrite Ht. reflexivity.
Qed.







(** ** The fetch as a whole *)



Lemma client_parseCookies (r : response) (s : session) :
  client (parseCookies r s) = client s.
Proof.
  unfold parseCookies. destruct (set_cookie r); [|reflexivity].
  destruct (negb (cookies s =? "")); reflexivity.
Qed.

(** [login] leaves a client, whatever its result. *)
Lemma login_client (srv : provider) (s : session) : client (snd (login srv s)) = true.
Proof.
  unfold login, send. cbn [sent set_client set_cookies cookies client console].
  destruct (srv _) as [initResponse|msg]; cbn [snd client log]; [|reflexivity].
  destruct (srv _) as [loginResponse|msg]; cbn [snd client log].
  - destruct (hasErrorCode (data loginResponse)); cbn [snd client log];
      rewrite !client_parseCookies; reflexivity.
  - rewrite client_parseCookies. reflexivity.
Qed.

Lemma ensureLogin_client (srv : provider) (s s0 : session) (ok : bool) :
  ensureLogin srv s = (ok, s0) -> client s0 = true /\ searches s0 = searches s.
Proof.
  unfold ensureLogin. destruct (negb (client s) || (cookies s =? "")) eqn:Hc.
  - intros H. assert (Hs : s0 = snd (login srv s)) by (rewrite H; reflexivity).
    subst s0. split; [apply login_client | apply login_sent].
  - intros [= <- <-]. apply orb_false_iff in Hc. destruct Hc as [Hc _].
    apply negb_false_iff in Hc. auto.
Qed.

(** X11.  When [fetchMovements] returns, what it returns is read off the
    provider's answer to the last request it sent, a search request
    carrying the current cookies: the parsed records of a structured
    answer, or nothing for an unstructured answer without login marker.  An
    answer that looked expired is never parsed, and the state left has a
    client and at least one more search request. *)
Theorem fetchMovements_returns_last_answer (srv : provider)
    (startDate endDate : string) (fuel : nat) (s s' : session)
    (movements : list movement) :
  fetchMovements fuel srv startDate endDate s = Some (Returns movements, s') ->
  client s' = true
  /\ (searches s < searches s')%nat
  /\ (exists rq, head (sent s') = Some rq /\ url rq = SEARCH_URL
                 /\ cookieHeader rq = cookies s')
  /\ exists resp, srv (sent s') = Returns resp
                  /\ looksExpired (data resp) = false
                  /\ if notStructured (data resp) then movements = []
                     else parseMovements (data resp) = Returns movements.
Proof.
  revert s. induction fuel as [|fuel IH]; intros s Hr; [discriminate|].
  cbn [fetchMovements] in Hr.
  destruct (ensureLogin srv s) as [loggedIn s0] eqn:Hlogin.
  destruct loggedIn; cbn [negb] in Hr; [|discriminate].
  destruct (ensureLogin_client _ _ _ _ Hlogin) as [Hclient Hsearches].
  destruct (send srv (searchRequest startDate endDate s0) s0) as [[resp|msg] s1] eqn:Hsend;
    [|discriminate].
  assert (Hs1 : s1 = {| cookies := cookies s0; client := client s0;
                        sent := searchRequest startDate endDate s0 :: sent s0;
                        console := console s0 |}
                /\ srv (sent s1) = Returns resp).
  { unfold send in Hsend. injection Hsend as Hresp <-. auto. }
  destruct Hs1 as [Hs1 Hresp].
  assert (Hcount : searches s1 = S (searches s)).
  { rewrite <- Hsearches, Hs1. unfold searches. cbn [sent List.filter searchRequest url].
    rewrite String.eqb_refl. reflexivity. }
  assert (Hdone : forall ms, s' = s1 ->
            (if notStructured (data resp) then ms = []
             else parseMovements (data resp) = Returns ms) ->
            looksExpired (data resp) = false ->
            client s' = true /\ (searches s < searches s')%nat
            /\ (exists rq, head (sent s') = Some rq /\ url rq = SEARCH_URL
                           /\ cookieHeader rq = cookies s')
            /\ exists resp0, srv (sent s') = Returns resp0
                             /\ looksExpired (data resp0) = false
                             /\ if notStructured (data resp0) then ms = []
                                else parseMovements (data resp0) = Returns ms).
  { intros ms -> Hms Hexp. split; [rewrite Hs1; exact Hclient|].
    split; [rewrite Hcount; lia|]. split.
    - rewrite Hs1. eexists. cbn. split; [reflexivity|]. auto.
    - exists resp. auto. }
  destruct (notStructured (data resp)) eqn:Hns.
  - destruct (looksExpired (data resp)) eqn:Hexp.
    + destruct (IH _ Hr) as (Hc & Hlt & Hrq & Hans).
      split; [exact Hc|]. split; [|split; [exact Hrq | exact Hans]].
      pose proof (reauthenticate_sent srv startDate endDate s0 s1 _ Hsend) as [Hre _].
      rewrite Hre in Hlt. lia.
    + injection Hr as Hm Hs. subst movements s'. apply (Hdone [] eq_refl eq_refl eq_refl).
  - destruct (parseMovements (data resp)) as [ms|msg] eqn:Hparse; [|discriminate].
    injection Hr as Hm Hs. subst ms s'. apply (Hdone movements eq_refl eq_refl).
    destruct (looksExpired (data resp)) eqn:Hexp; [|reflexivity].
    apply looksExpired_notStructured in Hexp. congruence.
Qed.

(** X11 on the provider that expires once. *)
Lemma fetchMovements_returns_last_answer_witness :
  exists s',
    fetchMovements 2 (expiringProvider 1 [sampleItem]) "2024-01-01" "2024-01-01" freshSession
    = Some (Returns (keep_some parseItem [sampleItem]), s')
    /\ client s' = true /\ (searches freshSession < searches s')%nat.
Proof.
  eexists. split; [vm_compute; reflexivity|].
  pose proof (fetchMovements_returns_last_answer
                (expiringProvider 1 [sampleItem]) "2024-01-01" "2024-01-01" 2
                freshSession _ _ eq_refl) as H.
  split; [exact (proj1 H) | exact (proj1 (proj2 H))].
Defined.

(** ** The ingestion job as a whole *)

(** The two exits of the batch insert. *)
Lemma insertMovements_cases (fault : nat -> bool) (movements : list movement)
    (db : list row) :
  (exists e, insertMovements fault movements db = (Throws e, db))
  \/ (exists new,
         insertMovements fault movements db
         = (Returns (List.length new), (db ++ new)%list)
         /\ (uniqueTriples db -> uniqueTriples (db ++ new))
         /\ storeFails fault 0 movements = false).
Proof.
  rewrite insertMovements_eq.
  destruct (insertLoop_spec fault movements 0 0 db) as (new & Hdb & Hun & _ & _ & Hres).
  destruct (insertLoop fault 0 movements 0 db) as [[n|e] db'] eqn:Hloop;
    cbn [fst snd] in *.
  - right. exists new. destruct (storeFails fault 0 movements).
    + destruct Hres as [e He]. discriminate.
    + destruct Hres as [Hn _]. injection Hn as ->. subst db'. auto.
  - left. exists e. reflexivity.
Qed.

Lemma sendSlackNotification_effects (e : env) (message : string) (isError : bool)
    (w : world) :
  let w' := sendSlackNotification e message isError w in
  table w' = table w /\ crawler w' = crawler w
  /\ posted w' = (posted w ++ match SLACK_WEBHOOK_URL e, slackFault e with
                              | Some _, None => [(message, isError)]
                              | _, _ => []
                              end)%list.
Proof.
  unfold sendSlackNotification.
  destruct (SLACK_WEBHOOK_URL e); [destruct (slackFault e)|]; cbn;
    rewrite ?app_nil_r; auto.
Qed.

(** What the [try] block does to the table and to the webhook. *)
Ltac quiet := repeat split; auto; try discriminate; try (intros; congruence).

Lemma crawlBody_effects (e : env) (fuel : nat) (w w' : world) (r : outcome unit) :
  crawlBody e fuel w = Some (r, w') ->
  exists added notes,
    table w' = (table w ++ added)%list
    /\ (uniqueTriples (table w) -> uniqueTriples (table w'))
    /\ posted w' = (posted w ++ notes)%list
    /\ (notes = [] \/ exists msg, notes = [(msg, false)] /\ added <> [] /\ r = Returns tt)
    /\ (delivers e = false -> notes = [])
    /\ (r = Returns tt -> added <> [] -> delivers e = true -> notes <> []).
Proof.
  unfold crawlBody.
  destruct (fetchMovements fuel (server e) (today e) (today e) (crawler w))
    as [[[movements|msg] s]|]; [| |discriminate].
  - destruct (0 <? List.length movements)%nat.
    + cbn [table set_crawler say].
      destruct (insertMovements_cases (insertFault e) movements (table w))
        as [[err Hins]|(new & Hins & Hun & _)]; rewrite Hins.
      * intros [= <- <-]. exists [], []. cbn. rewrite !app_nil_r. quiet.
      * destruct (statsFault e).
        -- intros [= <- <-]. exists new, []. cbn. rewrite !app_nil_r. quiet.
        -- destruct new as [|x new]; cbn [List.length Nat.ltb Nat.leb].
           ++ intros [= <- <-]. exists [], []. cbn. rewrite !app_nil_r. quiet.
           ++ intros [= <- <-].
              match goal with
              | |- context [sendSlackNotification e ?m false ?w0] =>
                destruct (sendSlackNotification_effects e m false w0) as (Ht & _ & Hp);
                  exists (x :: new),
                    (if delivers e then [(m, false)] else [])
              end.
              rewrite Ht, Hp. cbn [table posted set_table say set_crawler].
              unfold delivers.
              destruct (SLACK_WEBHOOK_URL e); [destruct (slackFault e)|];
                repeat split; auto; try discriminate;
                right; eexists; repeat split; eauto; discriminate.
    + destruct (statsFault e); intros [= <- <-]; exists [], []; cbn;
        rewrite !app_nil_r; quiet.
  - intros [= <- <-]. exists [], []. cbn. rewrite !app_nil_r. quiet.
Qed.

Lemma runCrawlJob_effects (e : env) (fuel : nat) (w w' : world) (r : outcome unit) :
  runCrawlJob e fuel w = Some (r, w') ->
  exists added notes,
    table w' = (table w ++ added)%list
    /\ (uniqueTriples (table w) -> uniqueTriples (table w'))
    /\ posted w' = (posted w ++ notes)%list
    /\ (List.length notes <= 1)%nat
    /\ (forall msg, In (msg, false) notes -> added <> [])
    /\ (delivers e = false -> notes = [])
    /\ (added <> [] -> delivers e = true -> notes <> []).
Proof.
  unfold runCrawlJob. destruct (isRunning w).
  - intros [= <- <-]. exists [], []. cbn. rewrite !app_nil_r. quiet.
  - destruct (crawlBody e fuel _) as [[[[]|msg] w1]|] eqn:Hbody; [| |discriminate].
    + intros [= <- <-]. apply crawlBody_effects in Hbody.
      destruct Hbody as (added & notes & Ht & Hu & Hp & Hn & Hd & Hr).
      cbn [table posted set_running say] in *.
      exists added, notes. repeat split; auto.
      * destruct Hn as [->|(m & -> & _)]; cbn; lia.
      * intros m Hin. destruct Hn as [->|(m' & -> & Ha & _)]; [destruct Hin | exact Ha].
    + intros [= <- <-]. apply crawlBody_effects in Hbody.
      destruct Hbody as (added & notes & Ht & Hu & Hp & Hn & Hd & Hr).
      cbn [table posted set_running say] in *.
      destruct Hn as [->|(m' & _ & _ & Hr')]; [|discriminate].
      rewrite app_nil_r in Hp.
      match goal with
      | |- context [sendSlackNotification e ?m true ?w0] =>
        destruct (sendSlackNotification_effects e m true w0) as (Ht' & _ & Hp');
          exists added, (if delivers e then [(m, true)] else [])
      end.
      rewrite Ht', Hp'. cbn [table posted say]. rewrite Hp. unfold delivers.
      destruct (SLACK_WEBHOOK_URL e); [destruct (slackFault e)|];
        repeat split; auto; cbn; try lia; try discriminate;
        try (intros m [H|[]]; discriminate); try (intros m []).
Qed.

(** X12.  A run of the ingestion job only appends to the table and to the
    webhook: it posts at most one notification, a success notification
    only when it has stored new rows, and none at all when the webhook is
    not configured or the POST fails. *)
Theorem runCrawlJob_reports_once (e : env) (fuel : nat) (w w' : world) (r : outcome unit) :
  runCrawlJob e fuel w = Some (r, w') ->
  exists added notes,
    table w' = (table w ++ added)%list
    /\ posted w' = (posted w ++ notes)%list
    /\ (List.length notes <= 1)%nat
    /\ (forall msg, In (msg, false) notes -> added <> [])
    /\ (delivers e = false -> notes = []).
Proof.
  intros H. destruct (runCrawlJob_effects _ _ _ _ _ H)
    as (added & notes & Ht & _ & Hp & Hl & Hs & Hd & _).
  exists added, notes. auto.
Qed.

Lemma runCrawlJob_reports_once_witness :
  exists w' added notes,
    runCrawlJob calmEnv 1 idle = Some (Returns tt, w')
    /\ table w' = (table idle ++ added)%list
    /\ posted w' = (posted idle ++ notes)%list
    /\ (List.length notes <= 1)%nat.
Proof.
  eexists.
  destruct (runCrawlJob_reports_once calmEnv 1 idle _ (Returns tt) eq_refl)
    as (added & notes & Ht & Hp & Hl & _).
  exists added, notes. split; [reflexivity|]. auto.
Defined.

(** X13.  The ingestion job keeps the uniqueness constraint of the table:
    whatever the provider delivers and whatever fails, after a run no two
    stored events share plate, timestamp and type. *)
Theorem runCrawlJob_keeps_uniqueTriples (e : env) (fuel : nat) (w : world) :
  uniqueTriples (table w) -> uniqueTriples (table (after e fuel w)).
Proof.
  intros Hu. unfold after.
  destruct (runCrawlJob e fuel w) as [[r w']|] eqn:H; [|exact Hu].
  destruct (runCrawlJob_effects _ _ _ _ _ H) as (added & notes & _ & Hun & _).
  auto.
Qed.

Lemma runCrawlJob_keeps_uniqueTriples_witness :
  uniqueTriples (table idle)
  /\ uniqueTriples (table (after calmEnv 1 (after calmEnv 1 idle))).
Proof.
  assert (H0 : uniqueTriples (table idle)) by (cbn; apply NoDup_nil_2).
  split; [exact H0|].
  apply runCrawlJob_keeps_uniqueTriples.
  apply NoDup_ListNoDup. vm_compute. repeat constructor; cbn; intuition discriminate.
Defined.





(** X16.  The manual trigger cannot tell a failed run from a successful
    one: whenever [POST /api/crawl] answers, it answers success, also when
    the run was skipped because another one holds the flag, or when it
    failed and posted a failure notification.  It answers as soon as the
    fetch settles. *)
Theorem apiCrawl_always_success (e : env) (fuel : nat) (w : world) :
  match apiCrawl e fuel w with
  | Some (answer, _) => answer = {| success := true; message := "크롤링 완료" |}
  | None => isRunning w = false
            /\ fetchMovements fuel (server e) (today e) (today e) (crawler w) = None
  end.
Proof.
  unfold apiCrawl, runCrawlJob. destruct (isRunning w); [reflexivity|].
  destruct (crawlBody e fuel _) as [[[[]|msg] w1]|] eqn:Hbody; try reflexivity.
  apply crawlBody_settles in Hbody. auto.
Qed.

(** ** The resolved map, entry by entry *)

Lemma filter_none {A} (f : A -> bool) (l : list A) :
  (forall x, f x = false) -> List.filter f l = [].
Proof. intros H. induction l as [|a l IH]; cbn; [|rewrite H]; auto. Qed.

Lemma selectCars_nil (db : cpm) : selectCars db [] = [].
Proof. unfold selectCars. rewrite (filter_none _ (car_table db)); reflexivity. Qed.

Lemma selectRestorations_nil (db : cpm) : selectRestorations db [] = [].
Proof.
  unfold selectRestorations. rewrite (filter_none _ (restoration_table db)); reflexivity.
Qed.

Lemma selectFailed_nil (db : cpm) : selectFailed db [] = [].
Proof.
  unfold selectFailed. rewrite (filter_none _ (restoration_task_table db)); reflexivity.
Qed.

(** The map of the path on which no query is rejected. *)
Lemma getRestorationStatusForVehicles_map (db : cpm) (qfault : faults)
    (carNums : list string) :
  let cars := selectCars db carNums in
  let restorations := selectRestorations db (map c_no cars) in
  let rNos := resolvedRNos (indexCars cars) restorations in
  let resolved :=
    fillMissing cars
      (fillStatus (indexCars cars) (list_to_set (selectFailed db rNos)) restorations ∅) in
  exists m log,
    getRestorationStatusForVehicles db qfault carNums = (Returns m, log)
    /\ (m = ∅ \/ m = resolved)
    /\ (qfault 0%nat = None -> qfault 1%nat = None -> qfault 2%nat = None ->
        m = resolved /\ log = []).
Proof.
  cbn zeta. unfold getRestorationStatusForVehicles.
  destruct carNums as [|P carNums].
  { exists ∅, []. rewrite selectCars_nil. cbn [map]. rewrite selectRestorations_nil.
    cbn. auto. }
  cbn [List.length Nat.eqb]. unfold try_catch, statusBody, execute.
  destruct (qfault 0%nat) as [msg|].
  { eexists _, _. split; [reflexivity|]. split; [auto | discriminate]. }
  set (cars := selectCars db (P :: carNums)).
  destruct cars as [|c cars'] eqn:Hcars.
  { exists ∅, []. cbn [List.length Nat.eqb fst snd map]. rewrite selectRestorations_nil.
    cbn. auto. }
  cbn [List.length Nat.eqb].
  destruct (qfault 1%nat) as [msg|].
  { eexists _, _. split; [reflexivity|]. split; [auto | discriminate]. }
  set (rNos := resolvedRNos _ _).
  destruct rNos as [|n rNos'] eqn:HrNos.
  { cbn [List.length Nat.ltb Nat.leb fst snd]. eexists _, _. split; [reflexivity|].
    cbn [fst snd]. rewrite selectFailed_nil. auto. }
  cbn [List.length Nat.ltb Nat.leb].
  destruct (qfault 2%nat) as [msg|].
  { eexists _, _. split; [reflexivity|]. split; [auto | discriminate]. }
  eexists _, _. split; [reflexivity|]. cbn [fst snd]. auto.
Qed.

Lemma fillStatus_lookup (idx : gmap Z string) (failed : gset Z)
    (rs : list restoration) (P : string) (e : statusEntry) :
  forall m : gmap string statusEntry,
    fillStatus idx failed rs m !! P = Some e ->
    m !! P = Some e
    \/ exists r, In r rs /\ carNumOf idx (r_c_no r) = Some P /\ e = entryOf failed r.
Proof.
  unfold fillStatus. induction rs as [|r rs IH]; intros m; cbn [fold_left]; [auto|].
  intros H. apply IH in H. destruct H as [H|(r' & Hr' & Hc & He)].
  - destruct (carNumOf idx (r_c_no r)) as [carNum|] eqn:Hc; [|auto].
    destruct (decide (carNum = P)) as [->|Hne].
    + rewrite lookup_insert_eq in H. injection H as <-.
      right. exists r. cbn. auto.
    + rewrite lookup_insert_ne in H by exact Hne. auto.
  - right. exists r'. cbn. auto.
Qed.

Lemma selectFailed_In (db : cpm) (rNos : list Z) (n : Z) :
  In n (selectFailed db rNos) <->
  In n rNos /\ exists t, In t (restoration_task_table db) /\ rt_r_no t = n
                         /\ outboundInspectionResult t = Some "FAIL"
                         /\ notDeleted t = true.
Proof.
  unfold selectFailed. rewrite nodup_In, in_map_iff. split.
  - intros (t & <- & Ht). apply filter_In in Ht. destruct Ht as [Ht Hc].
    rewrite !andb_true_iff, inZ_In, bool_decide_eq_true in Hc.
    split; [tauto|]. exists t. tauto.
  - intros (Hn & t & Ht & <- & Hf & Hd). exists t. split; [reflexivity|].
    apply filter_In. rewrite !andb_true_iff, inZ_In, bool_decide_eq_true. tauto.
Qed.

Lemma resolvedRNos_In (idx : gmap Z string) (rs : list restoration) (n : Z) :
  In n (resolvedRNos idx rs) <->
  exists r, In r rs /\ r_no r = n /\ exists P, carNumOf idx (r_c_no r) = Some P.
Proof.
  unfold resolvedRNos. rewrite keep_some_In. split.
  - intros (r & Hr & H). exists r. destruct (carNumOf idx (r_c_no r)) as [P|];
      [|discriminate]. injection H as <-. eauto.
  - intros (r & Hr & <- & P & HP). exists r. rewrite HP. auto.
Qed.

Lemma selectRestorations_incl (db : cpm) (carNos : list Z) (r : restoration) :
  In r (selectRestorations db carNos) ->
  In r (restoration_table db) /\ In (r_c_no r) carNos.
Proof.
  unfold selectRestorations. intros H. apply filter_In in H. destruct H as [H _].
  apply filter_In in H. rewrite inZ_In in H. exact H.
Qed.

(** X17.  Every entry of the map [getRestorationStatusForVehicles] resolves
    to is backed by the tables, whichever queries were rejected: its key is
    a requested plate with a non-deleted car; the entry is either the entry
    for a car without restoration, or it carries the status code and text
    of a restoration of such a car, and its FAIL flag is set exactly when a
    task of that restoration is flagged FAIL and not deleted.  Its category
    is the category of its status code. *)
Theorem getRestorationStatusForVehicles_sound (db : cpm) (qfault : faults)
    (carNums : list string) (m : gmap string statusEntry) (log : list string)
    (P : string) (e : statusEntry) :
  getRestorationStatusForVehicles db qfault carNums = (Returns m, log) ->
  m !! P = Some e ->
  In P carNums
  /\ category e = categorizeStatus (statusCode e)
  /\ exists c, liveCar db P c
     /\ (e = noRecordEntry
         \/ exists r, In r (restoration_table db) /\ r_c_no r = c_no c
                      /\ statusCode e = r_status_cd r
                      /\ statusText e = getStatusText (r_status_cd r)
                      /\ (hasFail e = true <-> exists t, failedTaskOf db r t)).
Proof.
  intros Hres HP.
  destruct (getRestorationStatusForVehicles_map db qfault carNums)
    as (m' & log' & Heq & Hm & _).
  rewrite Hres in Heq. injection Heq as <- <-.
  destruct Hm as [->| ->]; [rewrite lookup_empty in HP; discriminate|].
  rewrite fillMissing_lookup in HP.
  set (cars := selectCars db carNums) in *.
  set (idx := indexCars cars) in *.
  set (restorations := selectRestorations db (map c_no cars)) in *.
  set (failed := list_to_set _) in HP.
  destruct (fillStatus idx failed restorations ∅ !! P) as [e'|] eqn:Hfill.
  - injection HP as ->. apply fillStatus_lookup in Hfill.
    destruct Hfill as [Hfill|(r & Hr & Hc & ->)];
      [rewrite lookup_empty in Hfill; discriminate|].
    pose proof Hc as Hidx. apply carNumOf_Some, indexCars_lookup in Hidx.
    destruct Hidx as (c & Hcin & Hno & Hnum).
    apply selectCars_In in Hcin. destruct Hcin as (Hlive & Hreq & _).
    rewrite Hnum in Hlive, Hreq.
    split; [exact Hreq|]. split; [reflexivity|].
    exists c. split; [exact Hlive|]. right. exists r.
    apply selectRestorations_incl in Hr as Hr'. destruct Hr' as [Hrin _].
    repeat split; auto.
    + cbn [hasFail entryOf]. rewrite bool_decide_eq_true. unfold failed.
      rewrite elem_of_list_to_set, list_elem_of_In, selectFailed_In.
      intros (_ & t & Ht). exists t. exact Ht.
    + intros (t & Ht). cbn [hasFail entryOf]. rewrite bool_decide_eq_true. unfold failed.
      rewrite elem_of_list_to_set, list_elem_of_In, selectFailed_In.
      split; [|exists t; exact Ht].
      apply resolvedRNos_In. exists r. eauto.
  - destruct (existsb _ cars) eqn:Hex; [|discriminate]. injection HP as <-.
    apply existsb_carnum in Hex. destruct Hex as (c & Hcin & Hnum).
    apply selectCars_In in Hcin. destruct Hcin as (Hlive & Hreq & _).
    rewrite Hnum in Hlive, Hreq.
    split; [exact Hreq|]. split; [reflexivity|]. exists c. auto.
Qed.

Lemma getRestorationStatusForVehicles_sound_witness :
  exists e c,
    fst (getRestorationStatusForVehicles sampleCpm noFault samplePlates)
    = Returns (<["12A3456" := noRecordEntry]> {["34B5678" := e]})
    /\ liveCar sampleCpm "34B5678" c
    /\ category e = categorizeStatus (statusCode e).
Proof.
  eexists.
  destruct (getRestorationStatusForVehicles_sound sampleCpm noFault samplePlates
              _ _ "34B5678" _ eq_refl eq_refl) as (_ & Hcat & c & Hlive & _).
  exists c. split; [reflexivity|]. split; [exact Hlive | exact Hcat].
Defined.

(** ** One plate at a time *)

(** [ORDER BY val DESC LIMIT 1] *)
Lemma head_order_by_desc {A} (val : A -> Z) (l : list A) :
  match head (order_by (fun x y => (val x <? val y)%Z) l) with
  | Some x => In x l /\ forall y, In y l -> (val y <= val x)%Z
  | None => l = []
  end.
Proof.
  pose proof (order_by_perm (fun x y => (val x <? val y)%Z) l) as Hperm.
  pose proof (order_by_sorted (fun x y => (val x <? val y)%Z)
                (fun x y => (val y <= val x)%Z)) as Hsorted.
  specialize (Hsorted ltac:(intros x y H; apply Z.ltb_lt in H; cbv beta; lia)
                      ltac:(intros x y H; apply Z.ltb_ge in H; cbv beta; lia)
                      ltac:(intros x y z; cbv beta; lia) l).
  destruct (order_by _ l) as [|x rest]; cbn [head].
  - apply Permutation_nil in Hperm. exact Hperm.
  - split.
    + apply (Permutation_in x Hperm). left; reflexivity.
    + intros y Hy. apply (Permutation_in y (Permutation_sym Hperm)) in Hy.
      destruct Hy as [<-|Hy]; [lia|].
      apply StronglySorted_inv in Hsorted. destruct Hsorted as [_ Hall].
      rewrite List.Forall_forall in Hall. apply Hall, Hy.
Qed.

Lemma group_max_Z_In {A} (key : A -> Z) (val : A -> Z) (rows : list A) (z : Z) :
  In z (group_max_Z key val rows) <->
  exists x, In x rows /\ val x = z
            /\ forall y, In y rows -> key y = key x -> (val y <= z)%Z.
Proof.
  unfold group_max_Z. rewrite keep_some_In. split.
  - intros [k [Hk Hmax]]. apply maximum_spec in Hmax. destruct Hmax as [Hin Hub].
    apply in_map_iff in Hin. destruct Hin as [x [Hx Hxin]].
    apply filter_In in Hxin. destruct Hxin as [Hxin Hkx]. apply Z.eqb_eq in Hkx.
    exists x. repeat split; try assumption.
    intros y Hy Hky. apply Hub, in_map, filter_In. split; [exact Hy|].
    apply Z.eqb_eq. congruence.
  - intros [x [Hx [Hv Hub]]]. exists (key x). split.
    + apply nodup_In, in_map, Hx.
    + destruct (maximum (map val (List.filter (fun r => (key r =? key x)%Z) rows)))
        as [z'|] eqn:Hm.
      * apply maximum_spec in Hm. destruct Hm as [Hin Hub'].
        f_equal. apply Z.le_antisymm.
        -- apply in_map_iff in Hin. destruct Hin as [y [<- Hy]].
           apply filter_In in Hy. destruct Hy as [Hy Hk]. apply Z.eqb_eq in Hk.
           apply Hub; assumption.
        -- rewrite <- Hv. apply Hub', in_map, filter_In. split; [exact Hx|].
           apply Z.eqb_refl.
      * exfalso.
        assert (Hin : In (val x)
                         (map val (List.filter (fun r => (key r =? key x)%Z) rows))).
        { apply in_map, filter_In. split; [exact Hx | apply Z.eqb_refl]. }
        destruct (map val _); [contradiction | discriminate].
Qed.

(** The second query returns the restorations of the given cars whose
    number is the greatest of some car's group. *)
Lemma selectRestorations_In (db : cpm) (carNos : list Z) (r : restoration) :
  In r (selectRestorations db carNos) <->
  In r (restoration_table db) /\ In (r_c_no r) carNos
  /\ exists x, In x (restoration_table db) /\ In (r_c_no x) carNos
               /\ r_no x = r_no r
               /\ forall y, In y (restoration_table db) -> r_c_no y = r_c_no x ->
                            (r_no y <= r_no r)%Z.
Proof.
  unfold selectRestorations. rewrite filter_In, inZ_In, group_max_Z_In, filter_In, inZ_In.
  split.
  - intros [Hr (x & Hx & Hv & Hub)]. apply filter_In in Hx. rewrite inZ_In in Hx.
    split; [tauto|]. split; [tauto|]. exists x. repeat split; try tauto.
    intros y Hy Hk. apply Hub; [|exact Hk]. apply filter_In. rewrite inZ_In.
    rewrite Hk. tauto.
  - intros (Hr & Hc & x & Hx & Hxc & Hv & Hub). split; [tauto|].
    exists x. split; [apply filter_In; rewrite inZ_In; tauto|]. split; [exact Hv|].
    intros y Hy Hk. apply filter_In in Hy. apply Hub; tauto.
Qed.

Lemma indexCars_lookup_In (cars : list car) (c : car) :
  In c cars ->
  (forall c', In c' cars -> c_no c' = c_no c -> c_carnum c' = c_carnum c) ->
  indexCars cars !! c_no c = Some (c_carnum c).
Proof.
  unfold indexCars.
  assert (H : forall (m : gmap Z string),
             (forall c', In c' cars -> c_no c' = c_no c -> c_carnum c' = c_carnum c) ->
             In c cars \/ m !! c_no c = Some (c_carnum c) ->
             fold_left (fun m c => <[c_no c := c_carnum c]> m) cars m !! c_no c
             = Some (c_carnum c)).
  { induction cars as [|a cars IH]; intros m Hsame Hor; cbn [fold_left].
    - destruct Hor as [[]|H]. exact H.
    - apply IH; [intros c' Hc'; apply Hsame; right; exact Hc'|].
      destruct (decide (c_no a = c_no c)) as [Heq|Hne].
      + right. rewrite Heq, lookup_insert_eq. f_equal. apply Hsame; [left; reflexivity|exact Heq].
      + destruct Hor as [[->|Hin]|Hm]; [congruence | auto |].
        right. rewrite lookup_insert_ne by exact Hne. exact Hm. }
  intros Hin Hsame. apply H; auto.
Qed.

Lemma fillStatus_is_Some (idx : gmap Z string) (failed : gset Z)
    (rs : list restoration) (P : string) :
  forall m : gmap string statusEntry,
    (is_Some (m !! P) \/ exists r, In r rs /\ carNumOf idx (r_c_no r) = Some P) ->
    is_Some (fillStatus idx failed rs m !! P).
Proof.
  unfold fillStatus. induction rs as [|r rs IH]; intros m Hor; cbn [fold_left].
  - destruct Hor as [H|(r & [] & _)]. exact H.
  - apply IH. destruct Hor as [H|(r' & [<-|Hr'] & Hc)].
    + left. destruct (carNumOf idx (r_c_no r)) as [carNum|]; [|exact H].
      destruct (decide (carNum = P)) as [->|Hne].
      * rewrite lookup_insert_eq. eauto.
      * rewrite lookup_insert_ne by exact Hne. exact H.
    + left. rewrite Hc, lookup_insert_eq. eauto.
    + right. eauto.
Qed.

Lemma countFailed_pos (db : cpm) (r : restoration) :
  (0 <? countFailed db (r_no r))%nat = true <-> exists t, failedTaskOf db r t.
Proof.
  unfold countFailed, failedTaskOf. rewrite Nat.ltb_lt. split.
  - intros H. destruct (List.filter _ _) as [|t l] eqn:Hf; [cbn in H; lia|].
    assert (Ht : In t (List.filter
                         (fun t => (rt_r_no t =? r_no r)%Z
                                   && bool_decide (outboundInspectionResult t = Some "FAIL")
                                   && notDeleted t) (restoration_task_table db))).
    { rewrite Hf. left; reflexivity. }
    apply filter_In in Ht. rewrite !andb_true_iff, Z.eqb_eq, bool_decide_eq_true in Ht.
    exists t. tauto.
  - intros (t & Ht & Hn & Hf & Hd).
    assert (Hin : In t (List.filter
                          (fun t => (rt_r_no t =? r_no r)%Z
                                    && bool_decide (outboundInspectionResult t = Some "FAIL")
                                    && notDeleted t) (restoration_task_table db))).
    { apply filter_In. rewrite !andb_true_iff, Z.eqb_eq, bool_decide_eq_true. tauto. }
    destruct (List.filter _ _); [destruct Hin | cbn; lia].
Qed.

(** The car and the restoration the single lookup reads. *)
Lemma getCarByNumber_spec (db : cpm) (P : string) :
  match fst (getCarByNumber db None P) with
  | Some c => vehicleIdentity db P c
  | None => forall c, ~ liveCar db P c
  end.
Proof.
  unfold getCarByNumber. cbn [fst].
  pose proof (head_order_by_desc c_no
                (List.filter (fun c => (c_carnum c =? P) && (c_del_yn c =? "N"))
                             (car_table db))) as H.
  destruct (head _) as [c|].
  - destruct H as [Hin Hmax]. apply filter_In in Hin.
    rewrite andb_true_iff, !String.eqb_eq in Hin.
    split; [unfold liveCar; tauto|].
    intros c' (Hc' & Hn & Hd). apply Hmax, filter_In.
    rewrite andb_true_iff, !String.eqb_eq. tauto.
  - intros c (Hc & Hn & Hd).
    assert (Hin : In c (List.filter (fun c => (c_carnum c =? P) && (c_del_yn c =? "N"))
                                    (car_table db))).
    { apply filter_In. rewrite andb_true_iff, !String.eqb_eq. tauto. }
    rewrite H in Hin. destruct Hin.
Qed.

Lemma getRestorationByCarNo_spec (db : cpm) (c : car) :
  match fst (getRestorationByCarNo db None (c_no c)) with
  | Some r => newestRestoration db c r
  | None => forall r, In r (restoration_table db) -> r_c_no r <> c_no c
  end.
Proof.
  unfold getRestorationByCarNo. cbn [fst].
  pose proof (head_order_by_desc r_no
                (List.filter (fun r => (r_c_no r =? c_no c)%Z) (restoration_table db)))
    as H.
  destruct (head _) as [r|].
  - destruct H as [Hin Hmax]. apply filter_In in Hin. rewrite Z.eqb_eq in Hin.
    split; [tauto|]. split; [tauto|].
    intros r' Hr' Hc. apply Hmax, filter_In. rewrite Z.eqb_eq. tauto.
  - intros r Hr Hc.
    assert (Hin : In r (List.filter (fun r => (r_c_no r =? c_no c)%Z)
                                    (restoration_table db))).
    { apply filter_In. rewrite Z.eqb_eq. tauto. }
    rewrite H in Hin. destruct Hin.
Qed.

Lemma entryOf_not_noRecord (failed : gset Z) (r : restoration) :
  entryOf failed r <> noRecordEntry.
Proof.
  intros H. assert (Hc : statusCode (entryOf failed r) = None) by (rewrite H; reflexivity).
  assert (Ht : statusText (entryOf failed r) = "상품화 정보 없음") by (rewrite H; reflexivity).
  cbn in Hc, Ht. rewrite Hc in Ht. discriminate.
Qed.

(** The car the batch lookup selects for a plate is the newest live car of
    the plate, when car numbers are unique. *)
Lemma selectCars_newest (db : cpm) (carNums : list string) (P : string) (c c' : car) :
  List.NoDup (map c_no (car_table db)) ->
  vehicleIdentity db P c ->
  In c' (selectCars db carNums) -> c_carnum c' = P -> c' = c.
Proof.
  intros Hnd [Hlive Hnewest] Hc' HP.
  apply selectCars_In in Hc'.
  destruct Hc' as (Hlive' & _ & x & Hxlive & _ & Hxno & Hxub).
  rewrite HP in Hlive'.
  assert (Hxc : x = c').
  { eapply (NoDup_map_inj c_no); [exact Hnd | apply Hxlive | apply Hlive' | exact Hxno]. }
  subst x. rewrite HP in Hxub.
  eapply (NoDup_map_inj c_no); [exact Hnd | apply Hlive' | apply Hlive |].
  apply Z.le_antisymm; [apply Hnewest, Hlive' | apply Hxub, Hlive].
Qed.

Lemma entryOf_ext (f1 f2 : gset Z) (r : restoration) :
  bool_decide (r_no r ∈ f1) = bool_decide (r_no r ∈ f2) -> entryOf f1 r = entryOf f2 r.
Proof. unfold entryOf. cbn zeta. intros ->. reflexivity. Qed.

(** With unique car and restoration numbers the entry of a plate in the
    batch map is what the single lookups find for it. *)
Lemma getRestorationStatusForVehicles_by_plate (db : cpm) (carNums : list string)
    (P : string) :
  In P carNums -> P <> "" ->
  List.NoDup (map c_no (car_table db)) ->
  List.NoDup (map r_no (restoration_table db)) ->
  exists m,
    getRestorationStatusForVehicles db noFault carNums = (Returns m, [])
    /\ m !! P = entryByPlate db P.
Proof.
  intros HP Hne Hndc Hndr.
  destruct (getRestorationStatusForVehicles_map db noFault carNums)
    as (m & log & Heq & _ & Hm).
  destruct (Hm eq_refl eq_refl eq_refl) as [-> ->]. clear Hm.
  eexists. split; [exact Heq|]. clear Heq. unfold entryByPlate.
  set (cars := selectCars db carNums).
  set (idx := indexCars cars).
  set (restorations := selectRestorations db (map c_no cars)).
  set (failed := list_to_set _ : gset Z).
  rewrite fillMissing_lookup.
  pose proof (getCarByNumber_spec db P) as Hcar.
  destruct (getCarByNumber db None P) as [[c|] log0]; cbn [fst] in Hcar |- *.
  2:{ (* no live car *)
    rewrite fillStatus_None; [| apply lookup_empty |].
    - destruct (existsb _ cars) eqn:Hex; [|reflexivity].
      apply existsb_carnum in Hex. destruct Hex as (c & Hc & Hnum).
      apply selectCars_In in Hc. destruct Hc as [Hlive _]. rewrite Hnum in Hlive.
      destruct (Hcar c Hlive).
    - intros r _ Hr. apply carNumOf_Some, indexCars_lookup in Hr.
      destruct Hr as (c & Hc & _ & Hnum).
      apply selectCars_In in Hc. destruct Hc as [Hlive _]. rewrite Hnum in Hlive.
      destruct (Hcar c Hlive). }
  pose proof Hcar as [Hlive Hnewest]. pose proof Hlive as (Hcin & Hnum & Hdel).
  assert (Hc : In c cars).
  { apply selectCars_In. rewrite Hnum.
    split; [exact Hlive|]. split; [exact HP|]. exists c. rewrite Hnum. auto. }
  assert (Hidx : carNumOf idx (c_no c) = Some P).
  { unfold carNumOf, idx. rewrite (indexCars_lookup_In cars c Hc).
    - rewrite Hnum. destruct (P =? "") eqn:HPe; [|reflexivity].
      apply String.eqb_eq in HPe. contradiction.
    - intros c' Hc' Hno. apply selectCars_In in Hc'. destruct Hc' as [(Hc' & _) _].
      f_equal. eapply (NoDup_map_inj c_no); eauto. }
  assert (Hback : forall r, In r restorations -> carNumOf idx (r_c_no r) = Some P ->
                            r_c_no r = c_no c).
  { intros r Hr Hcn. apply carNumOf_Some, indexCars_lookup in Hcn.
    destruct Hcn as (c' & Hc' & Hno & Hc'P).
    rewrite (selectCars_newest db carNums P c c' Hndc Hcar Hc' Hc'P) in Hno. auto. }
  assert (Hex : existsb (fun c0 => c_carnum c0 =? P) cars = true).
  { apply existsb_carnum. exists c. auto. }
  pose proof (getRestorationByCarNo_spec db c) as Hres.
  destruct (getRestorationByCarNo db None (c_no c)) as [[r|] log1]; cbn [fst] in Hres |- *.
  2:{ (* a car without restoration *)
    rewrite fillStatus_None; [| apply lookup_empty |].
    - rewrite Hex. reflexivity.
    - intros r Hr Hcn. apply (Hres r).
      + apply selectRestorations_incl in Hr. tauto.
      + apply Hback; assumption. }
  destruct Hres as (Hrin & Hrc & Hrmax).
  assert (Hr : In r restorations).
  { apply selectRestorations_In. split; [exact Hrin|].
    assert (Hcno : In (r_c_no r) (map c_no cars)) by (rewrite Hrc; apply in_map, Hc).
    split; [exact Hcno|]. exists r. repeat split; auto.
    intros y Hy Hyc. apply Hrmax; [exact Hy | congruence]. }
  assert (Hsome : is_Some (fillStatus idx failed restorations ∅ !! P)).
  { apply fillStatus_is_Some. right. exists r. split; [exact Hr|]. rewrite Hrc. exact Hidx. }
  destruct Hsome as [e He]. rewrite He.
  apply fillStatus_lookup in He.
  destruct He as [He|(r' & Hr' & Hcn' & ->)]; [rewrite lookup_empty in He; discriminate|].
  assert (Hsame : r' = r).
  { pose proof (Hback r' Hr' Hcn') as Hc'.
    apply selectRestorations_In in Hr'.
    destruct Hr' as (Hr'in & _ & x & Hx & _ & Hxno & Hxub).
    assert (Hxr : x = r') by (eapply (NoDup_map_inj r_no); eauto). subst x.
    eapply (NoDup_map_inj r_no); eauto.
    apply Z.le_antisymm; [apply Hrmax; auto | apply Hxub; [exact Hrin | congruence]]. }
  subst r'. f_equal. apply entryOf_ext.
  apply eq_true_iff_eq. rewrite !bool_decide_eq_true. unfold failed.
  rewrite elem_of_list_to_set, list_elem_of_In, selectFailed_In.
  pose proof (countFailed_pos db r) as Hcount.
  destruct (0 <? countFailed db (r_no r))%nat.
  - rewrite elem_of_singleton. split; [reflexivity|]. intros _.
    split; [|apply Hcount; reflexivity]. apply resolvedRNos_In. exists r.
    split; [exact Hr|]. split; [reflexivity|]. exists P. rewrite Hrc. exact Hidx.
  - rewrite elem_of_empty. split; [|tauto]. intros [_ Ht].
    apply Hcount in Ht. discriminate.
Qed.

(** X18.  The page of one vehicle and the lists agree.  When car and
    restoration numbers are unique and no query is rejected, the single
    lookup [getRestorationStatusByCarNum] of a non-empty plate finds a car
    exactly when the batch lookup has an entry for the plate, and then both
    report the same status code, the same status text and the same FAIL
    flag; the single lookup has no restoration exactly when the batch entry
    is the one for a car without restoration. *)
Theorem getRestorationStatusByCarNum_agrees (db : cpm) (carNums : list string)
    (P : string) :
  In P carNums -> P <> "" ->
  List.NoDup (map c_no (car_table db)) ->
  List.NoDup (map r_no (restoration_table db)) ->
  exists m,
    getRestorationStatusForVehicles db noFault carNums = (Returns m, [])
    /\ let single := fst (getRestorationStatusByCarNum db noFault P) in
       match m !! P with
       | None => ByCarNum.found single = false
       | Some e =>
         ByCarNum.found single = true
         /\ ByCarNum.statusCode single = statusCode e
         /\ ByCarNum.statusText single = statusText e
         /\ ByCarNum.hasFail single = hasFail e
         /\ (ByCarNum.restoration single = None <-> e = noRecordEntry)
       end.
Proof.
  intros HP Hne Hndc Hndr.
  destruct (getRestorationStatusForVehicles_by_plate db carNums P HP Hne Hndc Hndr)
    as (m & Hm & Hl).
  exists m. split; [exact Hm|]. cbn zeta. rewrite Hl.
  unfold entryByPlate, getRestorationStatusByCarNum, noFault, execute.
  destruct (getCarByNumber db None P) as [[c|] log0]; cbn [fst]; [|reflexivity].
  destruct (getRestorationByCarNo db None (c_no c)) as [[r|] log1]; cbn [fst].
  - cbn [ByCarNum.found ByCarNum.statusCode ByCarNum.statusText
         ByCarNum.hasFail ByCarNum.restoration fst
         statusCode statusText hasFail entryOf].
    repeat split; try reflexivity.
    + destruct (0 <? countFailed db (r_no r))%nat; symmetry.
      * apply bool_decide_eq_true. apply elem_of_singleton. reflexivity.
      * apply bool_decide_eq_false. apply not_elem_of_empty.
    + discriminate.
    + intros H. destruct (entryOf_not_noRecord _ _ H).
  - cbn. tauto.
Qed.

Lemma getRestorationStatusByCarNum_agrees_witness :
  exists m e,
    getRestorationStatusForVehicles sampleCpm noFault samplePlates = (Returns m, [])
    /\ m !! "34B5678" = Some e
    /\ ByCarNum.hasFail (fst (getRestorationStatusByCarNum sampleCpm noFault "34B5678"))
       = hasFail e.
Proof.
  destruct (getRestorationStatusByCarNum_agrees sampleCpm samplePlates "34B5678")
    as (m & Hm & H).
  - cbn. auto.
  - discriminate.
  - cbn. repeat constructor; cbn; intuition discriminate.
  - cbn. repeat constructor; cbn; intuition discriminate.
  - assert (Hmap : m = <["12A3456" := noRecordEntry]>
                         {["34B5678" := entryOf {[10%Z]}
                                          {| r_no := 10; r_c_no := 2;
                                             r_status_cd := Some "WORKING" |}]}).
    { vm_compute in Hm. injection Hm as <-. reflexivity. }
    exists m, (entryOf {[10%Z]} {| r_no := 10; r_c_no := 2; r_status_cd := Some "WORKING" |}).
    split; [exact Hm|]. cbn zeta in H. rewrite Hmap in H |- *.
    split; [reflexivity|]. vm_compute. reflexivity.
Defined.

(** X22.  The batch lookup answers plate by plate: when car and
    restoration numbers are unique and no query is rejected, the entry of a
    non-empty plate does not depend on which other plates are asked for in
    the same call.  The pages that ask for a part of the parked vehicles
    therefore show a vehicle as the dashboard does. *)
Theorem getRestorationStatusForVehicles_local (db : cpm) (carNums carNums' : list string)
    (P : string) :
  In P carNums -> In P carNums' -> P <> "" ->
  List.NoDup (map c_no (car_table db)) ->
  List.NoDup (map r_no (restoration_table db)) ->
  exists m m',
    getRestorationStatusForVehicles db noFault carNums = (Returns m, [])
    /\ getRestorationStatusForVehicles db noFault carNums' = (Returns m', [])
    /\ m !! P = m' !! P.
Proof.
  intros HP HP' Hne Hndc Hndr.
  destruct (getRestorationStatusForVehicles_by_plate db carNums P HP Hne Hndc Hndr)
    as (m & Hm & Hl).
  destruct (getRestorationStatusForVehicles_by_plate db carNums' P HP' Hne Hndc Hndr)
    as (m' & Hm' & Hl').
  exists m, m'. split; [exact Hm|]. split; [exact Hm'|]. congruence.
Qed.

Lemma getRestorationStatusForVehicles_local_witness :
  exists m m',
    getRestorationStatusForVehicles sampleCpm noFault samplePlates = (Returns m, [])
    /\ getRestorationStatusForVehicles sampleCpm noFault ["34B5678"] = (Returns m', [])
    /\ m !! "34B5678" = m' !! "34B5678".
Proof.
  apply (getRestorationStatusForVehicles_local sampleCpm samplePlates ["34B5678"]
           "34B5678").
  - cbn. auto.
  - cbn. auto.
  - discriminate.
  - cbn. repeat constructor; cbn; intuition discriminate.
  - cbn. repeat constructor; cbn; intuition discriminate.
Defined.

(** ** Rejected queries *)

(** X19.  The single lookup turns a rejected query into missing data: it
    answers what it would answer if the table of that query were empty (no
    car, no restoration, no FAIL task), and writes one line to the console
    when it got as far as the rejected query. *)
Theorem getRestorationStatusByCarNum_rejected (db : cpm) (msg : string) (P : string) :
  fst (getRestorationStatusByCarNum db (failing 0 msg) P)
  = fst (getRestorationStatusByCarNum (without_cars db) noFault P)
  /\ fst (getRestorationStatusByCarNum db (failing 1 msg) P)
     = fst (getRestorationStatusByCarNum (without_restorations db) noFault P)
  /\ fst (getRestorationStatusByCarNum db (failing 2 msg) P)
     = fst (getRestorationStatusByCarNum (without_tasks db) noFault P)
  /\ snd (getRestorationStatusByCarNum db (failing 0 msg) P) = ["차량 조회 오류: " ++ msg]
  /\ (List.length (snd (getRestorationStatusByCarNum db (failing 1 msg) P)) <= 1)%nat
  /\ (List.length (snd (getRestorationStatusByCarNum db (failing 2 msg) P)) <= 1)%nat.
Proof.
  unfold getRestorationStatusByCarNum, failing, noFault, execute.
  cbn [Nat.eqb getCarByNumber without_cars without_restorations without_tasks
       car_table restoration_table restoration_task_table List.filter order_by
       fold_right head fst snd].
  repeat split.
  - destruct (head _) as [c|]; [|reflexivity].
    unfold getRestorationByCarNo. reflexivity.
  - destruct (head _) as [c|]; [|reflexivity].
    unfold getRestorationByCarNo. cbn [restoration_table fst snd].
    destruct (head _) as [r|]; reflexivity.
  - destruct (head _) as [c|]; [cbn; lia|].
    unfold getRestorationByCarNo. cbn. lia.
  - destruct (head _) as [c|]; [|cbn; lia].
    unfold getRestorationByCarNo. cbn [restoration_table fst snd].
    destruct (head _) as [r|]; cbn; lia.
Qed.

(** X20.  The batch lookup is all or nothing: whichever queries are
    rejected, the map it resolves to is either empty or the complete map of
    the run without rejection; it never holds a part of the entries.  A
    console line is written only when a query was rejected, and then the
    map is empty. *)
Theorem getRestorationStatusForVehicles_all_or_nothing (db : cpm) (qfault : faults)
    (carNums : list string) :
  exists m log,
    getRestorationStatusForVehicles db qfault carNums = (Returns m, log)
    /\ (m = ∅ \/ getRestorationStatusForVehicles db noFault carNums = (Returns m, []))
    /\ (log = [] \/ exists msg k, qfault k = Some msg /\ m = ∅
                                  /\ log = ["다중 차량 상품화 조회 오류: " ++ msg]).
Proof.
  destruct (getRestorationStatusForVehicles_map db noFault carNums)
    as (m0 & log0 & Heq0 & _ & H0).
  destruct (H0 eq_refl eq_refl eq_refl) as [Hm0 ->]. clear H0.
  destruct (getRestorationStatusForVehicles_map db qfault carNums)
    as (m & log & Heq & Hm & _).
  exists m, log. split; [exact Heq|]. split.
  - destruct Hm as [->| ->]; [left; reflexivity|]. right. rewrite Heq0, Hm0. reflexivity.
  - clear Heq0 Hm0 Hm. revert Heq. unfold getRestorationStatusForVehicles.
    destruct (List.length carNums =? 0)%nat; [intros [= <- <-]; auto|].
    unfold try_catch, statusBody, execute.
    destruct (qfault 0%nat) as [msg|] eqn:H0.
    { intros [= <- <-]. right. exists msg, 0%nat. auto. }
    destruct (List.length (selectCars db carNums) =? 0)%nat; [intros [= <- <-]; auto|].
    destruct (qfault 1%nat) as [msg|] eqn:H1.
    { intros [= <- <-]. right. exists msg, 1%nat. auto. }
    destruct (0 <? _)%nat; [|intros [= <- <-]; auto].
    destruct (qfault 2%nat) as [msg|] eqn:H2.
    { intros [= <- <-]. right. exists msg, 2%nat. auto. }
    intros [= <- <-]; auto.
Qed.

(** ** Current tasks *)

Lemma carNumOf_nonempty (idx : gmap Z string) (k : Z) (v : string) :
  carNumOf idx k = Some v -> v <> "".
Proof.
  unfold carNumOf. destruct (idx !! k) as [w|]; [|discriminate].
  destruct (w =? "") eqn:Hw; [discriminate|]. intros [= <-].
  apply String.eqb_neq. exact Hw.
Qed.

Lemma rNoToCarNum_lookup (idx : gmap Z string) (rs : list restoration) (n : Z)
    (P : string) :
  fold_left (fun (m : gmap Z string) r =>
               match carNumOf idx (r_c_no r) with
               | Some carNum => <[r_no r := carNum]> m
               | None => m
               end) rs ∅ !! n = Some P ->
  exists r, In r rs /\ r_no r = n /\ carNumOf idx (r_c_no r) = Some P.
Proof.
  assert (H : forall m : gmap Z string,
             fold_left (fun (m : gmap Z string) r =>
                          match carNumOf idx (r_c_no r) with
                          | Some carNum => <[r_no r := carNum]> m
                          | None => m
                          end) rs m !! n = Some P ->
             m !! n = Some P
             \/ exists r, In r rs /\ r_no r = n /\ carNumOf idx (r_c_no r) = Some P).
  { induction rs as [|r rs IH]; intros m; cbn [fold_left]; [auto|].
    intros Hl. apply IH in Hl. destruct Hl as [Hl|(r' & Hr' & Hn & Hc)].
    - destruct (carNumOf idx (r_c_no r)) as [carNum|] eqn:Hc; [|auto].
      destruct (decide (r_no r = n)) as [Heq|Hne].
      + rewrite Heq, lookup_insert_eq in Hl. injection Hl as ->.
        right. exists r. cbn. auto.
      + rewrite lookup_insert_ne in Hl by exact Hne. auto.
    - right. exists r'. cbn. auto. }
  intros Hl. apply H in Hl. destruct Hl as [Hl|Hl]; [|exact Hl].
  rewrite lookup_empty in Hl. discriminate.
Qed.

Lemma tasks_lookup (rmap : gmap Z string) (tasks : list (Z * taskSummary))
    (P : string) (ts : list taskSummary) :
  fold_left (fun (m : gmap string (list taskSummary)) t =>
               match carNumOf rmap (fst t) with
               | Some carNum => <[carNum := (default [] (m !! carNum) ++ [snd t])%list]> m
               | None => m
               end) tasks ∅ !! P = Some ts ->
  ts <> []
  /\ forall s, In s ts -> exists t, In t tasks /\ snd t = s /\ carNumOf rmap (fst t) = Some P.
Proof.
  assert (H : forall m : gmap string (list taskSummary),
             fold_left (fun (m : gmap string (list taskSummary)) t =>
                          match carNumOf rmap (fst t) with
                          | Some carNum =>
                            <[carNum := (default [] (m !! carNum) ++ [snd t])%list]> m
                          | None => m
                          end) tasks m !! P = Some ts ->
             (forall old, m !! P = Some old -> old <> []) ->
             ts <> []
             /\ forall s, In s ts ->
                          In s (default [] (m !! P))
                          \/ exists t, In t tasks /\ snd t = s
                                       /\ carNumOf rmap (fst t) = Some P).
  { induction tasks as [|t tasks IH]; intros m; cbn [fold_left].
    - intros Hl Hold. split; [eapply Hold, Hl|]. intros s Hs. left. rewrite Hl. exact Hs.
    - intros Hl Hold. apply IH in Hl.
      + destruct Hl as [Hne Hall]. split; [exact Hne|]. intros s Hs.
        destruct (Hall s Hs) as [Hin|(t' & Ht' & Hst & Hc)].
        * destruct (carNumOf rmap (fst t)) as [carNum|] eqn:Hc; [|auto].
          destruct (decide (carNum = P)) as [->|Hnp].
          -- rewrite lookup_insert_eq in Hin. cbn [default from_option id] in Hin.
             apply in_app_or in Hin. destruct Hin as [Hin|[<-|[]]]; [auto|].
             right. exists t. cbn. auto.
          -- rewrite lookup_insert_ne in Hin by exact Hnp. auto.
        * right. exists t'. cbn. auto.
      + intros old. destruct (carNumOf rmap (fst t)) as [carNum|]; [|apply Hold].
        destruct (decide (carNum = P)) as [->|Hnp].
        * rewrite lookup_insert_eq. intros [= <-]. destruct (default [] (m !! P)); discriminate.
        * rewrite lookup_insert_ne by exact Hnp. apply Hold. }
  intros Hl. apply H in Hl.
  - destruct Hl as [Hne Hall]. split; [exact Hne|]. intros s Hs.
    destruct (Hall s Hs) as [Hin|Ht]; [|exact Ht].
    rewrite lookup_empty in Hin. destruct Hin.
  - intros old. rewrite lookup_empty. discriminate.
Qed.

Lemma selectActiveTasks_In (db : cpm) (rNos : list Z) (n : Z) (s : taskSummary) :
  In (n, s) (selectActiveTasks db rNos) ->
  exists t, In t (restoration_task_table db) /\ rt_r_no t = n /\ In n rNos
            /\ activeTask t = true
            /\ In (workPart s) (left_join (basic_work_part db) (rt_wp_no t))
            /\ In (workGroup s) (left_join (basic_work_group db) (rt_wg_no t))
            /\ In (workName s) (left_join (basic_work db) (rt_w_no t)).
Proof.
  unfold selectActiveTasks. rewrite in_flat_map. intros (t & Ht & Hin).
  apply filter_In in Ht. rewrite andb_true_iff, inZ_In in Ht.
  apply in_flat_map in Hin. destruct Hin as (wp & Hwp & Hin).
  apply in_flat_map in Hin. destruct Hin as (wg & Hwg & Hin).
  apply in_map_iff in Hin. destruct Hin as (w & Heq & Hw).
  injection Heq as <- <-. exists t. cbn. tauto.
Qed.

(** The map of [getCurrentTasksForVehicles] is empty or the one its last
    loop builds. *)
Lemma getCurrentTasksForVehicles_map (db : cpm) (qfault : faults)
    (carNums : list string) :
  let cars := selectCars db carNums in
  let restorations := selectRestorations db (map c_no cars) in
  let idx := indexCars cars in
  let rNoToCarNum : gmap Z string :=
    fold_left (fun m r => match carNumOf idx (r_c_no r) with
                          | Some carNum => <[r_no r := carNum]> m
                          | None => m
                          end) restorations ∅ in
  let tasks := selectActiveTasks db (resolvedRNos idx restorations) in
  exists m log,
    getCurrentTasksForVehicles db qfault carNums = (Returns m, log)
    /\ (m = ∅
        \/ m = fold_left (fun (m : gmap string (list taskSummary)) t =>
                            match carNumOf rNoToCarNum (fst t) with
                            | Some carNum =>
                              <[carNum := (default [] (m !! carNum) ++ [snd t])%list]> m
                            | None => m
                            end) tasks ∅).
Proof.
  cbn zeta. unfold getCurrentTasksForVehicles.
  destruct (List.length carNums =? 0)%nat; [eexists _, _; split; [reflexivity | auto]|].
  unfold try_catch, tasksBody, execute.
  destruct (qfault 0%nat); [eexists _, _; split; [reflexivity | auto]|].
  destruct (List.length (selectCars db carNums) =? 0)%nat;
    [eexists _, _; split; [reflexivity | auto]|].
  destruct (qfault 1%nat); [eexists _, _; split; [reflexivity | auto]|].
  destruct (List.length (selectRestorations db _) =? 0)%nat;
    [eexists _, _; split; [reflexivity | auto]|].
  destruct (List.length (resolvedRNos _ _) =? 0)%nat;
    [eexists _, _; split; [reflexivity | auto]|].
  destruct (qfault 2%nat); eexists _, _; (split; [reflexivity | auto]).
Qed.

(** X21.  Every list of the map [getCurrentTasksForVehicles] resolves to is
    backed by the tables, whichever queries were rejected: its key is a
    requested, non-empty plate for which the batch status lookup has an
    entry with a restoration; the list is not empty, and each of its items
    comes from an active, non-deleted task of a restoration of a
    non-deleted car of that plate, with the titles the joins give. *)
Theorem getCurrentTasksForVehicles_sound (db : cpm) (qfault : faults)
    (carNums : list string) (tm : gmap string (list taskSummary)) (log : list string)
    (P : string) (ts : list taskSummary) :
  getCurrentTasksForVehicles db qfault carNums = (Returns tm, log) ->
  tm !! P = Some ts ->
  ts <> [] /\ In P carNums /\ P <> ""
  /\ (exists m e, getRestorationStatusForVehicles db noFault carNums = (Returns m, [])
                  /\ m !! P = Some e /\ e <> noRecordEntry)
  /\ forall s, In s ts ->
       exists t r c,
         liveCar db P c /\ In r (restoration_table db) /\ r_c_no r = c_no c
         /\ In t (restoration_task_table db) /\ rt_r_no t = r_no r
         /\ activeTask t = true
         /\ In (workPart s) (left_join (basic_work_part db) (rt_wp_no t))
         /\ In (workGroup s) (left_join (basic_work_group db) (rt_wg_no t))
         /\ In (workName s) (left_join (basic_work db) (rt_w_no t)).
Proof.
  intros Hres HP.
  destruct (getCurrentTasksForVehicles_map db qfault carNums) as (m' & log' & Heq & Hm).
  rewrite Hres in Heq. injection Heq as <- <-.
  destruct Hm as [->| ->]; [rewrite lookup_empty in HP; discriminate|].
  apply tasks_lookup in HP. destruct HP as [Hne Hall].
  set (cars := selectCars db carNums) in *.
  set (idx := indexCars cars) in *.
  set (restorations := selectRestorations db (map c_no cars)) in *.
  assert (Hback : forall s, In s ts ->
            exists t r c,
              In r restorations /\ carNumOf idx (r_c_no r) = Some P
              /\ In c cars /\ c_no c = r_c_no r /\ c_carnum c = P
              /\ In t (restoration_task_table db) /\ rt_r_no t = r_no r
              /\ activeTask t = true
              /\ In (workPart s) (left_join (basic_work_part db) (rt_wp_no t))
              /\ In (workGroup s) (left_join (basic_work_group db) (rt_wg_no t))
              /\ In (workName s) (left_join (basic_work db) (rt_w_no t))).
  { intros s Hs. destruct (Hall s Hs) as ([n s'] & Ht & Hst & Hc). cbn [fst snd] in *.
    subst s'. apply selectActiveTasks_In in Ht.
    destruct Ht as (t & Ht & Hn & _ & Hact & Hwp & Hwg & Hw).
    apply carNumOf_Some, rNoToCarNum_lookup in Hc. destruct Hc as (r & Hr & Hrn & Hc).
    pose proof Hc as Hidx. apply carNumOf_Some, indexCars_lookup in Hidx.
    destruct Hidx as (c & Hcin & Hno & Hnum).
    exists t, r, c. repeat split; auto. congruence. }
  destruct ts as [|s0 ts']; [congruence|].
  destruct (Hback s0 (or_introl eq_refl))
    as (t0 & r0 & c0 & Hr0 & Hc0 & Hcin0 & Hno0 & Hnum0 & _).
  apply selectCars_In in Hcin0 as Hsel. destruct Hsel as (Hlive0 & Hreq0 & _).
  rewrite Hnum0 in Hlive0, Hreq0.
  split; [exact Hne|]. split; [exact Hreq0|].
  split; [eapply carNumOf_nonempty, Hc0|]. split.
  - destruct (getRestorationStatusForVehicles_map db noFault carNums)
      as (m & log0 & Heq & _ & Hm).
    destruct (Hm eq_refl eq_refl eq_refl) as [-> ->]. clear Hm.
    fold cars idx restorations in Heq |- *.
    set (failed := list_to_set _ : gset Z) in *.
    destruct (fillStatus_is_Some idx failed restorations P ∅) as [e He].
    { right. exists r0. auto. }
    exists (fillMissing cars (fillStatus idx failed restorations ∅)), e.
    split; [exact Heq|]. rewrite fillMissing_lookup, He. split; [reflexivity|].
    apply fillStatus_lookup in He.
    destruct He as [He|(r' & _ & _ & ->)]; [rewrite lookup_empty in He; discriminate|].
    apply entryOf_not_noRecord.
  - intros s Hs.
    destruct (Hback s Hs)
      as (t & r & c & Hr & Hc & Hcin & Hno & Hnum & Ht & Hrt & Hact & Hwp & Hwg & Hw).
    apply selectCars_In in Hcin. destruct Hcin as (Hlive & _). rewrite Hnum in Hlive.
    apply selectRestorations_incl in Hr. destruct Hr as [Hr _].
    exists t, r, c. repeat split; auto; try apply Hlive.
Qed.

Lemma getCurrentTasksForVehicles_sound_witness :
  exists ts,
    fst (getCurrentTasksForVehicles sampleCpm noFault samplePlates)
    = Returns {["34B5678" := ts]}
    /\ ts <> [] /\ In "34B5678" samplePlates.
Proof.
  eexists.
  destruct (getCurrentTasksForVehicles_sound sampleCpm noFault samplePlates
              _ _ "34B5678" _ eq_refl eq_refl) as (Hne & Hin & _).
  split; [reflexivity|]. split; [exact Hne | exact Hin].
Defined.

(** ** The pages against each other *)

Lemma unregistered_negb (restorationMap : gmap string statusEntry) (v : row) :
  unregistered restorationMap v = negb (registered restorationMap v).
Proof.
  unfold unregistered, registered.
  destruct (restorationMap !! plate_number v) as [e|]; [|reflexivity].
  destruct (statusCode e); reflexivity.
Qed.

(** X23.  The dashboard splits the parked vehicles in two: every parked
    vehicle is either among the registered ones it aggregates or in the
    list of unregistered ones, never in both and never in neither. *)
Theorem registered_unregistered_partition (restorationMap : gmap string statusEntry)
    (allParkedVehicles : list row) :
  Permutation allParkedVehicles
              (registeredVehicles restorationMap allParkedVehicles
               ++ unregisteredVehicles restorationMap allParkedVehicles)
  /\ (List.length (registeredVehicles restorationMap allParkedVehicles)
      + List.length (unregisteredVehicles restorationMap allParkedVehicles)
      = List.length allParkedVehicles)%nat
  /\ forall v, In v (registeredVehicles restorationMap allParkedVehicles) ->
               ~ In v (unregisteredVehicles restorationMap allParkedVehicles).
Proof.
  unfold registeredVehicles, unregisteredVehicles.
  assert (Hperm : Permutation allParkedVehicles
                    (List.filter (registered restorationMap) allParkedVehicles
                     ++ List.filter (unregistered restorationMap) allParkedVehicles)).
  { induction allParkedVehicles as [|v vs IH]; [constructor|].
    cbn [List.filter]. rewrite unregistered_negb.
    destruct (registered restorationMap v); cbn [negb].
    - cbn. constructor. exact IH.
    - apply Permutation_cons_app. exact IH. }
  split; [exact Hperm|]. split.
  - apply Permutation_length in Hperm. rewrite List.length_app in Hperm. lia.
  - intros v Hr Hu. apply filter_In in Hr, Hu.
    rewrite unregistered_negb in Hu. destruct Hr as [_ Hr]. destruct Hu as [_ Hu].
    rewrite Hr in Hu. discriminate.
Qed.









Lemma filter_comm {A} (f g : A -> bool) (l : list A) :
  List.filter f (List.filter g l) = List.filter g (List.filter f l).
Proof.
  induction l as [|a l IH]; [reflexivity|]. cbn [List.filter].
  destruct (f a) eqn:Hf, (g a) eqn:Hg; cbn [List.filter]; rewrite ?Hf, ?Hg, IH; reflexivity.
Qed.

(** X26.  The page of a location lists exactly the vehicles the dashboard
    aggregates at that location, although it resolves only the plates
    parked there: with unique car and restoration numbers, no rejected
    query and no empty plate in the table, [/location/:name] shows the
    vehicles of the dashboard whose location is [name]. *)
Theorem locationVehicles_matches_dashboard (db : cpm) (table : list row) (name : string) :
  List.NoDup (map c_no (car_table db)) ->
  List.NoDup (map r_no (restoration_table db)) ->
  Forall (fun v => plate_number v <> "") table ->
  exists shown,
    dashboardVehicles db noFault table = Returns shown
    /\ locationVehicles db noFault table name
       = Returns (List.filter (fun v => locationName v =? name) shown).
Proof.
  intros Hndc Hndr Hplates. unfold dashboardVehicles, locationVehicles. cbn zeta.
  set (all := getParkedVehicles table).
  set (atLoc := fun v : row => locationName v =? name).
  destruct (getRestorationStatusForVehicles_map db noFault (map plate_number all))
    as (m & log & Heq & _).
  destruct (getRestorationStatusForVehicles_map db noFault
              (map plate_number (List.filter atLoc all))) as (m' & log' & Heq' & _).
  rewrite Heq, Heq'. cbn [fst]. eexists. split; [reflexivity|]. apply f_equal.
  unfold registeredVehicles. rewrite (filter_comm atLoc (registered m)).
  symmetry. apply List.filter_ext_in. intros v Hv.
  assert (Hall : In v all) by (apply filter_In in Hv; tauto).
  assert (Hne : plate_number v <> "").
  { rewrite List.Forall_forall in Hplates. apply Hplates.
    apply getParkedVehicles_In in Hall as [[Hin _] _]. exact Hin. }
  destruct (getRestorationStatusForVehicles_by_plate db (map plate_number all)
              (plate_number v) (in_map _ _ _ Hall) Hne Hndc Hndr) as (m0 & H0 & Hl0).
  destruct (getRestorationStatusForVehicles_by_plate db
              (map plate_number (List.filter atLoc all))
              (plate_number v) (in_map _ _ _ Hv) Hne Hndc Hndr) as (m1 & H1 & Hl1).
  rewrite Heq in H0. rewrite Heq' in H1. injection H0 as <- _. injection H1 as <- _.
  unfold registered. rewrite Hl0, Hl1. reflexivity.
Qed.

Lemma locationVehicles_matches_dashboard_witness :
  exists shown,
    dashboardVehicles sampleCpm noFault [parkedSample] = Returns shown
    /\ locationVehicles sampleCpm noFault [parkedSample] "RF IN LPR"
       = Returns (List.filter (fun v => locationName v =? "RF IN LPR") shown).
Proof.
  apply (locationVehicles_matches_dashboard sampleCpm [parkedSample] "RF IN LPR").
  - cbn. repeat constructor; cbn; intuition discriminate.
  - cbn. repeat constructor; cbn; intuition discriminate.
  - repeat constructor. discriminate.
Defined.

(** ** The session store *)

(** X27.  The session store behaves as a map with expiry.  After
    [set(sid, sess)] at the instant [now], [get(sid)] gives the session
    back at every instant before [now] plus its lifetime and nothing from
    then on; after [destroy(sid)] it gives nothing; in both cases every
    other session id is answered as before. *)
Theorem SQLiteStore_set_get (db : gmap string (SQLiteStore.sess * Z)) (sid sid' : string)
    (s : SQLiteStore.sess) (now now' : Z) :
  SQLiteStore.get (snd (SQLiteStore.set db None sid s now)) None sid' now'
  = (if bool_decide (sid' = sid)
     then Returns (if (now' <? now + SQLiteStore.lifetime s)%Z then Some s else None)
     else SQLiteStore.get db None sid' now')
  /\ SQLiteStore.get (snd (SQLiteStore.destroy db None sid)) None sid' now'
     = (if bool_decide (sid' = sid) then Returns None
        else SQLiteStore.get db None sid' now').
Proof.
  unfold SQLiteStore.get, SQLiteStore.set, SQLiteStore.destroy. cbn [snd].
  destruct (decide (sid' = sid)) as [->|Hne].
  - rewrite bool_decide_eq_true_2 by reflexivity.
    rewrite lookup_insert_eq, lookup_delete_eq. auto.
  - rewrite bool_decide_eq_false_2 by exact Hne.
    rewrite lookup_insert_ne, lookup_delete_ne by congruence. auto.
Qed.

(** X28.  Clearing expired sessions cannot be observed through [get]: at
    the instant of the clearing and at every later one, each session id is
    answered as if the clearing had not happened, whether the clearing
    succeeded or failed. *)
Theorem SQLiteStore_clearExpired_unobservable (db : gmap string (SQLiteStore.sess * Z))
    (fault : option string) (sid : string) (now now' : Z) :
  (now <= now')%Z ->
  SQLiteStore.get (fst (SQLiteStore.clearExpired db fault now)) None sid now'
  = SQLiteStore.get db None sid now'.
Proof.
  intros Hle. unfold SQLiteStore.get, SQLiteStore.clearExpired.
  destruct fault as [msg|]; cbn [fst]; [reflexivity|]. f_equal.
  destruct (db !! sid) as [[s expired]|] eqn:Hdb.
  - destruct (decide (now < expired)%Z) as [Hlt|Hge].
    + assert (Hf : filter (fun kv : string * (SQLiteStore.sess * Z) =>
                             (now < snd (snd kv))%Z) db !! sid = Some (s, expired))
        by (apply map_lookup_filter_Some_2; [exact Hdb | exact Hlt]).
      rewrite Hf. reflexivity.
    + rewrite map_lookup_filter_None_2.
      * destruct (now' <? expired)%Z eqn:Hn; [|reflexivity].
        apply Z.ltb_lt in Hn. lia.
      * right. intros x Hx. rewrite Hdb in Hx. injection Hx as <-. exact Hge.
  - rewrite map_lookup_filter_None_2; [reflexivity|]. left. exact Hdb.
Qed.

Lemma SQLiteStore_clearExpired_unobservable_witness :
  let s := {| SQLiteStore.maxAge := None; SQLiteStore.data := "{}" |} in
  let db := snd (SQLiteStore.set ∅ None "abc" s 0) in
  SQLiteStore.get (fst (SQLiteStore.clearExpired db None 86400000)) None "abc" 86400001
  = SQLiteStore.get db None "abc" 86400001.
Proof.
  cbn zeta.
  apply (SQLiteStore_clearExpired_unobservable
           (snd (SQLiteStore.set ∅ None "abc"
                   {| SQLiteStore.maxAge := None; SQLiteStore.data := "{}" |} 0))
           None "abc" 86400000 86400001).
  lia.
Defined.

(** ** Labels *)



(** ** Restoration numbers for the task statistics *)

(** X30.  The restoration numbers the dashboard hands to the task
    statistics are backed by the tables: each number
    [getRestorationNosForVehicles] returns is that of a restoration of a
    non-deleted car of a requested plate, whichever queries are rejected.
    Without rejection they cover the batch status lookup: every entry of
    its map that is not the entry for a car without restoration shows the
    status code of a restoration whose number is returned. *)
Theorem getRestorationNosForVehicles_sound (db : cpm) (qfault : faults)
    (carNums : list string) :
  (forall n, In n (fst (getRestorationNosForVehicles db qfault carNums)) ->
             exists r c, In r (restoration_table db) /\ r_no r = n /\ r_c_no r = c_no c
                         /\ liveCar db (c_carnum c) c /\ In (c_carnum c) carNums)
  /\ exists m,
       getRestorationStatusForVehicles db noFault carNums = (Returns m, [])
       /\ forall P e, m !! P = Some e -> e <> noRecordEntry ->
                      exists r, In (r_no r)
                                   (fst (getRestorationNosForVehicles db noFault carNums))
                                /\ statusCode e = r_status_cd r.
Proof.
  split.
  - intros n. unfold getRestorationNosForVehicles, execute.
    destruct (List.length carNums =? 0)%nat; [intros []|].
    destruct (qfault 0%nat); [intros []|].
    destruct (List.length (selectCars db carNums) =? 0)%nat; [intros []|].
    destruct (qfault 1%nat); [intros []|]. cbn [fst].
    intros Hn. apply in_map_iff in Hn. destruct Hn as (r & <- & Hr).
    apply selectRestorations_incl in Hr. destruct Hr as [Hr Hc].
    apply in_map_iff in Hc. destruct Hc as (c & Hno & Hc).
    apply selectCars_In in Hc. destruct Hc as (Hlive & Hreq & _).
    exists r, c. auto.
  - destruct (getRestorationStatusForVehicles_map db noFault carNums)
      as (m & log & Heq & _ & Hm).
    destruct (Hm eq_refl eq_refl eq_refl) as [-> ->]. clear Hm.
    eexists. split; [exact Heq|]. intros P e HP Hne.
    rewrite fillMissing_lookup in HP.
    destruct (fillStatus _ _ _ ∅ !! P) as [e'|] eqn:Hfill.
    + injection HP as ->. apply fillStatus_lookup in Hfill.
      destruct Hfill as [Hfill|(r & Hr & _ & ->)];
        [rewrite lookup_empty in Hfill; discriminate|].
      exists r. split; [|reflexivity].
      unfold getRestorationNosForVehicles, execute, noFault.
      destruct carNums as [|P0 carNums].
      { rewrite selectCars_nil in Hr. cbn [map] in Hr.
        rewrite selectRestorations_nil in Hr. destruct Hr. }
      cbn [List.length Nat.eqb].
      destruct (selectCars db (P0 :: carNums)) as [|c cars].
      { cbn [map] in Hr. rewrite selectRestorations_nil in Hr. destruct Hr. }
      cbn [List.length Nat.eqb fst]. apply in_map, Hr.
    + destruct (existsb _ _); [|discriminate]. injection HP as <-. congruence.
Qed.

